(** * AmneziaVpnService: the session-management core of the VPN client

    A shallow embedding of
    [client/android/src/org/amnezia/vpn/AmneziaVpnService.kt].

    The service is a Kotlin class whose methods mutate its fields.  The
    fields, together with the collaborators the service talks to
    (preferences, network observer, IPC channels, the clock), form the
    record [Service]; every method is a computation in a small state and
    exception monad [M] over that record.  Coroutines launched on
    [connectionScope] are kept in a table and advanced one statement at
    a time by [resume], so that the main thread and the worker threads of
    [Dispatchers.IO] interleave the way they do in the process.

    What leaves the service (IPC messages, calls into a protocol
    implementation, requests to the platform) is appended to the log
    [effects].  [Log.d], [Log.e] and [Log.w] calls are left out.

    Three things are taken as follows.
    - The collector of [protocolState] and the coroutine of [onError],
      both on [Dispatchers.Main.immediate], run to completion at the
      write or call that wakes them.
    - A protocol implementation is an opaque collaborator: a call into
      it begins, and later returns or throws, and at any time it may
      write a state other than [UNKNOWN] into [protocolState].
    - [onDestroy], which tears the process down, is not part of the
      model. *)

From Stdlib Require Import Ascii String ZArith.
From stdpp Require Import base gmap strings list fin_maps pretty.

Open Scope string_scope.
Open Scope Z_scope.
Open Scope list_scope.

(** ** Data model *)

(** [org.amnezia.vpn.protocol.ProtocolState] *)
Inductive ProtocolState :=
  | UNKNOWN
  | CONNECTING
  | CONNECTED
  | DISCONNECTING
  | DISCONNECTED
  | RECONNECTING.

#[global] Instance ProtocolState_eq_dec : EqDecision ProtocolState.
Proof. solve_decision. Defined.

(** The protocol implementations [getProtocol] can construct.  An
    instance is cached under its name once constructed, so an instance is
    identified by its class. *)
Inductive Protocol :=
  | Wireguard
  | Awg
  | OpenVpn
  | Cloak.

#[global] Instance Protocol_eq_dec : EqDecision Protocol.
Proof. solve_decision. Defined.

(** Values of an [org.json.JSONObject].  [JOther] stands for every value
    that is neither a [String] nor an [Integer] (a long, a double, a
    boolean, a nested document, [JSONObject.NULL]); it carries the text
    [String.valueOf] gives for it. *)
Inductive JSONValue :=
  | JString (s : string)
  | JInt (z : Z)
  | JOther (text : string).

Abbreviation JSONObject := (gmap string JSONValue).

(** The exception classes [connectionExceptionHandler] tells apart, the
    [ClassCastException] of a failed [as] cast, and [OtherThrowable] for
    every remaining class. *)
Inductive ThrowableClass :=
  | IllegalArgumentException
  | VpnStartException
  | VpnException
  | JSONException
  | BadConfigException
  | LoadLibraryException
  | ClassCastException
  | OtherThrowable.

#[global] Instance ThrowableClass_eq_dec : EqDecision ThrowableClass.
Proof. solve_decision. Defined.

Record Throwable := {
  class : ThrowableClass;
  message : option string;
  causeMessage : option string   (* e.cause?.message *)
}.

(** [e.toString()] of an exception without message is its class name. *)
Definition className (c : ThrowableClass) : string :=
  match c with
  | IllegalArgumentException => "java.lang.IllegalArgumentException"
  | VpnStartException => "org.amnezia.vpn.protocol.VpnStartException"
  | VpnException => "org.amnezia.vpn.protocol.VpnException"
  | JSONException => "org.json.JSONException"
  | BadConfigException => "org.amnezia.vpn.protocol.BadConfigException"
  | LoadLibraryException => "org.amnezia.vpn.protocol.LoadLibraryException"
  | ClassCastException => "java.lang.ClassCastException"
  | OtherThrowable => "java.lang.Throwable"
  end.

Definition toString (e : Throwable) : string :=
  match message e with
  | Some m => className (class e) +:+ ": " +:+ m
  | None => className (class e)
  end.

(** A nullable string inside a string template prints as [null]. *)
Definition template (o : option string) : string := default "null" o.

(** IPC: [android.os.Messenger] reply destinations, [IpcMessenger]
    entries, the [Action]s the service accepts and the [ServiceEvent]s it
    sends. *)
Abbreviation Messenger := nat.

Record IpcMessenger := { name : option string }.

Inductive Action :=
  | REGISTER_CLIENT (clientName : option string)
  | UNREGISTER_CLIENT
  | CONNECT (vpnConfig : option string)
  | DISCONNECT
  | REQUEST_STATUS
  | SET_SAVE_LOGS (enabled : bool).

Inductive ServiceEvent :=
  | STATUS (state : ProtocolState)
  | STATUS_CHANGED (state : ProtocolState)
  | ERROR (msg : string)
  | STATISTICS_UPDATE.

(** Values kept by [org.amnezia.vpn.util.Prefs]. *)
Inductive PrefValue :=
  | PString (s : string)
  | PInt (z : Z).

(** Coroutines are named by their position in the table. *)
Abbreviation Job := nat.

(** Program points of the block launched by [connectToVpn]:
<<
    disconnectionJob?.join()                       CJoin, CJoining d
    disconnectionJob = null                        CClear
    protocol = getProtocol(config.getString(..))   CResolve
    protocol?.startVpn(config, Builder(), ..)      CStart, CStarting p
>> *)
Inductive ConnectionPc :=
  | CJoin
  | CJoining (d : Job)
  | CClear
  | CResolve
  | CStart
  | CStarting (p : Protocol).

(** Program points of the block launched by [disconnect]:
<<
    connectionJob?.join()                          DJoin, DJoining c
    connectionJob = null                           DClear
    protocol?.stopVpn()                            DStop, DStopping p
    protocol = null                                DNull
    withTimeout(DISCONNECT_TIMEOUT) { .. }         DAwait deadline
>> *)
Inductive DisconnectionPc :=
  | DJoin
  | DJoining (c : Job)
  | DClear
  | DStop
  | DStopping (p : Protocol)
  | DNull
  | DAwait (deadline : Z).

(** Program points of the block launched by [reconnect]. *)
Inductive ReconnectionPc :=
  | RCall
  | RRunning (p : Protocol).

Inductive Coroutine :=
  | ConnectionJob (config : JSONObject) (pc : ConnectionPc)
  | DisconnectionJob (pc : DisconnectionPc)
  | ReconnectionJob (pc : ReconnectionPc)
  | Completed.

(** What the service does to the outside, in the order it does it. *)
Inductive Effect :=
  | Sent (to : Messenger) (event : ServiceEvent)
  | Initialize (p : Protocol)
  | StartVpn (p : Protocol)
  | StartVpnReturned (p : Protocol)
  | StopVpn (p : Protocol)
  | StopVpnReturned (p : Protocol)
  | ReconnectVpn (p : Protocol)
  | ReconnectVpnReturned (p : Protocol)
  | StartActivity
  | StartForeground
  | StopSelf
  | KillProcessAt (time : Z)
  | BindNetworkListener
  | UnbindNetworkListener
  | StoreVpnState (state : ProtocolState) (serverName : option string)
      (serverIndex : Z).

(** ** The service and its collaborators *)

Record Service := {
  (* fields of the class *)
  isServiceBound : bool;
  protocol : option Protocol;
  protocolCache : gmap string Protocol;
  protocolState : ProtocolState;
  serverName : option string;
  serverIndex : Z;
  connectionJob : option Job;
  disconnectionJob : option Job;
  statisticsSendingJob : option Job;
  clientMessengers : gmap Messenger IpcMessenger;
  saveLogs : bool;                        (* Log.saveLogs *)
  (* collaborators *)
  prefs : gmap string PrefValue;          (* Prefs *)
  networkListener : bool;                 (* networkState is bound *)
  vpnPermission : bool;                   (* prepare(..) == null *)
  deadChannels : gset Messenger;          (* remote end is gone *)
  clock : Z;                              (* milliseconds *)
  coroutines : list Coroutine;            (* connectionScope *)
  effects : list Effect;
  uncaught : option Throwable             (* the process has crashed *)
}.

Definition set_isServiceBound (v : bool) (s : Service) : Service :=
  Build_Service v (protocol s) (protocolCache s) (protocolState s)
    (serverName s) (serverIndex s) (connectionJob s) (disconnectionJob s)
    (statisticsSendingJob s) (clientMessengers s) (saveLogs s) (prefs s)
    (networkListener s) (vpnPermission s) (deadChannels s) (clock s)
    (coroutines s) (effects s) (uncaught s).

Definition set_protocol (v : option Protocol) (s : Service) : Service :=
  Build_Service (isServiceBound s) v (protocolCache s) (protocolState s)
    (serverName s) (serverIndex s) (connectionJob s) (disconnectionJob s)
    (statisticsSendingJob s) (clientMessengers s) (saveLogs s) (prefs s)
    (networkListener s) (vpnPermission s) (deadChannels s) (clock s)
    (coroutines s) (effects s) (uncaught s).

Definition set_protocolCache (v : gmap string Protocol) (s : Service) : Service :=
  Build_Service (isServiceBound s) (protocol s) v (protocolState s)
    (serverName s) (serverIndex s) (connectionJob s) (disconnectionJob s)
    (statisticsSendingJob s) (clientMessengers s) (saveLogs s) (prefs s)
    (networkListener s) (vpnPermission s) (deadChannels s) (clock s)
    (coroutines s) (effects s) (uncaught s).

Definition set_protocolState (v : ProtocolState) (s : Service) : Service :=
  Build_Service (isServiceBound s) (protocol s) (protocolCache s) v
    (serverName s) (serverIndex s) (connectionJob s) (disconnectionJob s)
    (statisticsSendingJob s) (clientMessengers s) (saveLogs s) (prefs s)
    (networkListener s) (vpnPermission s) (deadChannels s) (clock s)
    (coroutines s) (effects s) (uncaught s).

Definition set_serverName (v : option string) (s : Service) : Service :=
  Build_Service (isServiceBound s) (protocol s) (protocolCache s)
    (protocolState s) v (serverIndex s) (connectionJob s) (disconnectionJob
    s) (statisticsSendingJob s) (clientMessengers s) (saveLogs s) (prefs s)
    (networkListener s) (vpnPermission s) (deadChannels s) (clock s)
    (coroutines s) (effects s) (uncaught s).

Definition set_serverIndex (v : Z) (s : Service) : Service :=
  Build_Service (isServiceBound s) (protocol s) (protocolCache s)
    (protocolState s) (serverName s) v (connectionJob s) (disconnectionJob s)
    (statisticsSendingJob s) (clientMessengers s) (saveLogs s) (prefs s)
    (networkListener s) (vpnPermission s) (deadChannels s) (clock s)
    (coroutines s) (effects s) (uncaught s).

Definition set_connectionJob (v : option Job) (s : Service) : Service :=
  Build_Service (isServiceBound s) (protocol s) (protocolCache s)
    (protocolState s) (serverName s) (serverIndex s) v (disconnectionJob s)
    (statisticsSendingJob s) (clientMessengers s) (saveLogs s) (prefs s)
    (networkListener s) (vpnPermission s) (deadChannels s) (clock s)
    (coroutines s) (effects s) (uncaught s).

Definition set_disconnectionJob (v : option Job) (s : Service) : Service :=
  Build_Service (isServiceBound s) (protocol s) (protocolCache s)
    (protocolState s) (serverName s) (serverIndex s) (connectionJob s) v
    (statisticsSendingJob s) (clientMessengers s) (saveLogs s) (prefs s)
    (networkListener s) (vpnPermission s) (deadChannels s) (clock s)
    (coroutines s) (effects s) (uncaught s).

Definition set_statisticsSendingJob (v : option Job) (s : Service) : Service :=
  Build_Service (isServiceBound s) (protocol s) (protocolCache s)
    (protocolState s) (serverName s) (serverIndex s) (connectionJob s)
    (disconnectionJob s) v (clientMessengers s) (saveLogs s) (prefs s)
    (networkListener s) (vpnPermission s) (deadChannels s) (clock s)
    (coroutines s) (effects s) (uncaught s).

Definition set_clientMessengers (v : gmap Messenger IpcMessenger) (s : Service) : Service :=
  Build_Service (isServiceBound s) (protocol s) (protocolCache s)
    (protocolState s) (serverName s) (serverIndex s) (connectionJob s)
    (disconnectionJob s) (statisticsSendingJob s) v (saveLogs s) (prefs s)
    (networkListener s) (vpnPermission s) (deadChannels s) (clock s)
    (coroutines s) (effects s) (uncaught s).

Definition set_saveLogs (v : bool) (s : Service) : Service :=
  Build_Service (isServiceBound s) (protocol s) (protocolCache s)
    (protocolState s) (serverName s) (serverIndex s) (connectionJob s)
    (disconnectionJob s) (statisticsSendingJob s) (clientMessengers s) v
    (prefs s) (networkListener s) (vpnPermission s) (deadChannels s) (clock
    s) (coroutines s) (effects s) (uncaught s).

Definition set_prefs (v : gmap string PrefValue) (s : Service) : Service :=
  Build_Service (isServiceBound s) (protocol s) (protocolCache s)
    (protocolState s) (serverName s) (serverIndex s) (connectionJob s)
    (disconnectionJob s) (statisticsSendingJob s) (clientMessengers s)
    (saveLogs s) v (networkListener s) (vpnPermission s) (deadChannels s)
    (clock s) (coroutines s) (effects s) (uncaught s).

Definition set_networkListener (v : bool) (s : Service) : Service :=
  Build_Service (isServiceBound s) (protocol s) (protocolCache s)
    (protocolState s) (serverName s) (serverIndex s) (connectionJob s)
    (disconnectionJob s) (statisticsSendingJob s) (clientMessengers s)
    (saveLogs s) (prefs s) v (vpnPermission s) (deadChannels s) (clock s)
    (coroutines s) (effects s) (uncaught s).

Definition set_vpnPermission (v : bool) (s : Service) : Service :=
  Build_Service (isServiceBound s) (protocol s) (protocolCache s)
    (protocolState s) (serverName s) (serverIndex s) (connectionJob s)
    (disconnectionJob s) (statisticsSendingJob s) (clientMessengers s)
    (saveLogs s) (prefs s) (networkListener s) v (deadChannels s) (clock s)
    (coroutines s) (effects s) (uncaught s).

Definition set_deadChannels (v : gset Messenger) (s : Service) : Service :=
  Build_Service (isServiceBound s) (protocol s) (protocolCache s)
    (protocolState s) (serverName s) (serverIndex s) (connectionJob s)
    (disconnectionJob s) (statisticsSendingJob s) (clientMessengers s)
    (saveLogs s) (prefs s) (networkListener s) (vpnPermission s) v (clock s)
    (coroutines s) (effects s) (uncaught s).

Definition set_clock (v : Z) (s : Service) : Service :=
  Build_Service (isServiceBound s) (protocol s) (protocolCache s)
    (protocolState s) (serverName s) (serverIndex s) (connectionJob s)
    (disconnectionJob s) (statisticsSendingJob s) (clientMessengers s)
    (saveLogs s) (prefs s) (networkListener s) (vpnPermission s)
    (deadChannels s) v (coroutines s) (effects s) (uncaught s).

Definition set_coroutines (v : list Coroutine) (s : Service) : Service :=
  Build_Service (isServiceBound s) (protocol s) (protocolCache s)
    (protocolState s) (serverName s) (serverIndex s) (connectionJob s)
    (disconnectionJob s) (statisticsSendingJob s) (clientMessengers s)
    (saveLogs s) (prefs s) (networkListener s) (vpnPermission s)
    (deadChannels s) (clock s) v (effects s) (uncaught s).

Definition set_effects (v : list Effect) (s : Service) : Service :=
  Build_Service (isServiceBound s) (protocol s) (protocolCache s)
    (protocolState s) (serverName s) (serverIndex s) (connectionJob s)
    (disconnectionJob s) (statisticsSendingJob s) (clientMessengers s)
    (saveLogs s) (prefs s) (networkListener s) (vpnPermission s)
    (deadChannels s) (clock s) (coroutines s) v (uncaught s).

Definition set_uncaught (v : option Throwable) (s : Service) : Service :=
  Build_Service (isServiceBound s) (protocol s) (protocolCache s)
    (protocolState s) (serverName s) (serverIndex s) (connectionJob s)
    (disconnectionJob s) (statisticsSendingJob s) (clientMessengers s)
    (saveLogs s) (prefs s) (networkListener s) (vpnPermission s)
    (deadChannels s) (clock s) (coroutines s) (effects s) v.

(** ** A state and exception monad over the service

    A method either returns or throws; in both cases the fields keep the
    writes made so far. *)

Inductive Result (A : Type) :=
  | Ok (a : A)
  | Throw (e : Throwable).

Arguments Ok {A} a.
Arguments Throw {A} e.

Definition M (A : Type) : Type := Service → Result A * Service.

Definition ret {A} (a : A) : M A := λ s, (Ok a, s).

Definition throw {A} (e : Throwable) : M A := λ s, (Throw e, s).

Definition bind {A B} (c : M A) (k : A → M B) : M B :=
  λ s, match c s with
       | (Ok a, s') => k a s'
       | (Throw e, s') => (Throw e, s')
       end.

Definition get : M Service := λ s, (Ok s, s).

Definition gets {A} (f : Service → A) : M A := λ s, (Ok (f s), s).

Definition modify (f : Service → Service) : M unit := λ s, (Ok tt, f s).

Declare Scope service_scope.
Delimit Scope service_scope with service.
Bind Scope service_scope with M.

Notation "x <- c ;; k" := (bind c (λ x, k))
  (at level 100, c at next level, k at level 200) : service_scope.
Notation "c ;; k" := (bind c (λ _, k))
  (at level 100, k at level 200) : service_scope.

Open Scope service_scope.

Definition when (b : bool) (c : M unit) : M unit := if b then c else ret tt.

Definition emit (e : Effect) : M unit :=
  modify (λ s, set_effects (effects s ++ [e]) s).

(** ** Constants *)

Definition PREFS_CONFIG_KEY : string := "LAST_CONF".
Definition PREFS_SERVER_NAME : string := "LAST_SERVER_NAME".
Definition PREFS_SERVER_INDEX : string := "LAST_SERVER_INDEX".
Definition DISCONNECT_TIMEOUT : Z := 5000.
Definition STOP_SERVICE_TIMEOUT : Z := 5000.

(** Modelled from the spec: the name of the privileged foreground
    observer.  [ACTIVITY_MESSENGER_NAME] is declared with the activity,
    outside this file. *)
Definition ACTIVITY_MESSENGER_NAME : string := "Activity".

(** ** Collaborators *)

(** Modelled from the spec: [org.amnezia.vpn.util.Prefs], the persistent
    key-value store.  Saving a [null] string removes the key; loading a
    string that is not stored gives the empty string. *)
Definition Prefs_save_String (key : string) (value : option string) : M unit :=
  modify (λ s, set_prefs
                 match value with
                 | Some v => <[key := PString v]> (prefs s)
                 | None => delete key (prefs s)
                 end s).

(** Modelled from the spec: [Prefs.save] of an integer. *)
Definition Prefs_save_Int (key : string) (value : Z) : M unit :=
  modify (λ s, set_prefs (<[key := PInt value]> (prefs s)) s).

(** Modelled from the spec: [Prefs.load] of a string. *)
Definition Prefs_load_String (key : string) : M string :=
  gets (λ s, match prefs s !! key with
             | Some (PString v) => v
             | _ => ""
             end).

(** Modelled from the spec: [clientMessengers.send], the broadcast of
    [IpcMessenger.kt].  The event goes to every registered channel; a
    channel whose remote end is gone is dropped from the registry and
    nothing is raised. *)
Definition send (event : ServiceEvent) : M unit :=
  modify (λ s,
    let live := filter (λ kv, kv.1 ∉ deadChannels s) (clientMessengers s) in
    set_effects (effects s ++ ((λ kv, Sent kv.1 event) <$> map_to_list live))
      (set_clientMessengers live s)).

(** Modelled from the spec: the unicast [IpcMessenger.send], a reply to
    one channel; nothing is raised when that channel is gone. *)
Definition send_to (to : Messenger) (event : ServiceEvent) : M unit :=
  s <- get ;;
  when (bool_decide (to ∉ deadChannels s)) (emit (Sent to event)).

(** Modelled from the spec: [NetworkState.bindNetworkListener] and
    [unbindNetworkListener] of [org.amnezia.vpn.util.net], which bind and
    unbind the observer of connectivity changes. *)
Definition bindNetworkListener : M unit :=
  modify (set_networkListener true) ;; emit BindNetworkListener.

(** Modelled from the spec: see [bindNetworkListener]. *)
Definition unbindNetworkListener : M unit :=
  modify (set_networkListener false) ;; emit UnbindNetworkListener.

(** Strings hold text in UTF-8.  [codePoints] reads the characters of a
    text off its bytes; a byte that begins no well-formed sequence is
    read as U+FFFD. *)
Definition continuation (n : N) : bool := ((128 <=? n) && (n <? 192))%N.

Fixpoint codePoints (s : string) : list N :=
  match s with
  | EmptyString => []
  | String b0 rest =>
      let n0 := N_of_ascii b0 in
      if (n0 <? 128)%N then n0 :: codePoints rest
      else
        match rest with
        | EmptyString => [65533%N]
        | String b1 rest1 =>
            let n1 := N_of_ascii b1 in
            if (194 <=? n0)%N && (n0 <? 224)%N && continuation n1
            then ((n0 - 192) * 64 + (n1 - 128))%N :: codePoints rest1
            else
              match rest1 with
              | EmptyString => 65533%N :: codePoints rest
              | String b2 rest2 =>
                  let n2 := N_of_ascii b2 in
                  let c3 := (((n0 - 224) * 64 + (n1 - 128)) * 64
                             + (n2 - 128))%N in
                  if (224 <=? n0)%N && (n0 <? 240)%N && continuation n1
                     && continuation n2 && (2048 <=? c3)%N
                  then c3 :: codePoints rest2
                  else
                    match rest2 with
                    | EmptyString => 65533%N :: codePoints rest
                    | String b3 rest3 =>
                        let n3 := N_of_ascii b3 in
                        let c4 := ((((n0 - 240) * 64 + (n1 - 128)) * 64
                                    + (n2 - 128)) * 64 + (n3 - 128))%N in
                        if (240 <=? n0)%N && (n0 <? 248)%N && continuation n1
                           && continuation n2 && continuation n3
                           && (65536 <=? c4)%N
                        then c4 :: codePoints rest3
                        else 65533%N :: codePoints rest
                    end
              end
        end
  end.

(** [Char.isWhitespace]: the white space of Java, which is U+0009 to
    U+000D and U+001C to U+001F, and the space, line and paragraph
    separators of Unicode, the non-breaking ones among them. *)
Definition isWhitespace (c : N) : bool :=
  (((9 <=? c) && (c <=? 13)) || ((28 <=? c) && (c <=? 32))
   || (c =? 160) || (c =? 5760)
   || ((8192 <=? c) && (c <=? 8202))
   || (c =? 8232) || (c =? 8233) || (c =? 8239) || (c =? 8287)
   || (c =? 12288))%N.

(** [String.isBlank]: every character is white space. *)
Definition isBlank (s : string) : bool := forallb isWhitespace (codePoints s).

(** [JSONObject.getString]: the value under [key] as a string, a value
    that is no string being turned into one; a [JSONException] when the
    key is absent. *)
Definition JSON_toString (v : JSONValue) : string :=
  match v with
  | JString s => s
  | JInt z => pretty z
  | JOther text => text
  end.

Definition getString (config : JSONObject) (key : string) : M string :=
  match config !! key with
  | Some v => ret (JSON_toString v)
  | None =>
      throw {| class := JSONException;
               message := Some ("No value for " +:+ key);
               causeMessage := None |}
  end.

(** A failed [as] cast. *)
Definition classCast : Throwable :=
  {| class := ClassCastException; message := None; causeMessage := None |}.

(** ** Properties of the class *)

Definition isConnected (s : Service) : bool :=
  bool_decide (protocolState s = CONNECTED).

Definition isDisconnected (s : Service) : bool :=
  bool_decide (protocolState s = DISCONNECTED).

Definition isUnknown (s : Service) : bool :=
  bool_decide (protocolState s = UNKNOWN).

Definition isActivityConnected (s : Service) : bool :=
  existsb (λ kv, bool_decide (name kv.2 = Some ACTIVITY_MESSENGER_NAME))
    (map_to_list (clientMessengers s)).

(** ** Coroutines *)

(** [scope.launch { .. }]: the new coroutine gets the next free handle. *)
Definition launch (c : Coroutine) : M Job :=
  s <- get ;;
  modify (set_coroutines (coroutines s ++ [c])) ;;
  ret (length (coroutines s)).

(** [Job.cancel]. *)
Definition cancel (j : Job) : M unit :=
  modify (λ s, set_coroutines (<[j := Completed]> (coroutines s)) s).

(** [Job.join] returns once the coroutine has completed. *)
Definition isCompleted (s : Service) (j : Job) : bool :=
  match coroutines s !! j with
  | Some Completed => true
  | _ => false
  end.

(** ** The methods of [AmneziaVpnService] *)

Section AmneziaVpnService.

(** The constructor [JSONObject(String)] of org.json: the document, or
    the message of the [JSONException] it throws. *)
Variable JSONObject_new : string → string + JSONObject.

(** *** Sending errors and statistics *)

Definition onError (msg : string) : M unit := send (ERROR msg).

(** The body of [launchSendingStatistics] is commented out in the
    source. *)
Definition launchSendingStatistics : M unit := ret tt.

Definition stopSendingStatistics : M unit :=
  s <- get ;;
  match statisticsSendingJob s with
  | Some j => cancel j
  | None => ret tt
  end.

(** *** Stopping the service *)

(** The coroutine launched on [mainScope] kills the process once
    [STOP_SERVICE_TIMEOUT] has passed, unless [onDestroy] cancels it. *)
Definition stopService : M unit :=
  s <- get ;;
  emit (KillProcessAt (clock s + STOP_SERVICE_TIMEOUT)) ;;
  emit StopSelf.

(** *** The protocol state and its collector *)

(** The body of the collector of [launchProtocolStateHandler]. *)
Definition protocolStateHandler (state : ProtocolState) : M unit :=
  match state with
  | CONNECTED =>
      bindNetworkListener ;;
      s <- get ;;
      when (isActivityConnected s) launchSendingStatistics
  | DISCONNECTED =>
      unbindNetworkListener ;;
      stopSendingStatistics ;;
      s <- get ;;
      when (negb (isServiceBound s)) stopService
  | DISCONNECTING =>
      unbindNetworkListener ;;
      stopSendingStatistics
  | RECONNECTING => stopSendingStatistics
  | CONNECTING | UNKNOWN => ret tt
  end ;;
  send (STATUS_CHANGED state) ;;
  s <- get ;;
  emit (StoreVpnState state (serverName s) (serverIndex s)).

(** [protocolState.value = state].  A [MutableStateFlow] does not emit a
    value equal to the current one; for every other write the collector
    runs with the new value. *)
Definition setProtocolState (state : ProtocolState) : M unit :=
  s <- get ;;
  if decide (protocolState s = state) then ret tt
  else modify (set_protocolState state) ;; protocolStateHandler state.

(** *** Utils methods *)

Definition parseConfigToJson (vpnConfig : string) : M (option JSONObject) :=
  if isBlank vpnConfig then ret None
  else match JSONObject_new vpnConfig with
       | inr config => ret (Some config)
       | inl m =>
           onError ("Invalid VPN config json format: " +:+ m) ;; ret None
       end.

(** [config?.opt(key)] *)
Definition opt (config : option JSONObject) (key : string) : option JSONValue :=
  c ← config; c !! key.

(** [.. as String?] and [.. as Int?] *)
Definition asString (v : option JSONValue) : M (option string) :=
  match v with
  | None => ret None
  | Some (JString s) => ret (Some s)
  | Some _ => throw classCast
  end.

Definition asInt (v : option JSONValue) : M (option Z) :=
  match v with
  | None => ret None
  | Some (JInt z) => ret (Some z)
  | Some _ => throw classCast
  end.

Definition saveServerData (config : option JSONObject) : M unit :=
  n <- asString (opt config "description") ;;
  modify (set_serverName n) ;;
  i <- asInt (opt config "serverIndex") ;;
  modify (set_serverIndex (default (-1) i)) ;;
  s <- get ;;
  Prefs_save_String PREFS_SERVER_NAME (serverName s) ;;
  Prefs_save_Int PREFS_SERVER_INDEX (serverIndex s).

Definition checkPermission : M bool :=
  s <- get ;;
  if negb (vpnPermission s) then emit StartActivity ;; ret false
  else ret true.

(** *** The protocol registry *)

Definition getProtocol (protocolName : string) : M Protocol :=
  s <- get ;;
  match protocolCache s !! protocolName with
  | Some p => ret p
  | None =>
      p <- (if decide (protocolName = "wireguard") then ret Wireguard
            else if decide (protocolName = "awg") then ret Awg
            else if decide (protocolName = "openvpn") then ret OpenVpn
            else if decide (protocolName = "cloak") then ret Cloak
            else throw {| class := IllegalArgumentException;
                          message := Some ("Protocol '" +:+ protocolName
                                           +:+ "' not found");
                          causeMessage := None |}) ;;
      emit (Initialize p) ;;
      modify (λ s, set_protocolCache (<[protocolName := p]> (protocolCache s)) s) ;;
      ret p
  end.

(** *** Failures of the coroutines of [connectionScope] *)

Definition connectionExceptionHandler (e : Throwable) : M unit :=
  setProtocolState DISCONNECTED ;;
  modify (set_protocol None) ;;
  match class e with
  | IllegalArgumentException
  | VpnStartException
  | VpnException => onError (default (toString e) (message e))
  | JSONException
  | BadConfigException =>
      onError ("VPN config format error: " +:+ template (message e))
  | LoadLibraryException =>
      onError (template (message e) +:+ ". Caused: "
               +:+ template (causeMessage e))
  | _ => throw e
  end.

(** *** Connecting, disconnecting, reconnecting *)

Definition connectToVpn (vpnConfig : string) : M unit :=
  s <- get ;;
  if isConnected s || bool_decide (protocolState s = CONNECTING) then ret tt
  else
    setProtocolState CONNECTING ;;
    config <- parseConfigToJson vpnConfig ;;
    saveServerData config ;;
    match config with
    | None =>
        onError "Invalid VPN config" ;;
        setProtocolState DISCONNECTED
    | Some config =>
        granted <- checkPermission ;;
        if negb granted then setProtocolState DISCONNECTED
        else
          j <- launch (ConnectionJob config CJoin) ;;
          modify (set_connectionJob (Some j))
    end.

Definition connect (vpnConfig : option string) : M unit :=
  match vpnConfig with
  | None =>
      last <- Prefs_load_String PREFS_CONFIG_KEY ;;
      connectToVpn last
  | Some vpnConfig =>
      Prefs_save_String PREFS_CONFIG_KEY (Some vpnConfig) ;;
      connectToVpn vpnConfig
  end.

Definition disconnect : M unit :=
  s <- get ;;
  if isUnknown s || isDisconnected s
     || bool_decide (protocolState s = DISCONNECTING) then ret tt
  else
    setProtocolState DISCONNECTING ;;
    j <- launch (DisconnectionJob DJoin) ;;
    modify (set_disconnectionJob (Some j)).

Definition reconnect : M unit :=
  s <- get ;;
  if negb (isConnected s) then ret tt
  else
    setProtocolState RECONNECTING ;;
    j <- launch (ReconnectionJob RCall) ;;
    modify (set_connectionJob (Some j)).

(** *** The coroutines of [connectionScope]

    [statement c outcome] runs the statement coroutine [c] is at and
    gives the coroutine at its next program point; a coroutine that waits
    is given back as it is.  [outcome] is what a call into the protocol
    implementation that is under way comes back with: [None] when it
    returns, [Some e] when it throws [e]. *)

Definition connectionStatement (config : JSONObject) (pc : ConnectionPc)
    (outcome : option Throwable) : M Coroutine :=
  match pc with
  | CJoin =>
      s <- get ;;
      match disconnectionJob s with
      | Some d => ret (ConnectionJob config (CJoining d))
      | None => ret (ConnectionJob config CClear)
      end
  | CJoining d =>
      s <- get ;;
      if isCompleted s d then ret (ConnectionJob config CClear)
      else ret (ConnectionJob config (CJoining d))
  | CClear =>
      modify (set_disconnectionJob None) ;;
      ret (ConnectionJob config CResolve)
  | CResolve =>
      protocolName <- getString config "protocol" ;;
      p <- getProtocol protocolName ;;
      modify (set_protocol (Some p)) ;;
      ret (ConnectionJob config CStart)
  | CStart =>
      s <- get ;;
      match protocol s with
      | Some p => emit (StartVpn p) ;; ret (ConnectionJob config (CStarting p))
      | None => ret Completed
      end
  | CStarting p =>
      match outcome with
      | None => emit (StartVpnReturned p) ;; ret Completed
      | Some e => throw e
      end
  end.

Definition disconnectionStatement (pc : DisconnectionPc)
    (outcome : option Throwable) : M Coroutine :=
  match pc with
  | DJoin =>
      s <- get ;;
      match connectionJob s with
      | Some c => ret (DisconnectionJob (DJoining c))
      | None => ret (DisconnectionJob DClear)
      end
  | DJoining c =>
      s <- get ;;
      if isCompleted s c then ret (DisconnectionJob DClear)
      else ret (DisconnectionJob (DJoining c))
  | DClear =>
      modify (set_connectionJob None) ;;
      ret (DisconnectionJob DStop)
  | DStop =>
      s <- get ;;
      match protocol s with
      | Some p => emit (StopVpn p) ;; ret (DisconnectionJob (DStopping p))
      | None => ret (DisconnectionJob DNull)
      end
  | DStopping p =>
      match outcome with
      | None => emit (StopVpnReturned p) ;; ret (DisconnectionJob DNull)
      | Some e => throw e
      end
  | DNull =>
      modify (set_protocol None) ;;
      s <- get ;;
      ret (DisconnectionJob (DAwait (clock s + DISCONNECT_TIMEOUT)))
  | DAwait deadline =>
      (* waiting for disconnect state *)
      s <- get ;;
      if isDisconnected s then ret Completed
      else if deadline <=? clock s then stopService ;; ret Completed
      else ret (DisconnectionJob (DAwait deadline))
  end.

Definition reconnectionStatement (pc : ReconnectionPc)
    (outcome : option Throwable) : M Coroutine :=
  match pc with
  | RCall =>
      s <- get ;;
      match protocol s with
      | Some p => emit (ReconnectVpn p) ;; ret (ReconnectionJob (RRunning p))
      | None => ret Completed
      end
  | RRunning p =>
      match outcome with
      | None => emit (ReconnectVpnReturned p) ;; ret Completed
      | Some e => throw e
      end
  end.

Definition statement (c : Coroutine) (outcome : option Throwable) : M Coroutine :=
  match c with
  | ConnectionJob config pc => connectionStatement config pc outcome
  | DisconnectionJob pc => disconnectionStatement pc outcome
  | ReconnectionJob pc => reconnectionStatement pc outcome
  | Completed => ret Completed
  end.

(** One statement of coroutine [j].  A coroutine that throws completes,
    and [connectionExceptionHandler], which is part of the context of
    [connectionScope], receives the exception. *)
Definition resume (j : Job) (outcome : option Throwable) : M unit :=
  s <- get ;;
  match coroutines s !! j with
  | None => ret tt
  | Some c =>
      λ s, match statement c outcome s with
           | (Ok c', s') =>
               (Ok tt, set_coroutines (<[j := c']> (coroutines s')) s')
           | (Throw e, s') =>
               connectionExceptionHandler e
                 (set_coroutines (<[j := Completed]> (coroutines s')) s')
           end
  end.

(** *** The message handler *)

Definition handleMessage (replyTo : Messenger) (action : Action) : M unit :=
  match action with
  | REGISTER_CLIENT clientName =>
      modify (λ s, set_clientMessengers
                     (<[replyTo := {| name := clientName |}]> (clientMessengers s)) s) ;;
      s <- get ;;
      when (bool_decide (clientName = Some ACTIVITY_MESSENGER_NAME)
            && isConnected s)
        launchSendingStatistics
  | UNREGISTER_CLIENT =>
      s <- get ;;
      match clientMessengers s !! replyTo with
      | Some it =>
          modify (set_clientMessengers (delete replyTo (clientMessengers s))) ;;
          when (bool_decide (name it = Some ACTIVITY_MESSENGER_NAME))
            stopSendingStatistics
      | None => ret tt
      end
  | CONNECT vpnConfig => connect vpnConfig
  | DISCONNECT => disconnect
  | REQUEST_STATUS =>
      s <- get ;;
      match clientMessengers s !! replyTo with
      | Some _ => send_to replyTo (STATUS (protocolState s))
      | None => ret tt
      end
  | SET_SAVE_LOGS enabled => modify (set_saveLogs enabled)
  end.

(** *** Service overloaded methods *)

(** Modelled from the spec: [Prefs.load] of an integer that is not
    stored gives 0. *)
Definition Prefs_load_Int (key : string) : M Z :=
  gets (λ s, match prefs s !! key with
             | Some (PInt v) => v
             | _ => 0
             end).

Definition loadServerData : M unit :=
  n <- Prefs_load_String PREFS_SERVER_NAME ;;
  modify (set_serverName (if isBlank n then None else Some n)) ;;
  s <- get ;;
  match serverName s with
  | Some _ => i <- Prefs_load_Int PREFS_SERVER_INDEX ;; modify (set_serverIndex i)
  | None => ret tt
  end.

(** [onStartCommand]: [lastConfig] holds when the service is started by
    Always-on or after the permission check. *)
Definition onStartCommand (lastConfig : bool) (vpnConfig : option string) : M unit :=
  (if lastConfig then connect None else connect vpnConfig) ;;
  emit StartForeground.

(** [serviceInterface] holds when the intent's action is
    [SERVICE_INTERFACE]. *)
Definition onBind (serviceInterface : bool) : M unit :=
  if serviceInterface then ret tt else modify (set_isServiceBound true).

Definition onUnbind (serviceInterface : bool) : M unit :=
  s <- get ;;
  if negb serviceInterface
     && bool_decide (clientMessengers s = ∅) then
    modify (set_isServiceBound false) ;;
    when (isUnknown s || isDisconnected s) stopService
  else ret tt.

Definition onRebind (serviceInterface : bool) : M unit :=
  if serviceInterface then ret tt else modify (set_isServiceBound true).

Definition onRevoke : M unit := disconnect.

(** ** The process

    What happens to the service: the platform calls one of its methods,
    the main looper hands it a message, the network observer reports a
    change, a worker thread runs the next statement of a coroutine, a
    protocol implementation writes the state it was given at
    [initialize], or something changes around the service. *)
Inductive Event :=
  | OnStartCommand (lastConfig : bool) (vpnConfig : option string)
  | OnBind (serviceInterface : bool)
  | OnUnbind (serviceInterface : bool)
  | OnRebind (serviceInterface : bool)
  | OnRevoke
  | HandleMessage (replyTo : Messenger) (action : Action)
  | NetworkChanged
  | Resume (j : Job) (outcome : option Throwable)
  | StateReported (state : ProtocolState)
  | PermissionChanged (granted : bool)
  | ChannelDied (m : Messenger)
  | Elapsed (ms : Z).

Definition handler (ev : Event) : M unit :=
  match ev with
  | OnStartCommand lastConfig vpnConfig => onStartCommand lastConfig vpnConfig
  | OnBind i => onBind i
  | OnUnbind i => onUnbind i
  | OnRebind i => onRebind i
  | OnRevoke => onRevoke
  | HandleMessage replyTo action => handleMessage replyTo action
  | NetworkChanged => reconnect       (* NetworkState(this, ::reconnect) *)
  | Resume j outcome => resume j outcome
  | StateReported state =>
      (* no transition returns to UNKNOWN *)
      if decide (state = UNKNOWN) then ret tt else setProtocolState state
  | PermissionChanged granted => modify (set_vpnPermission granted)
  | ChannelDied m => modify (λ s, set_deadChannels ({[m]} ∪ deadChannels s) s)
  | Elapsed ms => modify (λ s, set_clock (clock s + Z.max 0 ms) s)
  end.

(** An exception nobody catches ends the process: nothing happens to a
    service that has crashed. *)
Definition exec (ev : Event) (s : Service) : Service :=
  match uncaught s with
  | Some _ => s
  | None =>
      match handler ev s with
      | (Ok _, s') => s'
      | (Throw e, s') => set_uncaught (Some e) s'
      end
  end.

Definition run (evs : list Event) (s : Service) : Service :=
  foldl (λ s ev, exec ev s) s evs.

(** The service once [onCreate] has returned, with the preferences it
    finds and the permission as it stands. *)
Definition created (stored : gmap string PrefValue) (granted : bool) : Service :=
  (loadServerData
     {| isServiceBound := false;
        protocol := None;
        protocolCache := ∅;
        protocolState := UNKNOWN;
        serverName := None;
        serverIndex := -1;
        connectionJob := None;
        disconnectionJob := None;
        statisticsSendingJob := None;
        clientMessengers := ∅;
        saveLogs := false;
        prefs := stored;
        networkListener := false;
        vpnPermission := granted;
        deadChannels := ∅;
        clock := 0;
        coroutines := [];
        effects := [];
        uncaught := None |}).2.

Definition reachable (s : Service) : Prop :=
  ∃ stored granted evs, s = run evs (created stored granted).

End AmneziaVpnService.

(** * Properties *)

(** ** Reading the log of effects *)

Definition isError (e : Effect) : bool :=
  match e with
  | Sent _ (ERROR _) => true
  | _ => false
  end.

Definition isStatistics (e : Effect) : bool :=
  match e with
  | Sent _ STATISTICS_UPDATE => true
  | _ => false
  end.

(** A call into a protocol implementation or into the registry's
    constructor. *)
Definition isProtocolCall (e : Effect) : bool :=
  match e with
  | Initialize _ | StartVpn _ | StopVpn _ | ReconnectVpn _ => true
  | _ => false
  end.

(** The channels a broadcast reaches. *)
Definition liveClients (s : Service) : gmap Messenger IpcMessenger :=
  filter (λ kv, kv.1 ∉ deadChannels s) (clientMessengers s).

Definition broadcast (s : Service) (event : ServiceEvent) : list Effect :=
  (λ kv, Sent kv.1 event) <$> map_to_list (liveClients s).

(** The names [getProtocol] knows. *)
Definition supported (protocolName : string) : Prop :=
  protocolName = "wireguard" ∨ protocolName = "awg"
  ∨ protocolName = "openvpn" ∨ protocolName = "cloak".

(** A protocol implementation is in the middle of [startVpn], or of
    [stopVpn]. *)
Definition midStart (s : Service) (p : Protocol) : bool :=
  existsb (λ c, match c with
                | ConnectionJob _ (CStarting q) => bool_decide (p = q)
                | _ => false
                end) (coroutines s).

Definition midStop (s : Service) (p : Protocol) : bool :=
  existsb (λ c, match c with
                | DisconnectionJob (DStopping q) => bool_decide (p = q)
                | _ => false
                end) (coroutines s).

(** [config]'s descriptive fields have the types [saveServerData] casts
    them to. *)
Definition descriptive (config : JSONObject) : bool :=
  match config !! "description" with
  | None | Some (JString _) => true
  | _ => false
  end
  && match config !! "serverIndex" with
     | None | Some (JInt _) => true
     | _ => false
     end.

(** ** What holds of the service at all times *)

Record invariant (s : Service) : Prop := {
  listener_bound :
    protocolState s = CONNECTED → networkListener s = true;
  listener_unbound :
    protocolState s = UNKNOWN ∨ protocolState s = DISCONNECTED
    ∨ protocolState s = DISCONNECTING →
    networkListener s = false;
  statistics_off : statisticsSendingJob s = None;
  statistics_silent : Forall (λ e, isStatistics e = false) (effects s);
  cache_supported :
    ∀ protocolName p, protocolCache s !! protocolName = Some p →
                      supported protocolName
}.

(** [c] keeps [I], whether it returns or throws. *)
Definition preserves {A} (I : Service → Prop) (c : M A) : Prop :=
  ∀ s, I s → I (c s).2.

(** A write that leaves alone what [invariant] reads. *)
Definition frame (f : Service → Service) : Prop :=
  ∀ s, protocolState (f s) = protocolState s
       ∧ networkListener (f s) = networkListener s
       ∧ statisticsSendingJob (f s) = statisticsSendingJob s
       ∧ effects (f s) = effects s
       ∧ protocolCache (f s) = protocolCache s.

(** ** What a change of the protocol state does

    The collector's effect on the service, written out: [transition] is
    what it lets out, [listening] is the network listener afterwards, and
    [transitioned] is the service after [protocolState.value = state]
    has changed the value. *)

Definition transition (state : ProtocolState) (s : Service) : list Effect :=
  match state with
  | CONNECTED => [BindNetworkListener]
  | DISCONNECTED =>
      UnbindNetworkListener
      :: (if isServiceBound s then []
          else [KillProcessAt (clock s + STOP_SERVICE_TIMEOUT); StopSelf])
  | DISCONNECTING => [UnbindNetworkListener]
  | RECONNECTING | CONNECTING | UNKNOWN => []
  end
  ++ broadcast s (STATUS_CHANGED state)
  ++ [StoreVpnState state (serverName s) (serverIndex s)].

Definition listening (state : ProtocolState) (s : Service) : bool :=
  match state with
  | CONNECTED => true
  | DISCONNECTED | DISCONNECTING => false
  | RECONNECTING | CONNECTING | UNKNOWN => networkListener s
  end.

Definition transitioned (state : ProtocolState) (s : Service) : Service :=
  set_effects (effects s ++ transition state s)
    (set_clientMessengers (liveClients s)
       (set_networkListener (listening state s)
          (set_protocolState state s))).

(** The descriptive fields of a configuration, and the service after
    [saveServerData] has stored a name and an index. *)
Definition description (config : JSONObject) : option string :=
  match config !! "description" with
  | Some (JString v) => Some v
  | _ => None
  end.

Definition index (config : JSONObject) : Z :=
  match config !! "serverIndex" with
  | Some (JInt z) => z
  | _ => -1
  end.

Definition saved (n : option string) (i : Z) (s : Service) : Service :=
  set_prefs
    (<[PREFS_SERVER_INDEX := PInt i]>
       match n with
       | Some v => <[PREFS_SERVER_NAME := PString v]> (prefs s)
       | None => delete PREFS_SERVER_NAME (prefs s)
       end)
    (set_serverIndex i (set_serverName n s)).

(** The service after [protocolState.value = DISCONNECTED]. *)
Definition disconnected (s : Service) : Service :=
  if decide (protocolState s = DISCONNECTED) then s
  else transitioned DISCONNECTED s.

(** The exception classes [connectionExceptionHandler] has a message
    for. *)
Definition classified (c : ThrowableClass) : bool :=
  match c with
  | IllegalArgumentException | VpnStartException | VpnException
  | JSONException | BadConfigException | LoadLibraryException => true
  | ClassCastException | OtherThrowable => false
  end.

(** ** Configurations and runs for the examples *)

Definition wireguardConfig : JSONObject :=
  list_to_map [("protocol", JString "wireguard");
               ("description", JString "Home");
               ("serverIndex", JInt 2)].

Definition openvpnConfig : JSONObject :=
  list_to_map [("protocol", JString "openvpn");
               ("description", JString "Office");
               ("serverIndex", JInt 5)].

Definition unknownConfig : JSONObject :=
  list_to_map [("protocol", JString "unknown")].

(** Stands in for org.json in the examples: three texts are documents,
    every other text is malformed. *)
Definition exampleJSON (text : string) : string + JSONObject :=
  if decide (text = "wireguard.json") then inr wireguardConfig
  else if decide (text = "openvpn.json") then inr openvpnConfig
  else if decide (text = "unknown.json") then inr unknownConfig
  else inl "Value cannot be converted to JSONObject".

(** A service that has just been created, with nothing stored and the
    VPN permission granted. *)
Definition fresh : Service := created ∅ true.

(** A client asks for a connection and the coroutine runs up to the call
    of [startVpn]. *)
Definition starting : list Event :=
  [ HandleMessage 1%nat (CONNECT (Some "wireguard.json"));
    Resume 0 None;      (* disconnectionJob?.join() *)
    Resume 0 None;      (* disconnectionJob = null *)
    Resume 0 None;      (* protocol = getProtocol("wireguard") *)
    Resume 0 None ].    (* startVpn is called *)

(** [startVpn] returns and the protocol reports Connected. *)
Definition connecting : list Event :=
  starting ++ [ Resume 0 None; StateReported CONNECTED ].

(** A connect, a disconnect and a second connect that overlap. *)
Definition overlapping : list Event :=
  [ HandleMessage 1%nat (CONNECT (Some "wireguard.json"));
    Resume 0 None;      (* 0: disconnectionJob?.join() finds null *)
    HandleMessage 1%nat DISCONNECT;
    Resume 1 None;      (* 1: connectionJob?.join() waits for 0 *)
    Resume 0 None;      (* 0: disconnectionJob = null *)
    Resume 0 None;      (* 0: protocol = getProtocol("wireguard") *)
    Resume 0 None;      (* 0: startVpn is called *)
    HandleMessage 1%nat (CONNECT (Some "openvpn.json"));
    Resume 2 None;      (* 2: disconnectionJob?.join() finds null *)
    Resume 2 None;      (* 2: disconnectionJob = null *)
    Resume 0 None;      (* 0: startVpn returns *)
    Resume 1 None;      (* 1: the join returns *)
    Resume 1 None;      (* 1: connectionJob = null *)
    Resume 1 None;      (* 1: stopVpn of wireguard is called *)
    Resume 2 None;      (* 2: protocol = getProtocol("openvpn") *)
    Resume 2 None ].    (* 2: startVpn of openvpn is called *)

(** An exception of a class the handler has no message for. *)
Definition unexpected : Throwable :=
  {| class := OtherThrowable;
     message := Some "unexpected";
     causeMessage := None |}.

(** A disconnect follows; its coroutine calls [stopVpn], which comes
    back, and clears the active protocol. *)
Definition stopping : list Event :=
  connecting
  ++ [ HandleMessage 1%nat DISCONNECT;
       Resume 1 None;   (* connectionJob?.join() *)
       Resume 1 None;   (* the join returns *)
       Resume 1 None;   (* connectionJob = null *)
       Resume 1 None;   (* stopVpn is called *)
       Resume 1 None;   (* stopVpn returns *)
       Resume 1 None ]. (* protocol = null; the wait begins *)

(** The protocol never reports Disconnected. *)
Definition timedOut : list Event := stopping ++ [ Elapsed 5000 ].

(** A disconnect comes right behind a connect, before a worker thread
    has run the first statement of either coroutine. *)
Definition hasty : list Event :=
  [ HandleMessage 1%nat (CONNECT (Some "wireguard.json"));
    HandleMessage 1%nat DISCONNECT;
    Resume 0 None;      (* 0: disconnectionJob?.join() waits for 1 *)
    Resume 1 None ].    (* 1: connectionJob?.join() waits for 0 *)

(** ** One connect followed by one disconnect

    What is needed to follow the two coroutines of a connect and of the
    disconnect that comes after it. *)

(** What happens around the two requests: the coroutines run, the
    protocol reports, time passes, the surroundings change. *)
Definition isBackground (ev : Event) : bool :=
  match ev with
  | Resume _ _ | StateReported _ | PermissionChanged _ | ChannelDied _
  | Elapsed _ => true
  | _ => false
  end.

Definition isConnection (c : Coroutine) : bool :=
  match c with
  | ConnectionJob _ _ | Completed => true
  | _ => false
  end.

Definition isDisconnection (c : Coroutine) : bool :=
  match c with
  | DisconnectionJob _ | Completed => true
  | _ => false
  end.

(** The table of coroutines is [jobs], and [P] holds of
    [connectionJob]. *)
Definition steady (jobs : list Coroutine) (P : option Job → Prop)
    (s : Service) : Prop :=
  statisticsSendingJob s = None ∧ coroutines s = jobs ∧ P (connectionJob s).

(** After the connect: there is at most the coroutine of the connect,
    and [connectionJob] holds it. *)
Definition connectPending (s : Service) : Prop :=
  statisticsSendingJob s = None
  ∧ (coroutines s = []
     ∨ ∃ c0, coroutines s = [c0] ∧ isConnection c0 = true
             ∧ connectionJob s = Some 0%nat).

(** After the disconnect: its coroutine is past the join only if the
    coroutine of the connect has completed. *)
Definition disconnectPending (s : Service) : Prop :=
  statisticsSendingJob s = None
  ∧ ((length (coroutines s) ≤ 1)%nat
     ∨ ∃ c0 c1, coroutines s = [c0; c1]
                ∧ isConnection c0 = true ∧ isDisconnection c1 = true
                ∧ (c0 = Completed
                   ∨ c1 = DisconnectionJob DJoin ∧ connectionJob s = Some 0%nat
                   ∨ c1 = DisconnectionJob (DJoining 0))).

(** [c] returns only values of which [Q] holds. *)
Definition returns {A} (Q : A → Prop) (c : M A) : Prop :=
  ∀ s, match (c s).1 with
       | Ok a => Q a
       | Throw _ => True
       end.

(** From a service of which [I] holds, [c] ends in one of which [J]
    holds, whether it returns or throws. *)
Definition leads {A} (I J : Service → Prop) (c : M A) : Prop :=
  ∀ s, I s → J (c s).2.

(** ** Further readings of the log and of the registry *)

Definition isStatusChanged (e : Effect) : bool :=
  match e with
  | Sent _ (STATUS_CHANGED _) => true
  | _ => false
  end.

(** The request to stop the service, or the kill that backs it up. *)
Definition isStop (e : Effect) : bool :=
  match e with
  | StopSelf | KillProcessAt _ => true
  | _ => false
  end.

(** The name under which [getProtocol] constructs an implementation. *)
Definition nameOf (p : Protocol) : string :=
  match p with
  | Wireguard => "wireguard"
  | Awg => "awg"
  | OpenVpn => "openvpn"
  | Cloak => "cloak"
  end.

(** The registry holds every implementation under its own name, and the
    active protocol is one of the implementations it holds. *)
Definition coherent (s : Service) : Prop :=
  (∀ protocolName p, protocolCache s !! protocolName = Some p →
                     protocolName = nameOf p)
  ∧ (∀ p, protocol s = Some p → protocolCache s !! nameOf p = Some p).

(** The last state handed to [VpnStateStore]. *)
Fixpoint lastStored (l : list Effect) : option ProtocolState :=
  match l with
  | [] => None
  | e :: rest =>
      match lastStored rest with
      | Some state => Some state
      | None =>
          match e with
          | StoreVpnState state _ _ => Some state
          | _ => None
          end
      end
  end.

(** The connection coroutine [a] and the disconnection coroutine [b]
    have each joined the other. *)
Definition deadlocked (a b : Job) (config : JSONObject) (s : Service) : Prop :=
  statisticsSendingJob s = None
  ∧ coroutines s !! a = Some (ConnectionJob config (CJoining b))
  ∧ coroutines s !! b = Some (DisconnectionJob (DJoining a)).

(** The preferences hold [v] under [key]. *)
Definition kept (key : string) (v : option PrefValue) (s : Service) : Prop :=
  prefs s !! key = v.

(** The configuration text an event asks to connect with. *)
Definition configOf (ev : Event) : option string :=
  match ev with
  | HandleMessage _ (CONNECT (Some text)) => Some text
  | OnStartCommand false (Some text) => Some text
  | _ => None
  end.

(** The text of the latest event that asks to connect with one. *)
Fixpoint lastConfig (evs : list Event) : option string :=
  match evs with
  | [] => None
  | ev :: rest =>
      match lastConfig rest with
      | Some text => Some text
      | None => configOf ev
      end
  end.

(** [VpnStateStore] holds the state the service is in; before the first
    change of the state it holds nothing. *)
Definition mirrored (s : Service) : Prop :=
  statisticsSendingJob s = None
  ∧ match lastStored (effects s) with
    | Some state => state = protocolState s
    | None => protocolState s = UNKNOWN
    end.

(** ** More configurations for the examples *)

(** A configuration without a protocol entry, and one whose description
    is a number. *)
Definition namelessConfig : JSONObject :=
  list_to_map [("description", JString "Nameless")].

Definition mistypedConfig : JSONObject :=
  list_to_map [("protocol", JString "wireguard");
               ("description", JInt 7)].

(** Stands in for org.json in the examples: two more texts are
    documents. *)
Definition moreJSON (text : string) : string + JSONObject :=
  if decide (text = "nameless.json") then inr namelessConfig
  else if decide (text = "mistyped.json") then inr mistypedConfig
  else exampleJSON text.

(** A text of U+00A0, U+3000 and a space, and a configuration that has
    it as its description. *)
Definition noBreakSpaces : string :=
  String (ascii_of_nat 194) (String (ascii_of_nat 160)
    (String (ascii_of_nat 227) (String (ascii_of_nat 128)
       (String (ascii_of_nat 128) " ")))).


(** ** Properties a method keeps *)

Section Preservation.

Context (I : Service → Prop).

Lemma preserves_ret {A} (a : A) : preserves I (ret a).
Proof. by intros s. Qed.

Lemma preserves_throw {A} e : preserves I (@throw A e).
Proof. by intros s. Qed.

Lemma preserves_get : preserves I get.
Proof. by intros s. Qed.

Lemma preserves_gets {A} (f : Service → A) : preserves I (gets f).
Proof. by intros s. Qed.

Lemma preserves_bind {A B} (c : M A) (k : A → M B) :
  preserves I c → (∀ a, preserves I (k a)) → preserves I (bind c k).
Proof.
  intros Hc Hk s Hs. unfold bind.
  specialize (Hc s Hs). destruct (c s) as [[a|e] s']; simpl in *.
  - by apply Hk.
  - done.
Qed.

Lemma preserves_when (b : bool) (c : M unit) :
  preserves I c → preserves I (when b c).
Proof. intros Hc. destruct b; [done | apply preserves_ret]. Qed.

End Preservation.

Lemma preserves_frame (f : Service → Service) :
  frame f → preserves invariant (modify f).
Proof.
  intros Hf s [H1 H2 H3 H4 H5]. simpl.
  destruct (Hf s) as (E1 & E2 & E3 & E4 & E5).
  split; rewrite ?E1, ?E2, ?E3, ?E4, ?E5; done.
Qed.

(** Appending effects that are no statistics. *)
Lemma preserves_effects (f : Service → list Effect) :
  (∀ s, Forall (λ e, isStatistics e = false) (f s)) →
  preserves invariant (modify (λ s, set_effects (effects s ++ f s) s)).
Proof.
  intros Hf s [H1 H2 H3 H4 H5]. split; simpl; try done.
  apply Forall_app. split; [done | apply Hf].
Qed.

Create HintDb preserve.

#[local] Hint Resolve preserves_ret preserves_throw preserves_get
  preserves_gets preserves_when : preserve.

(** Goes through the body of a method, statement by statement. *)
Ltac preserve :=
  repeat first
    [ solve [eauto with preserve]
    | apply preserves_bind; [| intros ?]
    | apply preserves_when
    | apply preserves_frame; intros ?; by repeat split
    | match goal with
      | |- preserves _ (match ?x with _ => _ end) => destruct x
      | |- preserves _ (if ?x then _ else _) => destruct x
      end ].

Lemma preserves_emit e : isStatistics e = false → preserves invariant (emit e).
Proof.
  intros He. apply (preserves_effects (λ _, [e])).
  intros _. by constructor.
Qed.

Lemma preserves_send event :
  event ≠ STATISTICS_UPDATE → preserves invariant (send event).
Proof.
  intros Hev s [H1 H2 H3 H4 H5]. split; simpl; try done.
  apply Forall_app. split; [done |].
  apply Forall_fmap, Forall_forall. intros [m d] _. simpl.
  by destruct event.
Qed.

Section Properties.

Context (JSONObject_new : string → string + JSONObject).

(** ** Every method keeps the invariant *)

Lemma preserves_Prefs_save_String key value :
  preserves invariant (Prefs_save_String key value).
Proof. unfold Prefs_save_String. preserve. Qed.

Lemma preserves_Prefs_save_Int key value :
  preserves invariant (Prefs_save_Int key value).
Proof. unfold Prefs_save_Int. preserve. Qed.

Lemma preserves_launch c : preserves invariant (launch c).
Proof. unfold launch. preserve. Qed.

Lemma preserves_cancel j : preserves invariant (cancel j).
Proof. unfold cancel. preserve. Qed.

#[local] Hint Resolve preserves_Prefs_save_String preserves_Prefs_save_Int
  preserves_launch preserves_cancel : preserve.

Lemma preserves_onError msg : preserves invariant (onError msg).
Proof. by apply preserves_send. Qed.

Lemma preserves_stopSendingStatistics :
  preserves invariant stopSendingStatistics.
Proof. unfold stopSendingStatistics. preserve. Qed.

Lemma preserves_stopService : preserves invariant stopService.
Proof. unfold stopService. preserve; by apply preserves_emit. Qed.

#[local] Hint Resolve preserves_onError preserves_stopSendingStatistics
  preserves_stopService : preserve.

Lemma preserves_setProtocolState state :
  state ≠ UNKNOWN → preserves invariant (setProtocolState state).
Proof.
  intros Hstate s Hs. unfold setProtocolState, bind, get.
  destruct (decide (protocolState s = state)) as [|Hne]; [done |].
  destruct Hs as [H1 H2 H3 H4 H5].
  assert (Hsend : ∀ t, Forall (λ e, isStatistics e = false)
                         (broadcast t (STATUS_CHANGED state))).
  { intros t. apply Forall_fmap, Forall_forall. by intros [m d] _. }
  destruct state; try done;
    unfold protocolStateHandler, stopSendingStatistics, stopService,
      launchSendingStatistics, bindNetworkListener, unbindNetworkListener,
      send, emit, when, bind, modify, get, ret;
    cbn; rewrite ?H3; cbn;
    try destruct (isActivityConnected _); try destruct (isServiceBound s);
    cbn; split; cbn; try done; try (by intros [?|[?|?]]);
    rewrite ?Forall_app; repeat split; try done;
    try apply (Hsend s); by repeat constructor.
Qed.

#[local] Hint Resolve preserves_setProtocolState : preserve.

Lemma preserves_parseConfigToJson vpnConfig :
  preserves invariant (parseConfigToJson JSONObject_new vpnConfig).
Proof. unfold parseConfigToJson. preserve. Qed.

Lemma preserves_saveServerData config :
  preserves invariant (saveServerData config).
Proof. unfold saveServerData, asString, asInt. preserve. Qed.

Lemma preserves_checkPermission : preserves invariant checkPermission.
Proof. unfold checkPermission. preserve; by apply preserves_emit. Qed.

#[local] Hint Resolve preserves_parseConfigToJson preserves_saveServerData
  preserves_checkPermission : preserve.

Lemma preserves_connectToVpn vpnConfig :
  preserves invariant (connectToVpn JSONObject_new vpnConfig).
Proof. unfold connectToVpn. preserve. Qed.

#[local] Hint Resolve preserves_connectToVpn : preserve.

Lemma preserves_connect vpnConfig :
  preserves invariant (connect JSONObject_new vpnConfig).
Proof. unfold connect, Prefs_load_String. preserve. Qed.

Lemma preserves_disconnect : preserves invariant disconnect.
Proof. unfold disconnect. preserve. Qed.

Lemma preserves_reconnect : preserves invariant reconnect.
Proof. unfold reconnect. preserve. Qed.

#[local] Hint Resolve preserves_connect preserves_disconnect
  preserves_reconnect : preserve.

Lemma preserves_getProtocol protocolName :
  preserves invariant (getProtocol protocolName).
Proof.
  intros s Hs. unfold getProtocol, bind, get.
  destruct (protocolCache s !! protocolName) eqn:Hcache; [done |].
  destruct Hs as [H1 H2 H3 H4 H5].
  assert (Hins : ∀ p, supported protocolName →
            invariant (set_protocolCache (<[protocolName := p]> (protocolCache s))
                         (set_effects (effects s ++ [Initialize p]) s))).
  { intros p Hp. split; cbn; try done.
    - apply Forall_app. split; [done | by repeat constructor].
    - intros n q. rewrite lookup_insert. case_decide; [by subst | apply H5]. }
  unfold supported in Hins.
  repeat case_decide; cbn; try (apply Hins; tauto).
  by split.
Qed.

Lemma preserves_connectionExceptionHandler e :
  preserves invariant (connectionExceptionHandler e).
Proof. unfold connectionExceptionHandler. preserve. Qed.

#[local] Hint Resolve preserves_getProtocol
  preserves_connectionExceptionHandler : preserve.

Lemma preserves_statement c outcome :
  preserves invariant (statement c outcome).
Proof.
  unfold statement, connectionStatement, disconnectionStatement,
    reconnectionStatement, getString.
  preserve; by apply preserves_emit.
Qed.

Lemma preserves_resume j outcome : preserves invariant (resume j outcome).
Proof.
  intros s Hs. unfold resume, bind, get.
  destruct (coroutines s !! j) as [c|]; [| done].
  pose proof (preserves_statement c outcome s Hs) as Hc.
  destruct (statement c outcome s) as [[c'|e] s']; cbn in Hc.
  - by apply (preserves_frame (set_coroutines _)).
  - apply preserves_connectionExceptionHandler.
    by apply (preserves_frame (set_coroutines _)).
Qed.

Lemma preserves_handleMessage replyTo action :
  preserves invariant (handleMessage JSONObject_new replyTo action).
Proof.
  unfold handleMessage, launchSendingStatistics. preserve.
  by apply preserves_emit.
Qed.

#[local] Hint Resolve preserves_resume preserves_handleMessage : preserve.

Lemma preserves_handler ev : preserves invariant (handler JSONObject_new ev).
Proof.
  unfold handler, onStartCommand, onBind, onUnbind, onRebind, onRevoke.
  preserve. by apply preserves_emit.
Qed.

Lemma invariant_exec ev s :
  invariant s → invariant (exec JSONObject_new ev s).
Proof.
  intros Hs. unfold exec. destruct (uncaught s); [done |].
  pose proof (preserves_handler ev s Hs) as H.
  destruct (handler JSONObject_new ev s) as [[[]|e] s']; cbn in H; [done |].
  by apply (preserves_frame (set_uncaught _)).
Qed.

Lemma invariant_run evs s :
  invariant s → invariant (run JSONObject_new evs s).
Proof.
  revert s. induction evs as [|ev evs IH]; intros s Hs; [done |].
  apply IH, invariant_exec, Hs.
Qed.

Lemma invariant_created stored granted : invariant (created stored granted).
Proof.
  unfold created, loadServerData, Prefs_load_String, Prefs_load_Int, bind,
    gets, modify, get, ret.
  cbn. destruct (isBlank _); cbn; split; cbn; try done;
    by intros [?|[?|?]].
Qed.

Lemma invariant_reachable s : reachable JSONObject_new s → invariant s.
Proof.
  intros (stored & granted & evs & ->).
  apply invariant_run, invariant_created.
Qed.

(** ** Summaries of the methods *)

(** *** The protocol state *)

(** Reads the fields of a service that is given by writes to another. *)
Ltac fields :=
  cbn [ isServiceBound protocol protocolCache protocolState serverName
    serverIndex connectionJob disconnectionJob statisticsSendingJob
    clientMessengers saveLogs prefs networkListener vpnPermission deadChannels
    clock coroutines effects uncaught set_isServiceBound set_protocol
    set_protocolCache set_protocolState set_serverName set_serverIndex
    set_connectionJob set_disconnectionJob set_statisticsSendingJob
    set_clientMessengers set_saveLogs set_prefs set_networkListener
    set_vpnPermission set_deadChannels set_clock set_coroutines set_effects
    set_uncaught transitioned saved fst snd
    negb andb orb ] in *.

(** Two services with the same fields are the same. *)
Lemma Service_eq (s t : Service) :
  isServiceBound s = isServiceBound t →
  protocol s = protocol t →
  protocolCache s = protocolCache t →
  protocolState s = protocolState t →
  serverName s = serverName t →
  serverIndex s = serverIndex t →
  connectionJob s = connectionJob t →
  disconnectionJob s = disconnectionJob t →
  statisticsSendingJob s = statisticsSendingJob t →
  clientMessengers s = clientMessengers t →
  saveLogs s = saveLogs t →
  prefs s = prefs t →
  networkListener s = networkListener t →
  vpnPermission s = vpnPermission t →
  deadChannels s = deadChannels t →
  clock s = clock t →
  coroutines s = coroutines t →
  effects s = effects t →
  uncaught s = uncaught t →
  s = t.
Proof. destruct s, t. cbn. intros. by subst. Qed.

Ltac same_service := apply Service_eq; fields; try reflexivity.

Lemma setProtocolState_same state s :
  protocolState s = state → setProtocolState state s = (Ok tt, s).
Proof.
  intros H. unfold setProtocolState, bind, get.
  by destruct (decide (protocolState s = state)).
Qed.

Lemma setProtocolState_changed state s :
  protocolState s ≠ state → statisticsSendingJob s = None →
  setProtocolState state s = (Ok tt, transitioned state s).
Proof.
  intros Hne Hstat. unfold setProtocolState, bind, get.
  destruct (decide (protocolState s = state)); [done |].
  unfold transitioned, transition, listening, liveClients, broadcast.
  destruct state;
    unfold protocolStateHandler, stopSendingStatistics, stopService,
      launchSendingStatistics, bindNetworkListener, unbindNetworkListener,
      send, emit, when, bind, modify, get, ret; fields; rewrite ?Hstat;
    fields; try destruct (isActivityConnected _);
    try destruct (isServiceBound s);
    fields; f_equal; same_service; by rewrite <- ?app_assoc.
Qed.

(** A change of state lets out no ERROR and no call into a protocol. *)
Lemma transition_quiet state s :
  Forall (λ e, isError e = false ∧ isProtocolCall e = false)
    (transition state s).
Proof.
  unfold transition. rewrite !Forall_app. repeat split.
  - destruct state; try destruct (isServiceBound s); by repeat constructor.
  - apply Forall_fmap, Forall_forall. by intros [m d] _.
  - by repeat constructor.
Qed.

(** *** Broadcasts *)

Lemma filter_none {A} (f : A → bool) l :
  Forall (λ x, f x = false) l → List.filter f l = [].
Proof.
  induction 1 as [|x l Hx _ IH]; [done |]. cbn. by rewrite Hx.
Qed.

Lemma filter_all {A} (f : A → bool) l :
  Forall (λ x, f x = true) l → List.filter f l = l.
Proof.
  induction 1 as [|x l Hx _ IH]; [done |]. cbn. by rewrite Hx, IH.
Qed.

Lemma errors_of_transition state s :
  List.filter isError (transition state s) = [].
Proof.
  apply filter_none. eapply Forall_impl; [apply transition_quiet |].
  by intros ? [].
Qed.

Lemma errors_of_broadcast s msg :
  List.filter isError (broadcast s (ERROR msg)) = broadcast s (ERROR msg).
Proof.
  apply filter_all, Forall_fmap, Forall_forall. by intros [m d] _.
Qed.

Lemma broadcast_quiet s msg :
  Forall (λ e, isProtocolCall e = false) (broadcast s (ERROR msg)).
Proof. apply Forall_fmap, Forall_forall. by intros [m d] _. Qed.

(** A broadcast reaches every live channel, once. *)
Lemma broadcast_once s event :
  NoDup (broadcast s event)
  ∧ ∀ m, Sent m event ∈ broadcast s event ↔ is_Some (liveClients s !! m).
Proof.
  unfold broadcast. split.
  - change (λ kv : Messenger * IpcMessenger, Sent kv.1 event)
      with ((λ m, Sent m event) ∘ (fst : Messenger * IpcMessenger → Messenger)).
    rewrite list_fmap_compose. apply NoDup_fmap_2.
    + by intros m1 m2 [=].
    + apply NoDup_fst_map_to_list.
  - intros m. rewrite list_elem_of_fmap. split.
    + intros ([m' d] & [= ->] & Hin).
      apply elem_of_map_to_list in Hin. eauto.
    + intros [d Hd]. exists (m, d). split; [done |].
      by apply elem_of_map_to_list.
Qed.

(** A second broadcast finds the channels the first one kept. *)
Lemma liveClients_pruned s t :
  clientMessengers t = liveClients s → deadChannels t = deadChannels s →
  liveClients t = liveClients s.
Proof.
  intros H1 H2. unfold liveClients at 1. rewrite H1, H2.
  unfold liveClients. rewrite map_filter_filter.
  apply map_filter_ext. intros i x _. cbn. tauto.
Qed.

Lemma send_spec event s :
  send event s
  = (Ok tt, set_effects (effects s ++ broadcast s event)
              (set_clientMessengers (liveClients s) s)).
Proof. reflexivity. Qed.

(** *** Failures *)

Lemma setProtocolState_DISCONNECTED s :
  statisticsSendingJob s = None →
  setProtocolState DISCONNECTED s = (Ok tt, disconnected s).
Proof.
  intros Hstat. unfold disconnected.
  destruct (decide (protocolState s = DISCONNECTED)).
  - by apply setProtocolState_same.
  - by apply setProtocolState_changed.
Qed.

Lemma disconnected_spec s :
  protocolState (disconnected s) = DISCONNECTED
  ∧ liveClients (disconnected s) = liveClients s
  ∧ protocolCache (disconnected s) = protocolCache s
  ∧ coroutines (disconnected s) = coroutines s
  ∧ uncaught (disconnected s) = uncaught s
  ∧ ∃ delta, effects (disconnected s) = effects s ++ delta
             ∧ List.filter isError delta = []
             ∧ Forall (λ e, isProtocolCall e = false) delta.
Proof.
  unfold disconnected.
  destruct (decide (protocolState s = DISCONNECTED)).
  - repeat split; try done. exists []. by rewrite app_nil_r.
  - repeat split; try done.
    + by apply liveClients_pruned.
    + exists (transition DISCONNECTED s). repeat split.
      * apply errors_of_transition.
      * eapply Forall_impl; [apply transition_quiet | by intros ? []].
Qed.

Lemma broadcast_disconnected event s :
  broadcast (set_protocol None (disconnected s)) event = broadcast s event.
Proof.
  unfold broadcast.
  change (liveClients (set_protocol None (disconnected s)))
    with (liveClients (disconnected s)).
  by destruct (disconnected_spec s) as (_ & -> & _).
Qed.

(** The handler of a failed coroutine, summed up: the state is
    Disconnected, the active protocol is cleared, and either one ERROR
    goes to every client, or the exception goes on. *)
Lemma connectionExceptionHandler_spec e s :
  statisticsSendingJob s = None →
  ∃ delta,
    let r := connectionExceptionHandler e s in
    protocolState r.2 = DISCONNECTED
    ∧ protocol r.2 = None
    ∧ protocolCache r.2 = protocolCache s
    ∧ coroutines r.2 = coroutines s
    ∧ uncaught r.2 = uncaught s
    ∧ effects r.2 = effects s ++ delta
    ∧ Forall (λ e, isProtocolCall e = false) delta
    ∧ if classified (class e)
      then r.1 = Ok tt
           ∧ ∃ msg, List.filter isError delta = broadcast s (ERROR msg)
                    ∧ (class e = IllegalArgumentException →
                       msg = default (toString e) (message e))
      else r.1 = Throw e ∧ List.filter isError delta = [].
Proof.
  intros Hstat.
  destruct (disconnected_spec s)
    as (Hstate & _ & Hcache & Hjobs & Hlive & delta & Heffects & Herrors & Hquiet).
  unfold connectionExceptionHandler, bind.
  rewrite setProtocolState_DISCONNECTED by done.
  unfold modify, onError, throw.
  destruct e as [c m cm]. cbn [class message causeMessage].
  destruct c; cbn [classified]; rewrite ?send_spec; fields;
    rewrite ?broadcast_disconnected, Heffects, <- ?app_assoc;
    eexists; (repeat split; try done);
    rewrite ?Forall_app; try (split; [done | apply broadcast_quiet]);
    try done;
    eexists; rewrite List.filter_app, Herrors, errors_of_broadcast;
    by split.
Qed.

(** *** Connecting *)

Lemma saveServerData_None s :
  saveServerData None s = (Ok tt, saved None (-1) s).
Proof. reflexivity. Qed.

Lemma saveServerData_Some config s :
  descriptive config = true →
  saveServerData (Some config) s
  = (Ok tt, saved (description config) (index config) s).
Proof.
  unfold descriptive, saveServerData, description, index, opt.
  cbn [mbind option_bind].
  destruct (config !! "description") as [[]|];
    destruct (config !! "serverIndex") as [[]|]; intros H;
    try discriminate H; reflexivity.
Qed.

Lemma stored_descriptive n i (stored : gmap string PrefValue) :
  let stored' :=
    <[PREFS_SERVER_INDEX := PInt i]>
      match n with
      | Some v => <[PREFS_SERVER_NAME := PString v]> stored
      | None => delete PREFS_SERVER_NAME stored
      end in
  stored' !! PREFS_SERVER_NAME = PString <$> n
  ∧ stored' !! PREFS_SERVER_INDEX = Some (PInt i).
Proof.
  split.
  - rewrite lookup_insert_ne by done.
    destruct n; [apply lookup_insert_eq | apply lookup_delete_eq].
  - apply lookup_insert_eq.
Qed.

Lemma guard_closed s :
  protocolState s = CONNECTED ∨ protocolState s = CONNECTING →
  isConnected s || bool_decide (protocolState s = CONNECTING) = true.
Proof. unfold isConnected. intros [-> | ->]; reflexivity. Qed.

Lemma guard_open s :
  protocolState s ≠ CONNECTED → protocolState s ≠ CONNECTING →
  isConnected s || bool_decide (protocolState s = CONNECTING) = false.
Proof.
  intros H1 H2. unfold isConnected. by rewrite !bool_decide_eq_false_2.
Qed.

Lemma connectToVpn_guarded vpnConfig s :
  protocolState s = CONNECTED ∨ protocolState s = CONNECTING →
  connectToVpn JSONObject_new vpnConfig s = (Ok tt, s).
Proof.
  intros H. unfold connectToVpn, bind, get. by rewrite guard_closed.
Qed.

(** A coroutine that has completed does not run again. *)
Lemma exec_resume_completed j outcome s :
  coroutines s !! j = Some Completed →
  exec JSONObject_new (Resume j outcome) s = s.
Proof.
  intros Hj. unfold exec. destruct (uncaught s); [done |].
  unfold handler, resume, bind, get. rewrite Hj.
  unfold statement, ret. same_service. by apply list_insert_id.
Qed.

(** A statement that fails has changed nothing: the lookups of the
    resolve step fail before anything is written, and a call into a
    protocol that fails is the whole of its statement. *)
Lemma statement_throws c outcome s e :
  (statement c outcome s).1 = Throw e → (statement c outcome s).2 = s.
Proof.
  destruct c as [config [] | [] | [] |];
    unfold statement, connectionStatement, disconnectionStatement,
      reconnectionStatement, getString, getProtocol, stopService,
      emit, bind, modify, get, ret, throw;
    repeat (cbv beta iota;
            match goal with
            | |- context [match ?x with _ => _ end] =>
                lazymatch x with
                | context [match _ with _ => _ end] => fail
                | _ => destruct x
                end
            end);
    cbv beta iota; cbn [fst snd]; intros H; try discriminate H; reflexivity.
Qed.

(** A call into a protocol that fails: the statement raises what the
    call has failed with. *)
Lemma failed_call_is_raised c e s :
  (∃ config p, c = ConnectionJob config (CStarting p))
  ∨ (∃ p, c = DisconnectionJob (DStopping p))
  ∨ (∃ p, c = ReconnectionJob (RRunning p)) →
  (statement c (Some e) s).1 = Throw e.
Proof. by intros [(? & ? & ->) | [(? & ->) | (? & ->)]]. Qed.

(** ** The claims *)

(** C2. While the state is Connected or Connecting a connect is
    idempotent: it returns with the service as it was, apart from the
    configuration text kept in the preferences.  The state, the
    coroutines and the log of effects (so also the calls of [startVpn]
    and the broadcasts of a state change) stay as they were. *)
Theorem connect_is_idempotent vpnConfig s :
  protocolState s = CONNECTED ∨ protocolState s = CONNECTING →
  let r := connect JSONObject_new vpnConfig s in
  (∃ stored, r = (Ok tt, set_prefs stored s))
  ∧ protocolState r.2 = protocolState s
  ∧ coroutines r.2 = coroutines s
  ∧ connectionJob r.2 = connectionJob s
  ∧ effects r.2 = effects s.
Proof.
  intros Hstate.
  destruct vpnConfig as [vpnConfig|];
    unfold connect, Prefs_save_String, Prefs_load_String, bind, modify, gets;
    rewrite connectToVpn_guarded by done; fields; repeat split; try done.
  - by eexists.
  - exists (prefs s). f_equal. same_service.
Qed.

(** C3. The coroutine of a disconnect waits for state Disconnected
    until [DISCONNECT_TIMEOUT], 5000 ms, after [stopVpn] has come back.
    While it waits it does nothing, so [stopVpn] is not called again.
    Once the bound has passed without the state being Disconnected it
    goes through [stopService] once, which schedules the kill of the
    process and asks the service to stop, and completes: it never runs
    again. *)
Theorem disconnect_timeout_escalates_once s j outcome :
  uncaught s = None →
  (coroutines s !! j = Some (DisconnectionJob DNull) →
   let s' := exec JSONObject_new (Resume j outcome) s in
   coroutines s'
   = <[j := DisconnectionJob (DAwait (clock s + 5000))]> (coroutines s)
   ∧ effects s' = effects s)
  ∧ ∀ deadline,
      coroutines s !! j = Some (DisconnectionJob (DAwait deadline)) →
      protocolState s ≠ DISCONNECTED →
      let s' := exec JSONObject_new (Resume j outcome) s in
      (clock s < deadline → s' = s)
      ∧ (deadline ≤ clock s →
         effects s'
         = effects s ++ [KillProcessAt (clock s + STOP_SERVICE_TIMEOUT);
                         StopSelf]
         ∧ coroutines s' = <[j := Completed]> (coroutines s)
         ∧ protocolState s' = protocolState s
         ∧ ∀ outcome', exec JSONObject_new (Resume j outcome') s' = s').
Proof.
  intros Hlive. split.
  - intros Hj. unfold exec. rewrite Hlive.
    unfold handler, resume, bind, get. rewrite Hj.
    unfold statement, disconnectionStatement, bind, modify, get, ret.
    by fields.
  - intros deadline Hj Hstate s'. split; intros Hclock.
    + unfold s', exec. rewrite Hlive.
      unfold handler, resume, bind, get. rewrite Hj.
      unfold statement, disconnectionStatement, isDisconnected, bind, get.
      rewrite bool_decide_eq_false_2 by done.
      destruct (Z.leb_spec deadline (clock s)) as [|_]; [lia |].
      unfold ret. same_service. by apply list_insert_id.
    + assert (Hs' : s' = set_coroutines (<[j := Completed]> (coroutines s))
                           (set_effects
                              (effects s
                               ++ [KillProcessAt (clock s + STOP_SERVICE_TIMEOUT);
                                   StopSelf]) s)).
      { unfold s', exec. rewrite Hlive.
        unfold handler, resume, bind, get. rewrite Hj.
        unfold statement, disconnectionStatement, isDisconnected, bind, get.
        rewrite bool_decide_eq_false_2 by done.
        destruct (Z.leb_spec deadline (clock s)) as [_|]; [| lia].
        unfold stopService, emit, bind, modify, get, ret. fields.
        same_service. by rewrite <- app_assoc. }
      clearbody s'. subst s'. fields. repeat split.
      intros outcome'. apply exec_resume_completed. fields.
      apply list_lookup_insert_eq. by eapply lookup_lt_Some.
Qed.

(** C4. When the coroutine of a connect resolves a protocol name that
    is not among the supported ones, the connect fails and the process
    goes on: the coroutine completes without calling into a protocol,
    the state is Disconnected, no protocol is active, and the ERRORs
    among what is let out are one for every registered client whose
    channel is alive, each with the message of the failed lookup. *)
Theorem unsupported_protocol_fails_connect s j config v outcome :
  reachable JSONObject_new s →
  uncaught s = None →
  coroutines s !! j = Some (ConnectionJob config CResolve) →
  config !! "protocol" = Some v →
  ¬ supported (JSON_toString v) →
  let s' := exec JSONObject_new (Resume j outcome) s in
  protocolState s' = DISCONNECTED
  ∧ protocol s' = None
  ∧ uncaught s' = None
  ∧ coroutines s' = <[j := Completed]> (coroutines s)
  ∧ protocolCache s' = protocolCache s
  ∧ ∃ delta,
      effects s' = effects s ++ delta
      ∧ Forall (λ e, isProtocolCall e = false) delta
      ∧ let error := ERROR ("Protocol '" +:+ JSON_toString v
                            +:+ "' not found") in
        List.filter isError delta = broadcast s error
        ∧ NoDup (List.filter isError delta)
        ∧ ∀ m, Sent m error ∈ List.filter isError delta
               ↔ is_Some (liveClients s !! m).
Proof.
  intros Hs Hlive Hj Hv Hname s'. apply invariant_reachable in Hs.
  destruct Hs as [_ _ Hstat _ Hcache].
  unfold s', exec. rewrite Hlive.
  unfold handler, resume, bind, get. rewrite Hj.
  unfold statement, connectionStatement, getString, bind. rewrite Hv.
  unfold ret, getProtocol, bind, get.
  destruct (protocolCache s !! JSON_toString v) as [p|] eqn:Hp;
    [by apply Hcache in Hp |].
  repeat case_decide; try (by destruct Hname; unfold supported; tauto).
  unfold throw.
  set (e := {| class := IllegalArgumentException |}).
  set (t := set_coroutines _ s).
  destruct (connectionExceptionHandler_spec e t Hstat)
    as (delta & E1 & E2 & E3 & E4 & E5 & E6 & E7 & E8 & msg & E9 & E10).
  destruct (connectionExceptionHandler e t) as [[[]|] u]; [| done].
  cbn [fst snd] in *. repeat split; try done.
  - by rewrite E5.
  - exists delta. split; [done |]. split; [done |].
    rewrite E9, E10 by done.
    change (default _ _)
      with ("Protocol '" +:+ JSON_toString v +:+ "' not found").
    change (broadcast t) with (broadcast s).
    split; [done | apply broadcast_once].
Qed.

(** C5, as the code has it.  Whatever a statement of a coroutine of
    the connection fails with (the lookups of the resolve step, or a
    call into the protocol that is under way), the failure is not
    swallowed: the coroutine completes, the state is forced to
    Disconnected and the active protocol is cleared.  A failure of a
    class the handler knows is answered with one ERROR to every live
    client and goes no further, so the process goes on.  A failure of
    any other class goes on unchanged and ends the process, and no
    ERROR is sent for it. *)
Theorem failure_of_connection_task s j c outcome e :
  reachable JSONObject_new s →
  uncaught s = None →
  coroutines s !! j = Some c →
  (statement c outcome s).1 = Throw e →
  let s' := exec JSONObject_new (Resume j outcome) s in
  protocolState s' = DISCONNECTED
  ∧ protocol s' = None
  ∧ coroutines s' = <[j := Completed]> (coroutines s)
  ∧ ∃ delta,
      effects s' = effects s ++ delta
      ∧ if classified (class e)
        then uncaught s' = None
             ∧ ∃ msg, List.filter isError delta = broadcast s (ERROR msg)
                      ∧ NoDup (List.filter isError delta)
                      ∧ ∀ m, Sent m (ERROR msg) ∈ List.filter isError delta
                             ↔ is_Some (liveClients s !! m)
        else uncaught s' = Some e ∧ List.filter isError delta = [].
Proof.
  intros Hs Hlive Hj Hfail s'. apply invariant_reachable in Hs.
  destruct Hs as [_ _ Hstat _ _].
  pose proof (statement_throws c outcome s e Hfail) as Hsame.
  unfold s', exec. rewrite Hlive.
  unfold handler, resume, bind, get. rewrite Hj.
  destruct (statement c outcome s) as [[c'|e'] s1]; cbn [fst snd] in *;
    [discriminate Hfail |].
  injection Hfail as ->. subst s1.
  set (t := set_coroutines _ s).
  destruct (connectionExceptionHandler_spec e t Hstat)
    as (delta & E1 & E2 & _ & E4 & E5 & E6 & _ & E8).
  destruct (connectionExceptionHandler e t) as [r u]. cbn [fst snd] in *.
  destruct (classified (class e)).
  - destruct E8 as (-> & msg & E9 & _).
    do 3 (split; [done |]). exists delta. split; [done |].
    split; [by rewrite E5 |]. exists msg. rewrite E9.
    change (broadcast t) with (broadcast s).
    split; [done | apply broadcast_once].
  - destruct E8 as (-> & E9). fields.
    do 3 (split; [done |]). by exists delta.
Qed.

(** C6, as the code has it.  A connect that gets past the guard writes
    the persisted descriptive fields whether or not the configuration
    parses: a configuration that does not parse resets them to no name
    and index -1, one that parses stores its own description and index;
    a connect stopped by the guard leaves them alone. *)
Theorem descriptive_fields_persisted vpnConfig s :
  reachable JSONObject_new s →
  let s' := (connectToVpn JSONObject_new vpnConfig s).2 in
  (protocolState s = CONNECTED ∨ protocolState s = CONNECTING →
   prefs s' = prefs s)
  ∧ (protocolState s ≠ CONNECTED → protocolState s ≠ CONNECTING →
     (isBlank vpnConfig = true ∨ ∃ m, JSONObject_new vpnConfig = inl m) →
     prefs s' !! PREFS_SERVER_NAME = None
     ∧ prefs s' !! PREFS_SERVER_INDEX = Some (PInt (-1)))
  ∧ (protocolState s ≠ CONNECTED → protocolState s ≠ CONNECTING →
     ∀ config, isBlank vpnConfig = false →
               JSONObject_new vpnConfig = inr config →
               descriptive config = true →
     prefs s' !! PREFS_SERVER_NAME = PString <$> description config
     ∧ prefs s' !! PREFS_SERVER_INDEX = Some (PInt (index config))).
Proof.
  intros Hs. apply invariant_reachable in Hs.
  destruct Hs as [_ _ Hstat _ _].
  split; [| split].
  - intros Hstate. by rewrite connectToVpn_guarded.
  - intros Hc1 Hc2 Hparse.
    unfold connectToVpn, bind, get. rewrite guard_open by done.
    rewrite setProtocolState_changed by done.
    unfold parseConfigToJson, onError, send, bind, modify, ret.
    destruct Hparse as [-> | [m ->]]; [| destruct (isBlank vpnConfig)];
      rewrite saveServerData_None;
      (rewrite setProtocolState_changed by (fields; done));
      fields; apply (stored_descriptive None).
  - intros Hc1 Hc2 config Hblank Hparse Hdesc.
    unfold connectToVpn, bind, get. rewrite guard_open by done.
    rewrite setProtocolState_changed by done.
    unfold parseConfigToJson. rewrite Hblank, Hparse. unfold ret.
    rewrite saveServerData_Some by done.
    unfold checkPermission, launch, emit, bind, modify, get, ret. fields.
    destruct (vpnPermission s); fields.
    + apply stored_descriptive.
    + rewrite setProtocolState_changed by (fields; done).
      fields. apply stored_descriptive.
Qed.

(** C7, as the code has it.  A register request under the name of the
    foreground observer, handled while the state is Connected, records
    the client and goes through [launchSendingStatistics], whose body is
    disabled: no sending loop is started (no coroutine is launched and
    [statisticsSendingJob] stays empty), the request lets nothing out,
    and whatever happens to the service afterwards no STATISTICS_UPDATE
    is ever sent. *)
Theorem register_observer_arms_nothing replyTo s :
  reachable JSONObject_new s →
  uncaught s = None →
  protocolState s = CONNECTED →
  let s' := exec JSONObject_new
              (HandleMessage replyTo
                 (REGISTER_CLIENT (Some ACTIVITY_MESSENGER_NAME))) s in
  clientMessengers s' !! replyTo
  = Some {| name := Some ACTIVITY_MESSENGER_NAME |}
  ∧ statisticsSendingJob s' = None
  ∧ coroutines s' = coroutines s
  ∧ effects s' = effects s
  ∧ ∀ evs, Forall (λ e, isStatistics e = false)
             (effects (run JSONObject_new evs s')).
Proof.
  intros Hs Hlive Hstate. apply invariant_reachable in Hs.
  pose proof (invariant_exec
                (HandleMessage replyTo
                   (REGISTER_CLIENT (Some ACTIVITY_MESSENGER_NAME))) s Hs)
    as Hs'.
  revert Hs'. unfold exec. rewrite Hlive.
  unfold handler, handleMessage, launchSendingStatistics, when, bind,
    modify, get, ret.
  destruct (_ && _); fields; intros Hs'; repeat split;
    try apply lookup_insert_eq; try apply Hs;
    intros evs; by apply invariant_run.
Qed.

(** C8. A connectivity change in a state other than Connected leaves
    the service as it was.  In state Connected it sets the state to
    Reconnecting and launches a coroutine that calls [reconnectVpn] on
    the protocol instance that is active: the active instance and the
    registry stay as they were, and up to that call nothing goes into a
    protocol or into the registry's constructor. *)
Theorem network_change_reconnects s :
  reachable JSONObject_new s →
  uncaught s = None →
  (protocolState s ≠ CONNECTED → exec JSONObject_new NetworkChanged s = s)
  ∧ (protocolState s = CONNECTED →
     ∀ p, protocol s = Some p →
     let j := length (coroutines s) in
     let s1 := exec JSONObject_new NetworkChanged s in
     let s2 := exec JSONObject_new (Resume j None) s1 in
     protocolState s1 = RECONNECTING
     ∧ connectionJob s1 = Some j
     ∧ coroutines s1 = coroutines s ++ [ReconnectionJob RCall]
     ∧ coroutines s2 = coroutines s ++ [ReconnectionJob (RRunning p)]
     ∧ protocol s2 = Some p
     ∧ protocolCache s2 = protocolCache s
     ∧ ∃ delta, effects s2 = effects s ++ delta ++ [ReconnectVpn p]
                ∧ Forall (λ e, isProtocolCall e = false) delta).
Proof.
  intros Hs Hlive. apply invariant_reachable in Hs.
  destruct Hs as [_ _ Hstat _ _]. split.
  - intros Hstate. unfold exec. rewrite Hlive.
    unfold handler, reconnect, isConnected, bind, get.
    by rewrite bool_decide_eq_false_2.
  - intros Hstate p Hp j s1 s2.
    assert (Hs1 : s1 = set_connectionJob (Some j)
                         (set_coroutines (coroutines s ++ [ReconnectionJob RCall])
                            (transitioned RECONNECTING s))).
    { unfold s1, exec. rewrite Hlive.
      unfold handler, reconnect, isConnected, bind, get.
      rewrite bool_decide_eq_true_2 by done. cbn [negb].
      rewrite setProtocolState_changed by (by rewrite ?Hstate).
      unfold launch, bind, get, modify, ret. by fields. }
    assert (Hs2 : s2 = set_coroutines
                         (coroutines s ++ [ReconnectionJob (RRunning p)])
                         (set_effects (effects s1 ++ [ReconnectVpn p]) s1)).
    { unfold s2, exec. clearbody s1. subst s1. fields. rewrite Hlive.
      unfold handler, resume, bind, get. fields.
      rewrite list_lookup_middle by done.
      unfold statement, reconnectionStatement, emit, bind, modify, get, ret.
      fields. rewrite Hp. fields. f_equal.
      replace j with (length (coroutines s) + 0)%nat by lia.
      by rewrite insert_app_r. }
    clearbody s1 s2. subst s1 s2. fields. repeat split; try done.
    exists (transition RECONNECTING s). split.
    + by rewrite <- app_assoc.
    + eapply Forall_impl; [apply transition_quiet | by intros ? []].
Qed.

(** C9, as the code has it.  At all times the network observer is bound
    while the state is Connected and unbound while the state is Unknown,
    Disconnected or Disconnecting.  A change to Reconnecting or to
    Connecting leaves the observer as it was, so it stays bound through
    a reconnect. *)
Theorem listener_follows_state s :
  reachable JSONObject_new s →
  (protocolState s = CONNECTED → networkListener s = true)
  ∧ (protocolState s = UNKNOWN ∨ protocolState s = DISCONNECTED
     ∨ protocolState s = DISCONNECTING →
     networkListener s = false)
  ∧ ∀ state, state = RECONNECTING ∨ state = CONNECTING →
             networkListener (setProtocolState state s).2
             = networkListener s.
Proof.
  intros Hs. apply invariant_reachable in Hs.
  destruct Hs as [H1 H2 Hstat _ _]. repeat split; try done.
  intros state Hstate.
  destruct (decide (protocolState s = state)).
  - by rewrite setProtocolState_same.
  - rewrite setProtocolState_changed by done.
    by destruct Hstate as [-> | ->].
Qed.

(** C10. A connect that reaches the permission check (the guard lets
    it through, its configuration parses and [saveServerData] can cast
    the descriptive fields), while the platform has not granted the VPN
    permission, leaves the service in state Disconnected: no coroutine
    is launched, the active protocol and the registry stay as they
    were, the request for permission is started, and nothing that is let
    out is an ERROR or a call into a protocol. *)
Theorem connect_without_permission vpnConfig config s :
  reachable JSONObject_new s →
  protocolState s ≠ CONNECTED → protocolState s ≠ CONNECTING →
  isBlank vpnConfig = false → JSONObject_new vpnConfig = inr config →
  descriptive config = true →
  vpnPermission s = false →
  let r := connectToVpn JSONObject_new vpnConfig s in
  r.1 = Ok tt
  ∧ protocolState r.2 = DISCONNECTED
  ∧ coroutines r.2 = coroutines s
  ∧ connectionJob r.2 = connectionJob s
  ∧ protocol r.2 = protocol s
  ∧ protocolCache r.2 = protocolCache s
  ∧ ∃ delta, effects r.2 = effects s ++ delta
             ∧ StartActivity ∈ delta
             ∧ Forall (λ e, isError e = false ∧ isProtocolCall e = false) delta.
Proof.
  intros Hs Hc1 Hc2 Hblank Hparse Hdesc Hperm.
  apply invariant_reachable in Hs. destruct Hs as [_ _ Hstat _ _].
  unfold connectToVpn, isConnected, bind, get.
  rewrite !bool_decide_eq_false_2 by done. cbn [orb].
  rewrite setProtocolState_changed by done.
  unfold parseConfigToJson. rewrite Hblank, Hparse. unfold ret.
  rewrite saveServerData_Some by done.
  unfold checkPermission, bind, get. fields. rewrite Hperm.
  unfold emit, modify, ret. fields.
  rewrite setProtocolState_changed by (fields; done).
  fields. repeat split.
  eexists. split; [by rewrite <- !app_assoc |].
  split.
  - rewrite !elem_of_app. right. left. by apply list_elem_of_singleton.
  - rewrite !Forall_app. repeat split;
      try apply transition_quiet; by repeat constructor.
Qed.

(** ** One connect followed by one disconnect *)

Section Steady.

Context (jobs : list Coroutine) (P : option Job → Prop).

Lemma steady_modify (f : Service → Service) :
  (∀ s, steady jobs P s → steady jobs P (f s)) →
  preserves (steady jobs P) (modify f).
Proof. intros Hf s Hs. by apply Hf. Qed.

Lemma steady_stopSendingStatistics :
  preserves (steady jobs P) stopSendingStatistics.
Proof.
  intros s Hs. unfold stopSendingStatistics, bind, get.
  destruct Hs as [Hstat ?]. by rewrite Hstat.
Qed.

End Steady.

Create HintDb steady.

#[local] Hint Resolve preserves_ret preserves_throw preserves_get
  preserves_gets steady_stopSendingStatistics : steady.

(** Goes through a method that leaves the table and [connectionJob]
    alone. *)
Ltac keep_steady :=
  repeat first
    [ solve [eauto with steady]
    | apply preserves_bind; [| intros ?]
    | apply preserves_when
    | apply steady_modify; intros ? HI; exact HI
    | match goal with
      | |- preserves _ (match ?x with _ => _ end) => destruct x
      | |- preserves _ (if ?x then _ else _) => destruct x
      end ].

Lemma steady_setProtocolState jobs P state :
  preserves (steady jobs P) (setProtocolState state).
Proof.
  unfold setProtocolState, protocolStateHandler, bindNetworkListener,
    unbindNetworkListener, launchSendingStatistics, stopService, send, emit.
  keep_steady.
Qed.

Lemma steady_getProtocol jobs P protocolName :
  preserves (steady jobs P) (getProtocol protocolName).
Proof. unfold getProtocol, emit. keep_steady. Qed.

#[local] Hint Resolve steady_setProtocolState steady_getProtocol : steady.

Lemma steady_connectionExceptionHandler jobs P e :
  preserves (steady jobs P) (connectionExceptionHandler e).
Proof. unfold connectionExceptionHandler, onError, send. keep_steady. Qed.

Lemma steady_connectionStatement jobs P config pc outcome :
  preserves (steady jobs P) (connectionStatement config pc outcome).
Proof. unfold connectionStatement, getString, emit. keep_steady. Qed.

Lemma steady_disconnectionStatement jobs pc outcome :
  preserves (steady jobs (λ _, True)) (disconnectionStatement pc outcome).
Proof.
  unfold disconnectionStatement, stopService, emit. keep_steady.
Qed.

Lemma steady_statement jobs c outcome :
  preserves (steady jobs (λ _, True)) (statement c outcome).
Proof.
  destruct c as [config pc | pc | pc |]; cbn [statement].
  - apply steady_connectionStatement.
  - apply steady_disconnectionStatement.
  - unfold reconnectionStatement, emit. keep_steady.
  - apply preserves_ret.
Qed.

Lemma returns_ret {A} (Q : A → Prop) a : Q a → returns Q (ret a).
Proof. by intros H s. Qed.

Lemma returns_throw {A} (Q : A → Prop) e : returns Q (throw e).
Proof. by intros s. Qed.

Lemma returns_bind {A B} (Q : B → Prop) (c : M A) (k : A → M B) :
  (∀ a, returns Q (k a)) → returns Q (bind c k).
Proof.
  intros Hk s. unfold bind. destruct (c s) as [[a|e] s']; [apply Hk | done].
Qed.

Lemma returns_True {A} (c : M A) : returns (λ _, True) c.
Proof. intros s. by destruct (c s).1. Qed.

(** Looks at what a coroutine's statement gives back. *)
Ltac returning :=
  repeat first
    [ apply returns_ret; reflexivity
    | apply returns_throw
    | apply returns_bind; intros ?
    | match goal with
      | |- returns _ (match ?x with _ => _ end) => destruct x
      | |- returns _ (if ?x then _ else _) => destruct x
      end ].

Lemma connectionStatement_returns config pc outcome :
  returns (λ c, isConnection c = true) (connectionStatement config pc outcome).
Proof. unfold connectionStatement. returning. Qed.

Lemma disconnectionStatement_returns pc outcome :
  returns (λ c, isDisconnection c = true) (disconnectionStatement pc outcome).
Proof. unfold disconnectionStatement. returning. Qed.

Lemma exec_resume_absent j outcome s :
  coroutines s !! j = None → exec JSONObject_new (Resume j outcome) s = s.
Proof.
  intros Hj. unfold exec. destruct (uncaught s); [done |].
  unfold handler, resume, bind, get. by rewrite Hj.
Qed.

(** One statement of a coroutine whose statements leave the table and
    [connectionJob] alone: the table changes at that coroutine only. *)
Lemma exec_resume j outcome s c P (Q : Coroutine → Prop) :
  coroutines s !! j = Some c →
  preserves (steady (coroutines s) P) (statement c outcome) →
  returns Q (statement c outcome) →
  Q c → Q Completed →
  steady (coroutines s) P s →
  ∃ c', Q c'
        ∧ steady (<[j := c']> (coroutines s)) P
            (exec JSONObject_new (Resume j outcome) s).
Proof.
  intros Hj Hsteady Hreturns Hc Hcompleted Hs. unfold exec.
  destruct (uncaught s).
  { exists c. split; [done |]. by rewrite list_insert_id. }
  unfold handler, resume, bind, get. rewrite Hj.
  specialize (Hsteady s Hs). specialize (Hreturns s).
  destruct (statement c outcome s) as [[c'|e] s']; cbn [fst snd] in *.
  - exists c'. split; [done |].
    destruct Hsteady as (H1 & H2 & H3). by rewrite <- H2.
  - exists Completed. split; [done |].
    assert (Hs' : steady (<[j := Completed]> (coroutines s)) P
                    (set_coroutines (<[j := Completed]> (coroutines s')) s')).
    { destruct Hsteady as (H1 & H2 & H3). by rewrite <- H2. }
    apply steady_connectionExceptionHandler with (e := e) in Hs'.
    by destruct (connectionExceptionHandler e _) as [[[]|e'] t].
Qed.

(** What goes on in the background, other than the coroutines, leaves
    the table and [connectionJob] alone. *)
Lemma steady_exec_background jobs P ev s :
  isBackground ev = true → (∀ j outcome, ev ≠ Resume j outcome) →
  steady jobs P s → steady jobs P (exec JSONObject_new ev s).
Proof.
  intros Hev Hresume Hs. unfold exec. destruct (uncaught s); [done |].
  assert (H : preserves (steady jobs P) (handler JSONObject_new ev)).
  { destruct ev; try discriminate Hev; cbn [handler].
    - by destruct (Hresume j outcome).
    - keep_steady.
    - keep_steady.
    - keep_steady.
    - keep_steady. }
  specialize (H s Hs).
  by destruct (handler JSONObject_new ev s) as [[[]|e] s'].
Qed.

Lemma leads_preserves {A} (I J : Service → Prop) (c : M A) :
  preserves I c → (∀ s, I s → J s) → leads I J c.
Proof. intros Hc HIJ s Hs. by apply HIJ, Hc. Qed.

Lemma leads_bind {A B} (I J : Service → Prop) (c : M A) (k : A → M B) :
  preserves I c → (∀ s, I s → J s) → (∀ a, leads I J (k a)) →
  leads I J (bind c k).
Proof.
  intros Hc HIJ Hk s Hs. unfold bind. specialize (Hc s Hs).
  destruct (c s) as [[a|e] s']; [by apply Hk | by apply HIJ].
Qed.

Lemma steady_parseConfigToJson jobs P vpnConfig :
  preserves (steady jobs P) (parseConfigToJson JSONObject_new vpnConfig).
Proof. unfold parseConfigToJson, onError, send. keep_steady. Qed.

Lemma steady_saveServerData jobs P config :
  preserves (steady jobs P) (saveServerData config).
Proof.
  unfold saveServerData, asString, asInt, Prefs_save_String, Prefs_save_Int.
  keep_steady.
Qed.

Lemma steady_checkPermission jobs P : preserves (steady jobs P) checkPermission.
Proof. unfold checkPermission, emit. keep_steady. Qed.

(** The connect launches at most one coroutine, and [connectionJob]
    holds it. *)
Lemma connectPending_connect vpnConfig :
  leads (steady [] (λ _, True)) connectPending
    (connect JSONObject_new vpnConfig).
Proof.
  assert (Hnone : ∀ s, steady [] (λ _, True) s → connectPending s).
  { intros s (H1 & H2 & _). split; [done | by left]. }
  assert (Hto : ∀ text, leads (steady [] (λ _, True)) connectPending
                          (connectToVpn JSONObject_new text)).
  { intros text. unfold connectToVpn.
    apply leads_bind; [apply preserves_get | done |]. intros s0.
    destruct (_ || _); [by apply leads_preserves; [apply preserves_ret |] |].
    apply leads_bind; [apply steady_setProtocolState | done |]. intros _.
    apply leads_bind; [apply steady_parseConfigToJson | done |].
    intros [config|]; (apply leads_bind; [apply steady_saveServerData | done |]);
      intros _.
    - apply leads_bind; [apply steady_checkPermission | done |].
      intros granted. destruct (negb granted).
      + by apply leads_preserves; [apply steady_setProtocolState |].
      + intros s (H1 & H2 & _). unfold launch, bind, modify, get, ret.
        split; [done |]. right. exists (ConnectionJob config CJoin).
        cbn. by rewrite H2.
    - apply leads_preserves; [| done].
      unfold onError, send. keep_steady. }
  destruct vpnConfig as [text|]; unfold connect.
  - apply leads_bind; [| done | intros _; apply Hto].
    unfold Prefs_save_String. keep_steady.
  - apply leads_bind; [apply preserves_gets | done | intros last; apply Hto].
Qed.

Lemma connectPending_background ev s :
  isBackground ev = true → connectPending s →
  connectPending (exec JSONObject_new ev s).
Proof.
  intros Hev [Hstat Hjobs].
  assert (Hother : (∀ j outcome, ev ≠ Resume j outcome) →
                   connectPending (exec JSONObject_new ev s)).
  { intros Hresume. destruct Hjobs as [Hnil | (c0 & Hc0 & Hconn & Hjob)].
    - destruct (steady_exec_background [] (λ _, True) ev s Hev Hresume)
        as (H1 & H2 & _); [done |].
      split; [done | by left].
    - destruct (steady_exec_background [c0] (λ x, x = Some 0%nat) ev s
                  Hev Hresume) as (H1 & H2 & H3); [done |].
      split; [done |]. right. by exists c0. }
  destruct ev as [| | | | | | | j outcome | | | |]; try discriminate Hev;
    try (by apply Hother).
  destruct Hjobs as [Hnil | (c0 & Hc0 & Hconn & Hjob)].
  - rewrite exec_resume_absent by (by rewrite Hnil).
    split; [done | by left].
  - destruct j as [|j]; [| rewrite exec_resume_absent by (by rewrite Hc0);
                           split; [done |]; right; by exists c0].
    destruct c0 as [config pc | | |]; try discriminate Hconn.
    + destruct (exec_resume 0 outcome s (ConnectionJob config pc)
                  (λ x, x = Some 0%nat) (λ c, isConnection c = true))
        as (c' & Hc' & H1 & H2 & H3); try done.
      * by rewrite Hc0.
      * apply steady_connectionStatement.
      * apply connectionStatement_returns.
      * split; [done |]. right. exists c'. rewrite H2, Hc0. done.
    + rewrite exec_resume_completed by (by rewrite Hc0).
      split; [done |]. right. by exists Completed.
Qed.

(** The disconnect launches its coroutine behind the one of the
    connect. *)
Lemma connectPending_disconnect replyTo s :
  connectPending s →
  disconnectPending (exec JSONObject_new (HandleMessage replyTo DISCONNECT) s).
Proof.
  intros [Hstat Hjobs].
  assert (Hsame : ∀ t, statisticsSendingJob t = None →
                       coroutines t = coroutines s →
                       connectionJob t = connectionJob s →
                       disconnectPending t).
  { intros t H1 H2 H3. split; [done |]. left. rewrite H2.
    destruct Hjobs as [-> | (c0 & -> & _)]; cbn; lia. }
  unfold exec. destruct (uncaught s); [by apply Hsame |].
  cbn [handler handleMessage]. unfold disconnect, bind, get.
  destruct (_ || _); [by apply Hsame |].
  pose proof (steady_setProtocolState (coroutines s)
                (λ x, x = connectionJob s) DISCONNECTING s) as Hstep.
  destruct (setProtocolState DISCONNECTING s) as [[[]|e] s1];
    cbn [fst snd] in Hstep; destruct Hstep as (H1 & H2 & H3); try done.
  - unfold launch, bind, modify, get, ret. fields.
    split; [done |].
    destruct Hjobs as [Hnil | (c0 & Hc0 & Hconn & Hjob)].
    + left. rewrite H2, Hnil. cbn. lia.
    + right. exists c0, (DisconnectionJob DJoin). rewrite H2, Hc0.
      repeat split; try done. right. left. split; [done |].
      fields. by rewrite H3.
  - fields. by apply Hsame.
Qed.

Lemma disconnectPending_background ev s :
  isBackground ev = true → disconnectPending s →
  disconnectPending (exec JSONObject_new ev s).
Proof.
  intros Hev [Hstat Hjobs].
  assert (Hsteady : ∀ P, P (connectionJob s) → steady (coroutines s) P s)
    by (by intros P HP).
  assert (Hback : ∀ t, steady (coroutines s) (λ x, x = connectionJob s) t →
                       disconnectPending t).
  { intros t (H1 & H2 & H3). split; [done |].
    by rewrite H2, H3. }
  destruct ev as [| | | | | | | j outcome | | | |]; try discriminate Hev;
    try (by apply Hback, steady_exec_background).
  destruct (coroutines s !! j) as [c|] eqn:Hj;
    [| by rewrite exec_resume_absent].
  destruct Hjobs as [Hshort | (c0 & c1 & Hc & Hconn & Hdisc & Horder)].
  { destruct (exec_resume j outcome s c (λ _, True) (λ _, True))
      as (c' & _ & H1 & H2 & _); try done.
    - apply steady_statement.
    - apply returns_True.
    - split; [done |]. left. by rewrite H2, length_insert. }
  assert (Hpair : ∀ c0' c1' t,
            statisticsSendingJob t = None → coroutines t = [c0'; c1'] →
            isConnection c0' = true → isDisconnection c1' = true →
            (c0' = Completed
             ∨ c1' = DisconnectionJob DJoin ∧ connectionJob t = Some 0%nat
             ∨ c1' = DisconnectionJob (DJoining 0)) →
            disconnectPending t).
  { intros c0' c1' t H1 H2 H3 H4 H5. split; [done |]. right.
    by exists c0', c1'. }
  rewrite Hc in Hj. destruct j as [|[|j]]; [| | done]; cbn in Hj;
    injection Hj as <-.
  - (* the coroutine of the connect *)
    destruct c0 as [config pc | | |]; try discriminate Hconn;
      [| rewrite exec_resume_completed by (by rewrite Hc); by eapply Hpair].
    destruct Horder as [Hdone | [[-> Hjob] | ->]]; [done | |].
    + destruct (exec_resume 0 outcome s (ConnectionJob config pc)
                  (λ x, x = Some 0%nat) (λ c, isConnection c = true))
        as (c' & Hc' & H1 & H2 & H3); try done.
      * by rewrite Hc.
      * apply steady_connectionStatement.
      * apply connectionStatement_returns.
      * eapply Hpair; try done; [by rewrite H2, Hc | tauto].
    + destruct (exec_resume 0 outcome s (ConnectionJob config pc)
                  (λ _, True) (λ c, isConnection c = true))
        as (c' & Hc' & H1 & H2 & H3); try done.
      * by rewrite Hc.
      * apply steady_connectionStatement.
      * apply connectionStatement_returns.
      * eapply Hpair; try done; [by rewrite H2, Hc | tauto].
  - (* the coroutine of the disconnect *)
    destruct Horder as [-> | [[-> Hjob] | ->]].
    + destruct (exec_resume 1 outcome s c1 (λ _, True)
                  (λ c, isDisconnection c = true))
        as (c' & Hc' & H1 & H2 & H3); try done.
      * by rewrite Hc.
      * apply steady_statement.
      * destruct c1 as [| pc | |]; try discriminate Hdisc.
        -- apply disconnectionStatement_returns.
        -- by apply returns_ret.
      * eapply Hpair; try done; [by rewrite H2, Hc | tauto].
    + unfold exec. destruct (uncaught s); [by eapply Hpair; eauto |].
      unfold handler, resume, bind, get. rewrite Hc. cbn [lookup list_lookup].
      unfold statement, disconnectionStatement, bind, get. rewrite Hjob.
      unfold ret. fields. rewrite Hc. by eapply Hpair; eauto.
    + unfold exec. destruct (uncaught s); [by eapply Hpair; eauto |].
      unfold handler, resume, bind, get. rewrite Hc. cbn [lookup list_lookup].
      unfold statement, disconnectionStatement, isCompleted, bind, get.
      rewrite Hc. cbn [lookup list_lookup].
      destruct c0; try discriminate Hconn; unfold ret; fields; rewrite Hc;
        by eapply Hpair; eauto.
Qed.

Lemma disconnectPending_ordered s p q :
  disconnectPending s → ¬ (midStart s p = true ∧ midStop s q = true).
Proof.
  intros [_ Hjobs] [Hstart Hstop]. unfold midStart, midStop in *.
  destruct Hjobs as [Hshort | (c0 & c1 & Hc & Hconn & Hdisc & Horder)].
  - destruct (coroutines s) as [|c [|]]; [done | | cbn in Hshort; lia].
    cbn in Hstart, Hstop. by destruct c as [? [] | [] | |].
  - rewrite Hc in Hstart, Hstop.
    destruct c0 as [config pc | | |]; try discriminate Hconn;
      destruct c1 as [| pc1 | |]; try discriminate Hdisc;
      cbn in Hstart, Hstop; try discriminate.
    destruct Horder as [? | [[[= ->] _] | [= ->]]]; discriminate.
Qed.

Lemma steady_created stored granted :
  steady [] (λ _, True) (created stored granted).
Proof.
  unfold created, loadServerData, Prefs_load_String, Prefs_load_Int, bind,
    gets, modify, get, ret.
  cbn. by destruct (isBlank _).
Qed.

(** X19. A connect followed by a disconnect, with the coroutines
    scheduled in any way: no protocol is in the middle of [startVpn]
    while one is in the middle of [stopVpn]. *)
Lemma connect_then_disconnect_in_order
    stored granted client vpnConfig before after p q :
  Forall (λ ev, isBackground ev = true) before →
  Forall (λ ev, isBackground ev = true) after →
  let s := run JSONObject_new
             (HandleMessage client (CONNECT vpnConfig) :: before
              ++ HandleMessage client DISCONNECT :: after)
             (created stored granted) in
  ¬ (midStart s p = true ∧ midStop s q = true).
Proof.
  intros Hbefore Hafter s. apply disconnectPending_ordered.
  assert (Hrun : ∀ (I : Service → Prop) evs t,
            (∀ ev u, isBackground ev = true → I u →
                     I (exec JSONObject_new ev u)) →
            Forall (λ ev, isBackground ev = true) evs →
            I t → I (run JSONObject_new evs t)).
  { intros I evs t Hstep Hevs. revert t.
    induction Hevs as [|ev evs Hev _ IH]; intros t Ht; [done |].
    apply IH, Hstep; done. }
  unfold s, run. cbn [foldl]. rewrite foldl_app. cbn [foldl].
  apply (Hrun disconnectPending); [apply disconnectPending_background | done |].
  apply connectPending_disconnect.
  apply (Hrun connectPending); [apply connectPending_background | done |].
  pose proof (steady_created stored granted) as Hcreated.
  unfold exec. destruct (uncaught (created stored granted)).
  { destruct Hcreated as (H1 & H2 & _). split; [done | by left]. }
  cbn [handler handleMessage].
  pose proof (connectPending_connect vpnConfig _ Hcreated) as H.
  by destruct (connect JSONObject_new vpnConfig _) as [[[]|e] t].
Qed.

(** * Further properties of the service *)

Lemma preserves_modify (I : Service → Prop) (f : Service → Service) :
  (∀ s, I s → I (f s)) → preserves I (modify f).
Proof. intros Hf s Hs. by apply Hf. Qed.

Create HintDb keep.

#[local] Hint Resolve preserves_ret preserves_throw preserves_get
  preserves_gets : keep.

(** Goes through a method whose writes leave a property alone. *)
Ltac keep :=
  repeat first
    [ solve [eauto with keep]
    | apply preserves_bind; [| intros ?]
    | apply preserves_when
    | apply preserves_modify; intros ? HI; exact HI
    | match goal with
      | |- preserves _ (match ?x with _ => _ end) => destruct x
      | |- preserves _ (if ?x then _ else _) => destruct x
      end ].

(** ** The registry *)

(** X1. [getProtocol] constructs an implementation once.  A name that
    resolves resolves to the same instance from then on, without a
    second [initialize] and without any further change; a name that is
    cached is served from the cache; a name that does not resolve
    leaves the service as it was. *)
Theorem getProtocol_caches protocolName s :
  match getProtocol protocolName s with
  | (Ok p, s1) =>
      getProtocol protocolName s1 = (Ok p, s1)
      ∧ protocolCache s1 !! protocolName = Some p
      ∧ (∀ other, other ≠ protocolName →
                  protocolCache s1 !! other = protocolCache s !! other)
      ∧ match protocolCache s !! protocolName with
        | Some q => q = p ∧ s1 = s
        | None => supported protocolName
                  ∧ protocolName = nameOf p
                  ∧ effects s1 = effects s ++ [Initialize p]
        end
  | (Throw e, s1) =>
      s1 = s
      ∧ class e = IllegalArgumentException
      ∧ ¬ supported protocolName
      ∧ protocolCache s !! protocolName = None
  end.
Proof.
  unfold getProtocol at 1. unfold bind, get.
  destruct (protocolCache s !! protocolName) as [q|] eqn:Hq.
  - unfold ret. repeat split; try done.
    unfold getProtocol, bind, get. by rewrite Hq.
  - unfold supported.
    repeat case_decide; unfold ret, throw, emit, modify; fields;
      try (repeat split; try done;
           [ unfold getProtocol, bind, get; fields;
             by rewrite lookup_insert_eq
           | by rewrite lookup_insert_eq
           | by intros other Hother; rewrite lookup_insert_ne
           | tauto ]).
    repeat split; try done. tauto.
Qed.

(** ** Disconnecting *)

Lemma disconnect_guarded s :
  protocolState s = UNKNOWN ∨ protocolState s = DISCONNECTED
  ∨ protocolState s = DISCONNECTING →
  disconnect s = (Ok tt, s).
Proof.
  unfold disconnect, bind, get, isUnknown, isDisconnected.
  intros [E | [E | E]]; by rewrite E.
Qed.

(** X2. A disconnect in state Unknown, Disconnected or Disconnecting
    does nothing.  In every other state it moves the state to
    Disconnecting, which unbinds the network listener and tells every
    live client, and launches one coroutine, kept in
    [disconnectionJob]; [stopVpn] is not called before that coroutine
    runs, and a second disconnect right behind the first launches
    nothing more. *)
Theorem disconnect_launches_one_coroutine s :
  reachable JSONObject_new s →
  let r := disconnect s in
  r.1 = Ok tt
  ∧ (protocolState s = UNKNOWN ∨ protocolState s = DISCONNECTED
     ∨ protocolState s = DISCONNECTING → r.2 = s)
  ∧ (protocolState s = CONNECTING ∨ protocolState s = CONNECTED
     ∨ protocolState s = RECONNECTING →
     protocolState r.2 = DISCONNECTING
     ∧ networkListener r.2 = false
     ∧ coroutines r.2 = coroutines s ++ [DisconnectionJob DJoin]
     ∧ disconnectionJob r.2 = Some (length (coroutines s))
     ∧ connectionJob r.2 = connectionJob s
     ∧ protocol r.2 = protocol s
     ∧ effects r.2
       = effects s
         ++ UnbindNetworkListener
            :: broadcast s (STATUS_CHANGED DISCONNECTING)
         ++ [StoreVpnState DISCONNECTING (serverName s) (serverIndex s)]
     ∧ disconnect r.2 = (Ok tt, r.2)).
Proof.
  intros Hs. apply invariant_reachable in Hs.
  destruct Hs as [_ _ Hstat _ _].
  destruct (decide (protocolState s = UNKNOWN ∨ protocolState s = DISCONNECTED
                    ∨ protocolState s = DISCONNECTING)) as [Hidle | Hbusy].
  - rewrite disconnect_guarded by done.
    split; [done |]. split; [done |].
    intros [E | [E | E]]; rewrite E in Hidle;
      by destruct Hidle as [? | [? | ?]].
  - unfold disconnect at 1. unfold bind, get, isUnknown, isDisconnected.
    rewrite !bool_decide_eq_false_2 by tauto. cbn [orb].
    rewrite setProtocolState_changed by tauto.
    unfold launch, bind, modify, get, ret. cbv zeta. fields.
    unfold transition. cbn [app].
    split; [done |]. split; [tauto |]. intros _.
    do 7 (split; [reflexivity |]).
    apply disconnect_guarded. fields. auto.
Qed.

(** ** Changes of the state *)

Lemma statusChanged_of_broadcast s state :
  List.filter isStatusChanged (broadcast s (STATUS_CHANGED state))
  = broadcast s (STATUS_CHANGED state).
Proof. apply filter_all, Forall_fmap, Forall_forall. by intros [m d] _. Qed.

Lemma broadcast_no_clients s event :
  clientMessengers s = ∅ → broadcast s event = [].
Proof.
  intros H. unfold broadcast, liveClients.
  by rewrite H, map_filter_empty, map_to_list_empty.
Qed.

(** X3. Writing the state the service is already in does nothing.
    Any other write stores the new state and tells every live client
    once, with a STATUS_CHANGED that carries the new state; the last
    thing done is to hand the state to [VpnStateStore].  The service is
    asked to stop in the course of it exactly when the new state is
    Disconnected and the service is not bound. *)
Theorem state_change_reaches_every_client state s :
  reachable JSONObject_new s →
  let r := setProtocolState state s in
  r.1 = Ok tt
  ∧ (protocolState s = state → r.2 = s)
  ∧ (protocolState s ≠ state →
     protocolState r.2 = state
     ∧ ∃ delta,
         effects r.2 = effects s ++ delta
         ∧ List.filter isStatusChanged delta
           = broadcast s (STATUS_CHANGED state)
         ∧ NoDup (List.filter isStatusChanged delta)
         ∧ (∀ m, Sent m (STATUS_CHANGED state)
                 ∈ List.filter isStatusChanged delta
                 ↔ is_Some (liveClients s !! m))
         ∧ last delta
           = Some (StoreVpnState state (serverName s) (serverIndex s))
         ∧ List.filter isStop delta
           = if bool_decide (state = DISCONNECTED) && negb (isServiceBound s)
             then [KillProcessAt (clock s + STOP_SERVICE_TIMEOUT); StopSelf]
             else []).
Proof.
  intros Hs. apply invariant_reachable in Hs.
  destruct Hs as [_ _ Hstat _ _].
  destruct (decide (protocolState s = state)) as [E | E].
  - rewrite setProtocolState_same by done. by cbv zeta.
  - rewrite setProtocolState_changed by done. cbv zeta. fields.
    split; [reflexivity |]. split; [done |]. intros _.
    split; [reflexivity |]. exists (transition state s).
    split; [reflexivity |].
    assert (Hsent : List.filter isStatusChanged (transition state s)
                    = broadcast s (STATUS_CHANGED state)).
    { unfold transition. rewrite !List.filter_app.
      rewrite statusChanged_of_broadcast.
      destruct state; try destruct (isServiceBound s); cbn [List.filter isStatusChanged app];
        by rewrite ?app_nil_r. }
    rewrite Hsent. split; [reflexivity |].
    split; [apply broadcast_once |]. split; [apply broadcast_once |].
    split.
    + unfold transition. by rewrite app_assoc, last_snoc.
    + unfold transition. rewrite !List.filter_app.
      replace (List.filter isStop (broadcast s (STATUS_CHANGED state)))
        with (@nil Effect)
        by (symmetry; apply filter_none, Forall_fmap, Forall_forall;
            by intros [m d] _).
      destruct state; try destruct (isServiceBound s); reflexivity.
Qed.

(** ** Binding and stopping *)

(** X4. When the service is unbound through the service interface, or
    while a client is still registered, nothing changes.  Any other
    unbind marks the service unbound: in state Unknown or Disconnected
    the service asks to stop at once and schedules the kill of the
    process [STOP_SERVICE_TIMEOUT] later; in every other state it goes
    on, and asks to stop when the state becomes Disconnected. *)
Theorem unbound_idle_service_stops s :
  reachable JSONObject_new s →
  uncaught s = None →
  (∀ serviceInterface,
     serviceInterface = true ∨ clientMessengers s ≠ ∅ →
     exec JSONObject_new (OnUnbind serviceInterface) s = s)
  ∧ (clientMessengers s = ∅ →
     let s1 := exec JSONObject_new (OnUnbind false) s in
     isServiceBound s1 = false
     ∧ (protocolState s = UNKNOWN ∨ protocolState s = DISCONNECTED →
        effects s1
        = effects s ++ [KillProcessAt (clock s + STOP_SERVICE_TIMEOUT);
                        StopSelf])
     ∧ (protocolState s ≠ UNKNOWN → protocolState s ≠ DISCONNECTED →
        effects s1 = effects s
        ∧ effects (exec JSONObject_new (StateReported DISCONNECTED) s1)
          = effects s
            ++ [UnbindNetworkListener;
                KillProcessAt (clock s + STOP_SERVICE_TIMEOUT);
                StopSelf;
                StoreVpnState DISCONNECTED (serverName s) (serverIndex s)])).
Proof.
  intros Hs Hlive. apply invariant_reachable in Hs.
  destruct Hs as [_ _ Hstat _ _].
  split.
  - intros i Hi. unfold exec. rewrite Hlive.
    unfold handler, onUnbind, bind, get.
    destruct Hi as [-> | Hi]; [reflexivity |].
    rewrite (bool_decide_eq_false_2 _ Hi). by rewrite andb_false_r.
  - intros Hnone s1.
    assert (Hs1 : s1 = let t := set_isServiceBound false s in
                       if isUnknown s || isDisconnected s
                       then set_effects
                              (effects s
                               ++ [KillProcessAt (clock s + STOP_SERVICE_TIMEOUT);
                                   StopSelf]) t
                       else t).
    { unfold s1, exec. rewrite Hlive.
      unfold handler, onUnbind, bind, get.
      rewrite (bool_decide_eq_true_2 _ Hnone). cbn [negb andb].
      unfold modify, when. destruct (_ || _); [| reflexivity].
      unfold stopService, emit, bind, modify, get. fields.
      same_service. by rewrite <- app_assoc. }
    clearbody s1. subst s1. cbv zeta. unfold isUnknown, isDisconnected.
    split; [| split].
    + by destruct (_ || _).
    + intros [E | E]; by rewrite E.
    + intros E1 E2. rewrite !bool_decide_eq_false_2 by done. cbn [orb].
      split; [reflexivity |].
      unfold exec. fields. rewrite Hlive. unfold handler.
      destruct (decide (DISCONNECTED = UNKNOWN)); [done |].
      rewrite setProtocolState_changed by done. fields.
      unfold transition. fields.
      by rewrite broadcast_no_clients.
Qed.

(** ** The registry of clients *)

(** X5. Registering a client and unregistering it again leaves the
    channel unregistered and nothing else changed: the service is as it
    was before when the channel was not registered, and has lost the
    earlier entry of the channel when it was.  Unregistering a channel
    that is not registered does nothing; and a channel that registers
    again is kept once, under its latest name. *)
Theorem register_then_unregister s replyTo clientName :
  reachable JSONObject_new s →
  uncaught s = None →
  let pair := [HandleMessage replyTo (REGISTER_CLIENT clientName);
               HandleMessage replyTo UNREGISTER_CLIENT] in
  run JSONObject_new pair s
  = set_clientMessengers (delete replyTo (clientMessengers s)) s
  ∧ (run JSONObject_new pair s = s ↔ clientMessengers s !! replyTo = None)
  ∧ (clientMessengers s !! replyTo = None →
     exec JSONObject_new (HandleMessage replyTo UNREGISTER_CLIENT) s = s)
  ∧ ∀ earlier,
      let s' := run JSONObject_new
                  [HandleMessage replyTo (REGISTER_CLIENT earlier);
                   HandleMessage replyTo (REGISTER_CLIENT clientName)] s in
      clientMessengers s'
      = <[replyTo := {| name := clientName |}]> (clientMessengers s)
      ∧ effects s' = effects s.
Proof.
  intros Hs Hlive pair. apply invariant_reachable in Hs.
  destruct Hs as [_ _ Hstat _ _].
  assert (Hregister :
    ∀ n t, uncaught t = None →
      exec JSONObject_new (HandleMessage replyTo (REGISTER_CLIENT n)) t
      = set_clientMessengers
          (<[replyTo := {| name := n |}]> (clientMessengers t)) t).
  { intros n t Ht. unfold exec. rewrite Ht.
    unfold handler, handleMessage, launchSendingStatistics, when, bind,
      modify, get, ret.
    by destruct (_ && _). }
  assert (Hpair : run JSONObject_new pair s
                  = set_clientMessengers
                      (delete replyTo (clientMessengers s)) s).
  { unfold pair, run. cbn [foldl]. rewrite Hregister by done.
    unfold exec. fields. rewrite Hlive.
    unfold handler, handleMessage, bind, get. fields.
    rewrite lookup_insert_eq.
    unfold stopSendingStatistics, when, bind, modify, get, ret. fields.
    destruct (bool_decide _); fields; rewrite ?Hstat; same_service;
      by rewrite delete_insert_eq. }
  split; [exact Hpair |]. split; [| split].
  - rewrite Hpair. split.
    + intros E. apply (f_equal clientMessengers) in E. fields.
      rewrite <- E. apply lookup_delete_eq.
    + intros Hnew. same_service. by apply delete_id.
  - intros Hnew. unfold exec. rewrite Hlive.
    unfold handler, handleMessage, bind, get. by rewrite Hnew.
  - intros earlier. unfold run. cbn [foldl].
    rewrite (Hregister earlier s) by done.
    rewrite Hregister by done. fields.
    split; [apply insert_insert_eq | reflexivity].
Qed.

(** ** Configurations that cannot be used *)

Lemma broadcast_live s t event :
  liveClients t = liveClients s → broadcast t event = broadcast s event.
Proof. unfold broadcast. by intros ->. Qed.

(** The clients a broadcast reaches are those it reached before the
    registry was pruned. *)
Ltac live :=
  first [ reflexivity
        | apply liveClients_pruned; fields;
          [first [reflexivity | live] | reflexivity] ].

Ltac broadcasts s :=
  repeat match goal with
         | |- context [broadcast ?t ?e] =>
             tryif constr_eq t s then fail
             else rewrite (broadcast_live s t e) by live
         end.

(** X6. A connect with a configuration that is blank, or that is no
    JSON document, goes to Connecting and back to Disconnected without
    launching a coroutine.  Every live client is sent the error
    Invalid VPN config, after the error of the parser when the text is
    not blank; the descriptive fields are reset; and a service that is
    not bound asks to stop. *)
Theorem unusable_config_is_rejected vpnConfig s :
  reachable JSONObject_new s →
  protocolState s ≠ CONNECTED → protocolState s ≠ CONNECTING →
  ∀ errors,
    (isBlank vpnConfig = true ∧ errors = [])
    ∨ (isBlank vpnConfig = false
       ∧ ∃ m, JSONObject_new vpnConfig = inl m
              ∧ errors
                = broadcast s (ERROR ("Invalid VPN config json format: "
                                      +:+ m))) →
    let r := connectToVpn JSONObject_new vpnConfig s in
    r.1 = Ok tt
    ∧ protocolState r.2 = DISCONNECTED
    ∧ coroutines r.2 = coroutines s
    ∧ connectionJob r.2 = connectionJob s
    ∧ serverName r.2 = None
    ∧ serverIndex r.2 = -1
    ∧ effects r.2
      = effects s
        ++ broadcast s (STATUS_CHANGED CONNECTING)
        ++ [StoreVpnState CONNECTING (serverName s) (serverIndex s)]
        ++ errors
        ++ broadcast s (ERROR "Invalid VPN config")
        ++ [UnbindNetworkListener]
        ++ (if isServiceBound s then []
            else [KillProcessAt (clock s + STOP_SERVICE_TIMEOUT); StopSelf])
        ++ broadcast s (STATUS_CHANGED DISCONNECTED)
        ++ [StoreVpnState DISCONNECTED None (-1)].
Proof.
  intros Hs Hc1 Hc2 errors Hparse. apply invariant_reachable in Hs.
  destruct Hs as [_ _ Hstat _ _].
  unfold connectToVpn, bind, get. rewrite guard_open by done.
  rewrite setProtocolState_changed by done.
  assert (Hlive : liveClients (transitioned CONNECTING s) = liveClients s)
    by (by apply liveClients_pruned).
  unfold parseConfigToJson.
  destruct Hparse as [[Hblank ->] | (Hblank & m & Hm & ->)];
    rewrite Hblank; [| rewrite Hm];
    unfold onError, bind, ret; rewrite ?send_spec;
    rewrite saveServerData_None; rewrite send_spec;
    (rewrite setProtocolState_changed by (fields; done));
    cbv zeta; fields;
    (do 6 (split; [reflexivity |]));
    unfold transition; fields;
    broadcasts s; rewrite <- ?app_assoc; cbn [app]; reflexivity.
Qed.

(** ** The preferences *)

Lemma preserves_resume_of (I : Service → Prop) j outcome :
  (∀ c, preserves I (statement c outcome)) →
  (∀ e, preserves I (connectionExceptionHandler e)) →
  (∀ l s, I s → I (set_coroutines l s)) →
  preserves I (resume j outcome).
Proof.
  intros Hstatement Hhandler Hframe s Hs. unfold resume, bind, get.
  destruct (coroutines s !! j) as [c|]; [| done].
  pose proof (Hstatement c s Hs) as Hc.
  destruct (statement c outcome s) as [[c'|e] s']; cbn [snd] in Hc.
  - by apply Hframe.
  - by apply Hhandler, Hframe.
Qed.

Lemma preserves_exec (I : Service → Prop) ev s :
  preserves I (handler JSONObject_new ev) →
  (∀ e t, I t → I (set_uncaught e t)) →
  I s → I (exec JSONObject_new ev s).
Proof.
  intros Hev Hframe Hs. unfold exec. destruct (uncaught s); [done |].
  specialize (Hev s Hs).
  destruct (handler JSONObject_new ev s) as [[[]|e] s']; cbn [snd] in Hev;
    [done | by apply Hframe].
Qed.

Lemma uncaught_exec ev s :
  uncaught (exec JSONObject_new ev s) = None → uncaught s = None.
Proof.
  unfold exec. destruct (uncaught s) eqn:E; [by rewrite E | done].
Qed.

Lemma uncaught_run evs s :
  uncaught (run JSONObject_new evs s) = None → uncaught s = None.
Proof.
  revert s. induction evs as [|ev evs IH]; intros s H; [done |].
  by apply (uncaught_exec ev), IH.
Qed.

Section Preferences.

Context (key : string) (v : option PrefValue).

Lemma kept_Prefs_save_String k value :
  k ≠ key → preserves (kept key v) (Prefs_save_String k value).
Proof.
  intros Hk s Hs. unfold kept in *. cbn [Prefs_save_String modify snd].
  fields. destruct value.
  - by rewrite lookup_insert_ne.
  - by rewrite lookup_delete_ne.
Qed.

Lemma kept_Prefs_save_Int k value :
  k ≠ key → preserves (kept key v) (Prefs_save_Int k value).
Proof.
  intros Hk s Hs. unfold kept in *. cbn [Prefs_save_Int modify snd].
  fields. by rewrite lookup_insert_ne.
Qed.

Lemma kept_setProtocolState state :
  preserves (kept key v) (setProtocolState state).
Proof.
  unfold setProtocolState, protocolStateHandler, stopSendingStatistics,
    stopService, launchSendingStatistics, bindNetworkListener,
    unbindNetworkListener, send, emit, cancel.
  keep.
Qed.

Lemma kept_connectionExceptionHandler e :
  preserves (kept key v) (connectionExceptionHandler e).
Proof.
  unfold connectionExceptionHandler, onError, send.
  pose proof kept_setProtocolState. keep.
Qed.

Lemma kept_statement c outcome : preserves (kept key v) (statement c outcome).
Proof.
  unfold statement, connectionStatement, disconnectionStatement,
    reconnectionStatement, getString, getProtocol, stopService, emit.
  keep.
Qed.

Lemma kept_resume j outcome : preserves (kept key v) (resume j outcome).
Proof.
  apply preserves_resume_of;
    auto using kept_statement, kept_connectionExceptionHandler.
Qed.

Lemma kept_disconnect : preserves (kept key v) disconnect.
Proof. unfold disconnect, launch. pose proof kept_setProtocolState. keep. Qed.

Lemma kept_reconnect : preserves (kept key v) reconnect.
Proof. unfold reconnect, launch. pose proof kept_setProtocolState. keep. Qed.

Hypothesis not_name : key ≠ PREFS_SERVER_NAME.
Hypothesis not_index : key ≠ PREFS_SERVER_INDEX.

Lemma kept_connectToVpn vpnConfig :
  preserves (kept key v) (connectToVpn JSONObject_new vpnConfig).
Proof.
  unfold connectToVpn, parseConfigToJson, saveServerData, asString, asInt,
    checkPermission, onError, send, emit, launch.
  pose proof kept_setProtocolState.
  pose proof (λ value, kept_Prefs_save_String PREFS_SERVER_NAME value
                         (not_eq_sym not_name)).
  pose proof (λ value, kept_Prefs_save_Int PREFS_SERVER_INDEX value
                         (not_eq_sym not_index)).
  keep.
Qed.

Lemma kept_handler ev :
  (key = PREFS_CONFIG_KEY → configOf ev = None) →
  preserves (kept key v) (handler JSONObject_new ev).
Proof.
  intros Hev.
  pose proof kept_setProtocolState. pose proof kept_connectToVpn.
  pose proof kept_disconnect. pose proof kept_reconnect.
  pose proof kept_resume.
  destruct ev as [lastConfig vpnConfig| | | | |replyTo action| | | | | |];
    unfold handler, onStartCommand, onBind, onUnbind, onRebind, onRevoke,
      handleMessage, launchSendingStatistics, stopSendingStatistics,
      stopService, send_to, emit, cancel, Prefs_load_String;
    try (by keep).
  - destruct lastConfig, vpnConfig as [text|]; unfold connect, Prefs_load_String; try (by keep).
    apply preserves_bind; [| intros ?; keep].
    apply preserves_bind; [| done].
    apply kept_Prefs_save_String. intros E. symmetry in E.
    by specialize (Hev E).
  - destruct action as [|  | [text|] | | |]; unfold connect, Prefs_load_String; try (by keep).
    apply preserves_bind; [| done].
    apply kept_Prefs_save_String. intros E. symmetry in E.
    by specialize (Hev E).
Qed.

End Preferences.

Lemma kept_exec ev s key :
  key ≠ PREFS_SERVER_NAME →
  key ≠ PREFS_SERVER_INDEX →
  (key = PREFS_CONFIG_KEY → configOf ev = None) →
  kept key (prefs s !! key) (exec JSONObject_new ev s).
Proof.
  intros Hname Hindex Hev.
  apply (preserves_exec (kept key (prefs s !! key))); [| done | done].
  by apply kept_handler.
Qed.

(** X7. The service writes three keys of the preferences and no
    other: whatever happens to it, every key but the stored server name
    and the stored server index keeps its value, and so does the stored
    configuration unless the event is a connect that brings a
    configuration. *)
Theorem only_three_keys_are_written ev s key :
  key ≠ PREFS_SERVER_NAME →
  key ≠ PREFS_SERVER_INDEX →
  (key = PREFS_CONFIG_KEY → configOf ev = None) →
  prefs (exec JSONObject_new ev s) !! key = prefs s !! key.
Proof. apply kept_exec. Qed.

Lemma config_text_written ev s text :
  uncaught s = None →
  configOf ev = Some text →
  prefs (exec JSONObject_new ev s) !! PREFS_CONFIG_KEY = Some (PString text).
Proof.
  intros Hlive Hev.
  assert (Hconnect :
    kept PREFS_CONFIG_KEY (Some (PString text))
      (connect JSONObject_new (Some text) s).2).
  { unfold connect, bind at 1. unfold Prefs_save_String at 1, modify.
    apply kept_connectToVpn; [done | done |]. unfold kept. fields.
    apply lookup_insert_eq. }
  unfold exec. rewrite Hlive.
  destruct ev as [[] [?|]| | | | |replyTo [| |[?|]| | |]| | | | | |];
    try discriminate Hev; injection Hev as ->;
    unfold handler, handleMessage, onStartCommand, emit, modify;
    try unfold bind at 1;
    destruct (connect JSONObject_new (Some text) s) as [[[]|e] s'];
    exact Hconnect.
Qed.

Lemma config_text_stored evs s :
  uncaught (run JSONObject_new evs s) = None →
  prefs (run JSONObject_new evs s) !! PREFS_CONFIG_KEY
  = match lastConfig evs with
    | Some text => Some (PString text)
    | None => prefs s !! PREFS_CONFIG_KEY
    end.
Proof.
  revert s. induction evs as [|ev evs IH]; intros s Hlive; [done |].
  change (run JSONObject_new (ev :: evs) s)
    with (run JSONObject_new evs (exec JSONObject_new ev s)) in *.
  rewrite IH by done. cbn [lastConfig].
  destruct (lastConfig evs) as [text|]; [done |].
  destruct (configOf ev) as [text|] eqn:Hev.
  - apply config_text_written; [| done].
    by apply (uncaught_exec ev), (uncaught_run evs).
  - apply kept_exec; by rewrite ?Hev.
Qed.

(** X8. A connect that brings no configuration connects with the
    text of the latest connect that brought one, whatever has happened
    since. *)
Theorem last_config_is_replayed evs s text :
  uncaught (run JSONObject_new evs s) = None →
  lastConfig evs = Some text →
  let s' := run JSONObject_new evs s in
  connect JSONObject_new None s' = connectToVpn JSONObject_new text s'.
Proof.
  intros Hlive Hlast s'.
  pose proof (config_text_stored evs s Hlive) as Hstored.
  rewrite Hlast in Hstored. fold s' in Hstored.
  unfold connect, Prefs_load_String, bind, gets. by rewrite Hstored.
Qed.


(** ** The registry of protocols, at all times *)

(** The three ways [getProtocol] ends. *)
Lemma getProtocol_spec protocolName s :
  (∃ p, protocolCache s !! protocolName = Some p
        ∧ getProtocol protocolName s = (Ok p, s))
  ∨ (∃ p, protocolCache s !! protocolName = None
          ∧ protocolName = nameOf p
          ∧ getProtocol protocolName s
            = (Ok p, set_protocolCache
                       (<[protocolName := p]> (protocolCache s))
                       (set_effects (effects s ++ [Initialize p]) s)))
  ∨ (∃ e, protocolCache s !! protocolName = None
          ∧ ¬ supported protocolName
          ∧ class e = IllegalArgumentException
          ∧ message e = Some ("Protocol '" +:+ protocolName +:+ "' not found")
          ∧ getProtocol protocolName s = (Throw e, s)).
Proof.
  unfold getProtocol, bind, get.
  destruct (protocolCache s !! protocolName) as [q|] eqn:Hq.
  - left. by exists q.
  - right. unfold supported.
    repeat case_decide; unfold ret, throw, emit, modify; fields;
      try (left; eexists; by repeat split).
    right. eexists. repeat split; try done. tauto.
Qed.

Lemma coherent_clear : preserves coherent (modify (set_protocol None)).
Proof. intros s [Hcache _]. by split. Qed.

Lemma coherent_insert p s :
  coherent s →
  protocolCache s !! nameOf p = None →
  coherent (set_protocolCache (<[nameOf p := p]> (protocolCache s))
              (set_effects (effects s ++ [Initialize p]) s)).
Proof.
  intros [Hcache Hactive] Hnew. split; fields.
  - intros n q. rewrite lookup_insert. case_decide as E.
    + intros [= <-]. by rewrite <- E.
    + apply Hcache.
  - intros q Hq. apply Hactive in Hq. rewrite lookup_insert_ne; [done |].
    intros E. rewrite E in Hnew. by rewrite Hnew in Hq.
Qed.

Lemma coherent_getProtocol protocolName : preserves coherent (getProtocol protocolName).
Proof.
  intros s Hs.
  destruct (getProtocol_spec protocolName s)
    as [(p & _ & ->) | [(p & Hnew & -> & ->) | (e & _ & _ & _ & _ & ->)]];
    cbn [snd]; try done.
  by apply coherent_insert.
Qed.

Lemma coherent_setProtocolState state :
  preserves coherent (setProtocolState state).
Proof.
  unfold setProtocolState, protocolStateHandler, stopSendingStatistics,
    stopService, launchSendingStatistics, bindNetworkListener,
    unbindNetworkListener, send, emit, cancel.
  keep.
Qed.

Lemma coherent_connectionExceptionHandler e :
  preserves coherent (connectionExceptionHandler e).
Proof.
  unfold connectionExceptionHandler, onError, send.
  pose proof coherent_setProtocolState. pose proof coherent_clear. keep.
Qed.

Lemma coherent_statement c outcome : preserves coherent (statement c outcome).
Proof.
  destruct c as [config pc|pc|pc|]; [destruct pc | | |];
    try (unfold statement, connectionStatement, disconnectionStatement,
           reconnectionStatement, stopService, emit;
         pose proof coherent_clear; by keep).
  (* protocol = getProtocol(..) *)
  intros s Hs.
  unfold statement, connectionStatement, getString, bind.
  destruct (config !! "protocol") as [v|]; [| done]. unfold ret.
  destruct (getProtocol_spec (JSON_toString v) s)
    as [(p & Hp & ->) | [(p & Hnew & Hname & ->) | (e & _ & _ & _ & _ & ->)]];
    cbn [snd modify]; try done.
  - destruct Hs as [Hcache Hactive]. split; fields; [done |].
    intros q [= <-]. by rewrite <- (Hcache _ _ Hp).
  - rewrite Hname in *. apply (coherent_insert p) in Hs; [| done].
    destruct Hs as [Hcache Hactive]. split; fields; [done |].
    intros q [= <-]. apply lookup_insert_eq.
Qed.

Lemma coherent_resume j outcome : preserves coherent (resume j outcome).
Proof.
  apply preserves_resume_of;
    auto using coherent_statement, coherent_connectionExceptionHandler.
Qed.

Lemma coherent_handler ev : preserves coherent (handler JSONObject_new ev).
Proof.
  pose proof coherent_setProtocolState. pose proof coherent_resume.
  unfold handler, onStartCommand, onBind, onUnbind, onRebind, onRevoke,
    handleMessage, connect, connectToVpn, disconnect, reconnect,
    parseConfigToJson, saveServerData, asString, asInt, checkPermission,
    onError, launchSendingStatistics, stopSendingStatistics, stopService,
    send_to, send, emit, launch, cancel, Prefs_load_String, Prefs_save_String,
    Prefs_save_Int.
  keep.
Qed.

Lemma coherent_run evs s :
  coherent s → coherent (run JSONObject_new evs s).
Proof.
  revert s. induction evs as [|ev evs IH]; intros s Hs; [done |].
  apply IH, preserves_exec; [apply coherent_handler | done | done].
Qed.

Lemma coherent_reachable s : reachable JSONObject_new s → coherent s.
Proof.
  intros (stored & granted & evs & ->). apply coherent_run.
  unfold created, loadServerData, Prefs_load_String, Prefs_load_Int, bind,
    gets, modify, get, ret.
  fields. destruct (isBlank _); fields; by split.
Qed.

(** X10. At all times the registry holds each implementation under
    the name it is constructed for, only supported names are in it, and
    the active protocol, when there is one, is the instance the
    registry holds: no second instance of an implementation is ever in
    use. *)
Theorem registry_holds_the_active_protocol s :
  reachable JSONObject_new s →
  (∀ protocolName p,
     protocolCache s !! protocolName = Some p →
     supported protocolName ∧ protocolName = nameOf p)
  ∧ ∀ p, protocol s = Some p → protocolCache s !! nameOf p = Some p.
Proof.
  intros Hs. pose proof (coherent_reachable s Hs) as [Hcache Hactive].
  apply invariant_reachable in Hs. destruct Hs as [_ _ _ _ Hsupported].
  split; [| done]. intros n p Hp. split; [by eapply Hsupported | by apply Hcache].
Qed.

(** ** The coroutine of a connect *)

Lemma exec_resume_statement j outcome c s :
  uncaught s = None →
  coroutines s !! j = Some c →
  exec JSONObject_new (Resume j outcome) s
  = match statement c outcome s with
    | (Ok c', s') => set_coroutines (<[j := c']> (coroutines s')) s'
    | (Throw e, s') =>
        match connectionExceptionHandler e
                (set_coroutines (<[j := Completed]> (coroutines s')) s') with
        | (Ok _, s'') => s''
        | (Throw e', s'') => set_uncaught (Some e') s''
        end
    end.
Proof.
  intros Hlive Hj. unfold exec. rewrite Hlive.
  unfold handler, resume, bind, get. rewrite Hj.
  by destruct (statement c outcome s) as [[c'|e] s'].
Qed.

(** X11. When the configuration has no protocol entry, the coroutine
    of the connect fails at the lookup: it completes without a call
    into a protocol or into the registry, the state is Disconnected, no
    protocol is active, and every live client is sent one ERROR, which
    says that the configuration has no value for protocol. *)
Theorem config_without_protocol_fails_connect s j config outcome :
  reachable JSONObject_new s →
  uncaught s = None →
  coroutines s !! j = Some (ConnectionJob config CResolve) →
  config !! "protocol" = None →
  let s' := exec JSONObject_new (Resume j outcome) s in
  protocolState s' = DISCONNECTED
  ∧ protocol s' = None
  ∧ uncaught s' = None
  ∧ coroutines s' = <[j := Completed]> (coroutines s)
  ∧ protocolCache s' = protocolCache s
  ∧ ∃ delta,
      effects s' = effects s ++ delta
      ∧ Forall (λ e, isProtocolCall e = false) delta
      ∧ List.filter isError delta
        = broadcast s (ERROR "VPN config format error: No value for protocol").
Proof.
  intros Hs Hlive Hj Hv s'. apply invariant_reachable in Hs.
  destruct Hs as [_ _ Hstat _ _].
  unfold s'. rewrite (exec_resume_statement _ _ _ _ Hlive Hj).
  unfold statement, connectionStatement, getString, bind. rewrite Hv.
  unfold throw.
  set (t := set_coroutines _ s).
  destruct (disconnected_spec t)
    as (Hstate & Hclients & Hcache & Hjobs & Hcaught & delta & Heffects
        & Herrors & Hquiet).
  unfold connectionExceptionHandler, bind.
  rewrite setProtocolState_DISCONNECTED by done.
  unfold modify, onError. cbn [class message template default].
  rewrite send_spec. fields.
  rewrite Hstate, Hcaught, Hjobs, Hcache.
  do 5 (split; [first [reflexivity | exact Hlive] |]).
  exists (delta ++ broadcast s (ERROR "VPN config format error: No value for protocol")).
  rewrite Heffects, <- app_assoc.
  change (broadcast (set_protocol None (disconnected t)))
    with (broadcast (disconnected t)).
  rewrite (broadcast_live t) by done.
  split; [reflexivity |]. split.
  - apply Forall_app. split; [done | apply broadcast_quiet].
  - by rewrite List.filter_app, Herrors, errors_of_broadcast.
Qed.

Lemma startVpn_called_and_left j config p o s :
  uncaught s = None →
  coroutines s !! j = Some (ConnectionJob config CStart) →
  protocol s = Some p →
  run JSONObject_new [Resume j o; Resume j None] s
  = set_coroutines (<[j := Completed]> (coroutines s))
      (set_effects (effects s ++ [StartVpn p; StartVpnReturned p]) s).
Proof.
  intros Hlive Hj Hp. unfold run. cbn [foldl].
  rewrite (exec_resume_statement _ _ _ _ Hlive Hj).
  unfold statement, connectionStatement, bind, get. rewrite Hp.
  unfold emit, modify, ret. fields.
  erewrite exec_resume_statement;
    [| exact Hlive
     | fields; apply list_lookup_insert_eq; by eapply lookup_lt_Some ].
  unfold statement, connectionStatement, emit, bind, modify, ret. fields.
  same_service.
  - by rewrite list_insert_insert_eq.
  - by rewrite <- app_assoc.
Qed.

(** X12. When the configuration names a supported protocol, the
    coroutine of the connect resolves the name, makes the instance of
    the registry the active protocol and calls its [startVpn]:
    [initialize] comes first when the instance is new and is left out
    when the name was resolved before.  When [startVpn] returns the
    coroutine completes; the state is still the one it found, for it is
    the protocol that reports Connected. *)
Theorem connection_coroutine_starts_the_protocol s j config v o1 o2 :
  reachable JSONObject_new s →
  uncaught s = None →
  coroutines s !! j = Some (ConnectionJob config CResolve) →
  config !! "protocol" = Some v →
  supported (JSON_toString v) →
  let s' := run JSONObject_new [Resume j o1; Resume j o2; Resume j None] s in
  ∃ p,
    nameOf p = JSON_toString v
    ∧ protocol s' = Some p
    ∧ protocolCache s' !! nameOf p = Some p
    ∧ coroutines s' = <[j := Completed]> (coroutines s)
    ∧ protocolState s' = protocolState s
    ∧ uncaught s' = None
    ∧ effects s'
      = effects s
        ++ match protocolCache s !! JSON_toString v with
           | Some _ => []
           | None => [Initialize p]
           end
        ++ [StartVpn p; StartVpnReturned p].
Proof.
  intros Hs Hlive Hj Hv Hname s'.
  pose proof (coherent_reachable s Hs) as [Hcache _].
  assert (Hlt : (j < length (coroutines s))%nat) by (by eapply lookup_lt_Some).
  unfold s'.
  change (run JSONObject_new [Resume j o1; Resume j o2; Resume j None] s)
    with (run JSONObject_new [Resume j o2; Resume j None]
            (exec JSONObject_new (Resume j o1) s)).
  rewrite (exec_resume_statement _ _ _ _ Hlive Hj).
  unfold statement, connectionStatement, getString, bind. rewrite Hv.
  unfold ret.
  destruct (getProtocol_spec (JSON_toString v) s)
    as [(p & Hp & ->) | [(p & Hnew & Hp & ->) | (e & _ & Hno & _)]];
    [| | done]; unfold modify; exists p;
    (erewrite startVpn_called_and_left;
       [| exact Hlive | fields; by apply list_lookup_insert_eq | reflexivity]);
    fields; rewrite ?Hp, ?Hnew, ?list_insert_insert_eq.
  - apply Hcache in Hp as Hn. rewrite <- Hn.
    repeat (split; [first [reflexivity | assumption] |]). reflexivity.
  - rewrite Hp in Hnew. rewrite Hnew, lookup_insert_eq, <- app_assoc.
    repeat (split; [first [reflexivity | assumption] |]). reflexivity.
Qed.

(** ** Two coroutines that wait for each other *)

Section Deadlock.

Context (a b : Job) (config : JSONObject).

Lemma deadlocked_stopSendingStatistics :
  preserves (deadlocked a b config) stopSendingStatistics.
Proof.
  intros s Hs. unfold stopSendingStatistics, bind, get.
  destruct Hs as [Hstat ?]. by rewrite Hstat.
Qed.

Lemma deadlocked_launch c : preserves (deadlocked a b config) (launch c).
Proof.
  intros s (Hstat & Ha & Hb). unfold deadlocked. cbn [launch bind get modify ret snd].
  fields. split; [done |]. split; by apply lookup_app_l_Some.
Qed.

Lemma deadlocked_setProtocolState state :
  preserves (deadlocked a b config) (setProtocolState state).
Proof.
  pose proof deadlocked_stopSendingStatistics.
  unfold setProtocolState, protocolStateHandler, stopService,
    launchSendingStatistics, bindNetworkListener, unbindNetworkListener,
    send, emit.
  keep.
Qed.

Lemma deadlocked_connectionExceptionHandler e :
  preserves (deadlocked a b config) (connectionExceptionHandler e).
Proof.
  pose proof deadlocked_setProtocolState.
  unfold connectionExceptionHandler, onError, send. keep.
Qed.

Lemma deadlocked_statement c outcome :
  preserves (deadlocked a b config) (statement c outcome).
Proof.
  unfold statement, connectionStatement, disconnectionStatement,
    reconnectionStatement, getString, getProtocol, stopService, emit.
  keep.
Qed.

Lemma deadlocked_resume j outcome :
  preserves (deadlocked a b config) (resume j outcome).
Proof.
  intros s Hs. pose proof Hs as (Hstat & Ha & Hb).
  assert (Hwaits : ∀ i c, coroutines s !! i = Some c → c ≠ Completed →
                          isCompleted s i = false).
  { intros i c Hi Hc. unfold isCompleted. rewrite Hi. by destruct c. }
  destruct (decide (j = a)) as [-> | Hja]; [| destruct (decide (j = b)) as [-> | Hjb]].
  - unfold resume, bind, get. rewrite Ha.
    unfold statement, connectionStatement, bind, get.
    rewrite (Hwaits b _ Hb) by done. unfold ret. cbn [snd].
    by rewrite list_insert_id.
  - unfold resume, bind, get. rewrite Hb.
    unfold statement, disconnectionStatement, bind, get.
    rewrite (Hwaits a _ Ha) by done. unfold ret. cbn [snd].
    by rewrite list_insert_id.
  - assert (Hframe : ∀ c t, deadlocked a b config t →
              deadlocked a b config
                (set_coroutines (<[j := c]> (coroutines t)) t)).
    { intros c t (H1 & H2 & H3). unfold deadlocked. fields.
      by rewrite !list_lookup_insert_ne. }
    unfold resume, bind, get.
    destruct (coroutines s !! j) as [c|]; [| done].
    pose proof (deadlocked_statement c outcome s Hs) as Hc.
    destruct (statement c outcome s) as [[c'|e] s']; cbn [snd] in Hc.
    + by apply Hframe.
    + by apply deadlocked_connectionExceptionHandler, Hframe.
Qed.

Lemma deadlocked_handler ev :
  preserves (deadlocked a b config) (handler JSONObject_new ev).
Proof.
  pose proof deadlocked_setProtocolState. pose proof deadlocked_resume.
  pose proof deadlocked_stopSendingStatistics. pose proof deadlocked_launch.
  unfold handler, onStartCommand, onBind, onUnbind, onRebind, onRevoke,
    handleMessage, connect, connectToVpn, disconnect, reconnect,
    parseConfigToJson, saveServerData, asString, asInt, checkPermission,
    onError, launchSendingStatistics, stopService,
    send_to, send, emit, Prefs_load_String, Prefs_save_String,
    Prefs_save_Int.
  keep.
Qed.

Lemma deadlocked_run evs s :
  deadlocked a b config s → deadlocked a b config (run JSONObject_new evs s).
Proof.
  revert s. induction evs as [|ev evs IH]; intros s Hs; [done |].
  apply IH, preserves_exec; [apply deadlocked_handler | done | done].
Qed.

End Deadlock.

(** X13. Once the coroutine of a connect has joined the coroutine of
    a disconnect that has joined it in turn, neither runs again,
    whatever happens afterwards: both stay at the join, so the
    [startVpn] of that connect and the [stopVpn] of that disconnect are
    never called. *)
Theorem mutual_join_never_ends s a b config evs :
  reachable JSONObject_new s →
  coroutines s !! a = Some (ConnectionJob config (CJoining b)) →
  coroutines s !! b = Some (DisconnectionJob (DJoining a)) →
  let s' := run JSONObject_new evs s in
  coroutines s' !! a = Some (ConnectionJob config (CJoining b))
  ∧ coroutines s' !! b = Some (DisconnectionJob (DJoining a)).
Proof.
  intros Hs Ha Hb. apply invariant_reachable in Hs.
  destruct Hs as [_ _ Hstat _ _].
  by destruct (deadlocked_run a b config evs s) as (_ & ? & ?).
Qed.

(** ** A connect that goes through *)

Lemma connectToVpn_launches vpnConfig config s :
  statisticsSendingJob s = None →
  protocolState s ≠ CONNECTED → protocolState s ≠ CONNECTING →
  isBlank vpnConfig = false →
  JSONObject_new vpnConfig = inr config →
  descriptive config = true →
  vpnPermission s = true →
  connectToVpn JSONObject_new vpnConfig s
  = (Ok tt,
     set_connectionJob (Some (length (coroutines s)))
       (set_coroutines (coroutines s ++ [ConnectionJob config CJoin])
          (saved (description config) (index config)
             (transitioned CONNECTING s)))).
Proof.
  intros Hstat Hc1 Hc2 Hblank Hparse Hdesc Hgranted.
  unfold connectToVpn, bind, get. rewrite guard_open by done.
  rewrite setProtocolState_changed by done.
  unfold parseConfigToJson. rewrite Hblank, Hparse. unfold ret.
  rewrite saveServerData_Some by done.
  unfold checkPermission, bind, get. fields. rewrite Hgranted.
  cbn [negb]. unfold ret. cbn [negb].
  reflexivity.
Qed.

(** X14. A connect with a configuration that parses, while the VPN
    permission is held and the state is neither Connected nor
    Connecting, moves the state to Connecting, stores the name and the
    index of the server, and launches one coroutine, kept in
    [connectionJob]; no call into a protocol is made before that
    coroutine runs, and a second connect right behind the first
    launches nothing more.  The Connecting state goes to the clients
    and to [VpnStateStore] with the name and the index of the server of
    the connect before. *)
Theorem connect_launches_one_coroutine vpnConfig config s :
  reachable JSONObject_new s →
  protocolState s ≠ CONNECTED → protocolState s ≠ CONNECTING →
  isBlank vpnConfig = false →
  JSONObject_new vpnConfig = inr config →
  descriptive config = true →
  vpnPermission s = true →
  let r := connectToVpn JSONObject_new vpnConfig s in
  r.1 = Ok tt
  ∧ protocolState r.2 = CONNECTING
  ∧ coroutines r.2 = coroutines s ++ [ConnectionJob config CJoin]
  ∧ connectionJob r.2 = Some (length (coroutines s))
  ∧ serverName r.2 = description config
  ∧ serverIndex r.2 = index config
  ∧ protocol r.2 = protocol s
  ∧ effects r.2
    = effects s
      ++ broadcast s (STATUS_CHANGED CONNECTING)
      ++ [StoreVpnState CONNECTING (serverName s) (serverIndex s)]
  ∧ ∀ other, connectToVpn JSONObject_new other r.2 = (Ok tt, r.2).
Proof.
  intros Hs Hc1 Hc2 Hblank Hparse Hdesc Hgranted.
  apply invariant_reachable in Hs. destruct Hs as [_ _ Hstat _ _].
  rewrite (connectToVpn_launches vpnConfig config s) by done.
  cbv zeta. fields. do 8 (split; [reflexivity |]).
  intros other. apply connectToVpn_guarded. fields. by right.
Qed.

(** ** A disconnect right behind a connect *)

(** X15. When a disconnect comes right behind a connect that has
    launched its coroutine, and neither coroutine has run its first
    statement before, each coroutine finds the other in the field it
    joins: in whichever order the two run, the coroutine of the connect
    waits for the coroutine of the disconnect and the coroutine of the
    disconnect waits for the coroutine of the connect. *)
Theorem hasty_disconnect_joins_both_ways vpnConfig config s client o1 o2 :
  reachable JSONObject_new s →
  uncaught s = None →
  protocolState s ≠ CONNECTED → protocolState s ≠ CONNECTING →
  isBlank vpnConfig = false →
  JSONObject_new vpnConfig = inr config →
  descriptive config = true →
  vpnPermission s = true →
  let c := length (coroutines s) in
  let d := S c in
  ∀ order,
    order = [Resume c o1; Resume d o2] ∨ order = [Resume d o2; Resume c o1] →
    let s' := run JSONObject_new
                (HandleMessage client (CONNECT (Some vpnConfig))
                 :: HandleMessage client DISCONNECT :: order) s in
    coroutines s' !! c = Some (ConnectionJob config (CJoining d))
    ∧ coroutines s' !! d = Some (DisconnectionJob (DJoining c))
    ∧ List.filter isProtocolCall (effects s')
      = List.filter isProtocolCall (effects s).
Proof.
  intros Hs Hlive Hc1 Hc2 Hblank Hparse Hdesc Hgranted c d order Horder s'.
  apply invariant_reachable in Hs. destruct Hs as [_ _ Hstat _ _].
  unfold s'.
  change (run JSONObject_new (_ :: _ :: order) s)
    with (run JSONObject_new order
            (exec JSONObject_new (HandleMessage client DISCONNECT)
               (exec JSONObject_new
                  (HandleMessage client (CONNECT (Some vpnConfig))) s))).
  set (s1 := exec JSONObject_new
               (HandleMessage client (CONNECT (Some vpnConfig))) s).
  assert (Hs1 : statisticsSendingJob s1 = None
                ∧ uncaught s1 = None
                ∧ protocolState s1 = CONNECTING
                ∧ coroutines s1 = coroutines s ++ [ConnectionJob config CJoin]
                ∧ connectionJob s1 = Some c
                ∧ List.filter isProtocolCall (effects s1)
                  = List.filter isProtocolCall (effects s)).
  { assert (E : s1 = set_connectionJob (Some c)
                     (set_coroutines (coroutines s ++ [ConnectionJob config CJoin])
                        (saved (description config) (index config)
                           (transitioned CONNECTING
                              (set_prefs
                                 (<[PREFS_CONFIG_KEY := PString vpnConfig]>
                                    (prefs s)) s))))).
    { unfold s1, exec. rewrite Hlive.
      unfold handler, handleMessage, connect. unfold bind at 1.
      unfold Prefs_save_String at 1, modify.
      by rewrite (connectToVpn_launches vpnConfig config) by (fields; done). }
    rewrite E. fields. do 5 (split; [done |]).
    rewrite List.filter_app.
    rewrite (filter_none isProtocolCall (transition _ _)); [by rewrite app_nil_r |].
    eapply Forall_impl; [apply transition_quiet |]. by intros ? []. }
  clearbody s1. destruct Hs1 as (Hstat1 & Hlive1 & Hstate1 & Hjobs1 & Hjob1 & Hcalls1).
  set (s2 := exec JSONObject_new (HandleMessage client DISCONNECT) s1).
  assert (Hs2 : uncaught s2 = None
                ∧ coroutines s2
                  = coroutines s ++ [ConnectionJob config CJoin;
                                     DisconnectionJob DJoin]
                ∧ connectionJob s2 = Some c
                ∧ disconnectionJob s2 = Some d
                ∧ List.filter isProtocolCall (effects s2)
                  = List.filter isProtocolCall (effects s)).
  { assert (E : s2 = set_disconnectionJob (Some (length (coroutines s1)))
                     (set_coroutines (coroutines s1 ++ [DisconnectionJob DJoin])
                        (transitioned DISCONNECTING s1))).
    { unfold s2, exec. rewrite Hlive1.
      unfold handler, handleMessage, disconnect, bind, get, isUnknown,
        isDisconnected.
      rewrite Hstate1. cbn [bool_decide decide_rel orb].
      rewrite !bool_decide_eq_false_2 by done. cbn [orb].
      by rewrite setProtocolState_changed by (by rewrite ?Hstate1). }
    rewrite E. fields.
    rewrite Hjobs1, <- app_assoc, length_app, Nat.add_1_r.
    do 4 (split; [done |]).
    rewrite List.filter_app, Hcalls1.
    rewrite (filter_none isProtocolCall (transition _ _)); [by rewrite app_nil_r |].
    eapply Forall_impl; [apply transition_quiet |]. by intros ? []. }
  clearbody s2. destruct Hs2 as (Hlive2 & Hjobs2 & Hjob2 & Hdjob2 & Hcalls2).
  assert (Hc : ∀ rest, (coroutines s ++ rest) !! c = rest !! 0%nat).
  { intros rest. rewrite lookup_app_r by (unfold c; lia).
    by rewrite Nat.sub_diag. }
  assert (Hd : ∀ c0 rest, (coroutines s ++ c0 :: rest) !! d = rest !! 0%nat).
  { intros c0 rest. rewrite lookup_app_r by (unfold d, c; lia).
    unfold d, c. by replace (S _ - _)%nat with 1%nat by lia. }
  assert (Hinsc : ∀ c0 c0' rest,
            <[c := c0']> (coroutines s ++ c0 :: rest)
            = coroutines s ++ c0' :: rest).
  { intros. rewrite insert_app_r_alt by (unfold c; lia).
    by rewrite Nat.sub_diag. }
  assert (Hinsd : ∀ c0 d0 d0',
            <[d := d0']> (coroutines s ++ [c0; d0])
            = coroutines s ++ [c0; d0']).
  { intros. rewrite insert_app_r_alt by (unfold d, c; lia).
    unfold d, c. by replace (S _ - _)%nat with 1%nat by lia. }
  destruct Horder as [-> | ->]; unfold run; cbn [foldl].
  - erewrite (exec_resume_statement c);
      [| done | rewrite Hjobs2, Hc; reflexivity].
    unfold statement, connectionStatement, bind, get. rewrite Hdjob2.
    unfold ret.
    erewrite (exec_resume_statement d);
      [| done | fields; rewrite Hjobs2, Hinsc, Hd; reflexivity].
    unfold statement, disconnectionStatement, bind, get. fields.
    rewrite Hjob2. unfold ret. fields.
    rewrite Hjobs2, Hinsc, Hinsd, Hc, Hd. by repeat split.
  - erewrite (exec_resume_statement d);
      [| done | rewrite Hjobs2, Hd; reflexivity].
    unfold statement, disconnectionStatement, bind, get. rewrite Hjob2.
    unfold ret.
    erewrite (exec_resume_statement c);
      [| done | fields; rewrite Hjobs2, Hinsd, Hc; reflexivity].
    unfold statement, connectionStatement, bind, get. fields.
    rewrite Hdjob2. unfold ret. fields.
    rewrite Hjobs2, Hinsd, Hinsc, Hc, Hd. by repeat split.
Qed.

(** ** A descriptive field of the wrong type *)

Lemma saveServerData_mistyped config s :
  descriptive config = false →
  saveServerData (Some config) s = (Throw classCast, s)
  ∨ ∃ n, saveServerData (Some config) s
         = (Throw classCast, set_serverName n s).
Proof.
  unfold descriptive, saveServerData, opt. cbn [mbind option_bind].
  destruct (config !! "description") as [[]|];
    destruct (config !! "serverIndex") as [[]|]; intros H;
    try discriminate H; (by left) || (right; by eexists).
Qed.

Lemma created_fields stored granted :
  let s := created stored granted in
  uncaught s = None
  ∧ protocolState s = UNKNOWN
  ∧ statisticsSendingJob s = None
  ∧ prefs s = stored.
Proof.
  unfold created, loadServerData, Prefs_load_String, Prefs_load_Int, bind,
    gets, modify, get, ret.
  fields. by destruct (isBlank _).
Qed.

Lemma connectToVpn_mistyped vpnConfig config s :
  statisticsSendingJob s = None →
  protocolState s ≠ CONNECTED → protocolState s ≠ CONNECTING →
  isBlank vpnConfig = false →
  JSONObject_new vpnConfig = inr config →
  descriptive config = false →
  ∃ s', connectToVpn JSONObject_new vpnConfig s = (Throw classCast, s')
        ∧ protocolState s' = CONNECTING
        ∧ coroutines s' = coroutines s
        ∧ prefs s' = prefs s
        ∧ effects s' = effects s ++ transition CONNECTING s.
Proof.
  intros Hstat Hc1 Hc2 Hblank Hparse Hdesc.
  unfold connectToVpn, bind, get. rewrite guard_open by done.
  rewrite setProtocolState_changed by done.
  unfold parseConfigToJson. rewrite Hblank, Hparse. unfold ret.
  destruct (saveServerData_mistyped config (transitioned CONNECTING s) Hdesc)
    as [-> | [n ->]]; eexists; (split; [reflexivity |]); by fields.
Qed.

(** X16. A configuration whose description is no string, or whose
    server index is no integer, ends the process: the cast in
    [saveServerData] fails on the main thread, after the state has
    become Connecting and before a coroutine is launched, and nobody
    catches it.  No ERROR is sent, and the text is already stored as
    the last configuration, so that a service started again without a
    configuration fails in the same way. *)
Theorem mistyped_server_data_ends_the_process vpnConfig config s client :
  reachable JSONObject_new s →
  uncaught s = None →
  protocolState s ≠ CONNECTED → protocolState s ≠ CONNECTING →
  isBlank vpnConfig = false →
  JSONObject_new vpnConfig = inr config →
  descriptive config = false →
  let s' := exec JSONObject_new
              (HandleMessage client (CONNECT (Some vpnConfig))) s in
  uncaught s' = Some classCast
  ∧ protocolState s' = CONNECTING
  ∧ coroutines s' = coroutines s
  ∧ List.filter isError (effects s') = List.filter isError (effects s)
  ∧ (∀ ev, exec JSONObject_new ev s' = s')
  ∧ ∀ granted,
      uncaught (exec JSONObject_new (OnStartCommand true None)
                  (created (prefs s') granted))
      = Some classCast.
Proof.
  intros Hs Hlive Hc1 Hc2 Hblank Hparse Hdesc s'.
  apply invariant_reachable in Hs. destruct Hs as [_ _ Hstat _ _].
  set (t := set_prefs (<[PREFS_CONFIG_KEY := PString vpnConfig]> (prefs s)) s).
  destruct (connectToVpn_mistyped vpnConfig config t)
    as (t' & Ht' & Hstate & Hjobs & Hprefs & Heffects); try done.
  assert (E : s' = set_uncaught (Some classCast) t').
  { unfold s', exec. rewrite Hlive.
    unfold handler, handleMessage, connect. unfold bind at 1.
    unfold Prefs_save_String at 1, modify. fold t. by rewrite Ht'. }
  clearbody s'. subst s'. fields.
  do 3 (split; [done |]). split; [| split].
  - rewrite Heffects, List.filter_app, errors_of_transition.
    by rewrite app_nil_r.
  - intros ev. reflexivity.
  - intros granted.
    destruct (created_fields (prefs t') granted) as (H1 & H2 & H3 & H4).
    set (u := created (prefs t') granted) in *.
    destruct (connectToVpn_mistyped vpnConfig config u)
      as (u' & Hu' & _); try done; try (by rewrite H2).
    unfold exec. rewrite H1.
    unfold handler, onStartCommand, connect, Prefs_load_String.
    unfold bind at 1 2. unfold gets.
    rewrite H4, Hprefs. unfold t. fields.
    rewrite lookup_insert_eq. by rewrite Hu'.
Qed.

(** ** The state handed to [VpnStateStore] *)

Lemma lastStored_app l l' :
  lastStored (l ++ l')
  = match lastStored l' with
    | Some state => Some state
    | None => lastStored l
    end.
Proof.
  induction l as [|e l IH]; cbn [app lastStored].
  - by destruct (lastStored l').
  - rewrite IH. by destruct (lastStored l').
Qed.

Lemma lastStored_broadcast s event : lastStored (broadcast s event) = None.
Proof.
  unfold broadcast. induction (map_to_list (liveClients s)) as [|kv l IH];
    [done |].
  cbn [fmap list_fmap lastStored]. change (lastStored (_ <$> l)) with
    (lastStored ((λ kv, Sent kv.1 event) <$> l)).
  by rewrite IH.
Qed.

Lemma mirrored_effects (f : Service → list Effect) (g : Service → Service) :
  (∀ s, lastStored (f s) = None) →
  (∀ s, statisticsSendingJob (g s) = statisticsSendingJob s
        ∧ protocolState (g s) = protocolState s
        ∧ effects (g s) = effects s) →
  preserves mirrored (modify (λ s, set_effects (effects s ++ f s) (g s))).
Proof.
  intros Hf Hg s [Hstat Hs]. destruct (Hg s) as (E1 & E2 & E3).
  unfold mirrored. cbn [modify snd]. fields.
  by rewrite E1, E2, lastStored_app, Hf.
Qed.

Lemma mirrored_emit e : lastStored [e] = None → preserves mirrored (emit e).
Proof. intros He. by apply (mirrored_effects (λ _, [e]) (λ s, s)). Qed.

Lemma mirrored_send event : preserves mirrored (send event).
Proof.
  apply (mirrored_effects (λ s, broadcast s event)
           (λ s, set_clientMessengers (liveClients s) s)); [| done].
  intros s. apply lastStored_broadcast.
Qed.

Lemma mirrored_stopSendingStatistics : preserves mirrored stopSendingStatistics.
Proof.
  intros s Hs. unfold stopSendingStatistics, bind, get.
  destruct Hs as [Hstat ?]. by rewrite Hstat.
Qed.

Lemma mirrored_setProtocolState state :
  preserves mirrored (setProtocolState state).
Proof.
  intros s [Hstat Hs].
  destruct (decide (protocolState s = state)) as [E | E].
  - by rewrite setProtocolState_same.
  - rewrite setProtocolState_changed by done. split; fields; [done |].
    unfold transition. by rewrite !lastStored_app.
Qed.

(** Goes through a method that stores no state. *)
Ltac keep_mirrored :=
  repeat first
    [ solve [eauto with keep]
    | apply mirrored_emit; reflexivity
    | apply mirrored_send
    | apply mirrored_stopSendingStatistics
    | apply mirrored_setProtocolState
    | apply preserves_bind; [| intros ?]
    | apply preserves_when
    | apply preserves_modify; intros ? HI; exact HI
    | match goal with
      | |- preserves _ (match ?x with _ => _ end) => destruct x
      | |- preserves _ (if ?x then _ else _) => destruct x
      end ].

Lemma mirrored_connectionExceptionHandler e :
  preserves mirrored (connectionExceptionHandler e).
Proof. unfold connectionExceptionHandler, onError. keep_mirrored. Qed.

Lemma mirrored_statement c outcome : preserves mirrored (statement c outcome).
Proof.
  unfold statement, connectionStatement, disconnectionStatement,
    reconnectionStatement, getString, getProtocol, stopService.
  keep_mirrored.
Qed.

Lemma mirrored_resume j outcome : preserves mirrored (resume j outcome).
Proof.
  apply preserves_resume_of;
    auto using mirrored_statement, mirrored_connectionExceptionHandler.
Qed.

Lemma mirrored_handler ev : preserves mirrored (handler JSONObject_new ev).
Proof.
  pose proof mirrored_resume.
  unfold handler, onStartCommand, onBind, onUnbind, onRebind, onRevoke,
    handleMessage, connect, connectToVpn, disconnect, reconnect,
    parseConfigToJson, saveServerData, asString, asInt, checkPermission,
    onError, launchSendingStatistics, stopService,
    send_to, launch, Prefs_load_String, Prefs_save_String,
    Prefs_save_Int.
  keep_mirrored.
Qed.

Lemma mirrored_run evs s :
  mirrored s → mirrored (run JSONObject_new evs s).
Proof.
  revert s. induction evs as [|ev evs IH]; intros s Hs; [done |].
  apply IH, preserves_exec; [apply mirrored_handler | done | done].
Qed.

(** X17. The state last handed to [VpnStateStore] is the state the
    service is in, at all times; as long as nothing has been handed to
    it the state is still Unknown. *)
Theorem stored_state_follows_state s :
  reachable JSONObject_new s →
  match lastStored (effects s) with
  | Some state => state = protocolState s
  | None => protocolState s = UNKNOWN
  end.
Proof.
  intros (stored & granted & evs & ->). apply mirrored_run.
  destruct (created_fields stored granted) as (_ & Hstate & Hstat & _).
  split; [done |].
  replace (effects (created stored granted)) with (@nil Effect); [done |].
  unfold created, loadServerData, Prefs_load_String, Prefs_load_Int, bind,
    gets, modify, get, ret.
  fields. by destruct (isBlank _).
Qed.

(** ** The coroutine of a disconnect *)

(** Runs the statement the innermost [Resume] of the goal is at. *)
Ltac resumed Hlive Hlt :=
  match goal with
  | |- context [exec _ (Resume ?j ?o) ?t] =>
      lazymatch t with
      | context [exec _ _ _] => fail
      | _ =>
          let H1 := fresh in
          let H2 := fresh in
          assert (H1 : uncaught t = None) by (fields; exact Hlive);
          eassert (H2 : coroutines t !! j = Some _)
            by (fields;
                first [ eassumption
                      | apply list_lookup_insert_eq; rewrite ?length_insert;
                        exact Hlt ]);
          rewrite (exec_resume_statement _ _ _ _ H1 H2); clear H1 H2;
          unfold statement, connectionStatement, disconnectionStatement,
            emit, bind, modify, get, ret;
          fields
      end
  end.

(** X18. Once its join has returned, the coroutine of a disconnect
    clears [connectionJob], calls [stopVpn] of the active protocol when
    there is one, clears the active protocol once [stopVpn] has
    returned, and starts to wait for state Disconnected with the bound
    [DISCONNECT_TIMEOUT] counted from then.  It does not change the
    state itself, and without an active protocol it calls nothing. *)
Theorem disconnection_coroutine_stops_the_protocol s j o1 o2 o3 :
  uncaught s = None →
  coroutines s !! j = Some (DisconnectionJob DClear) →
  let s' := match protocol s with
            | Some _ => run JSONObject_new
                          [Resume j o1; Resume j o2; Resume j None; Resume j o3] s
            | None => run JSONObject_new
                        [Resume j o1; Resume j o2; Resume j o3] s
            end in
  connectionJob s' = None
  ∧ protocol s' = None
  ∧ protocolState s' = protocolState s
  ∧ uncaught s' = None
  ∧ coroutines s'
    = <[j := DisconnectionJob (DAwait (clock s + DISCONNECT_TIMEOUT))]>
        (coroutines s)
  ∧ effects s'
    = effects s ++ match protocol s with
                   | Some p => [StopVpn p; StopVpnReturned p]
                   | None => []
                   end.
Proof.
  intros Hlive Hj.
  assert (Hlt : (j < length (coroutines s))%nat) by (by eapply lookup_lt_Some).
  destruct (protocol s) as [p|] eqn:Hp; unfold run; cbn [foldl]; cbv zeta.
  - resumed Hlive Hlt. resumed Hlive Hlt. rewrite Hp. fields.
    resumed Hlive Hlt. resumed Hlive Hlt.
    rewrite !list_insert_insert_eq, <- app_assoc.
    by repeat (split; [first [reflexivity | assumption] |]).
  - resumed Hlive Hlt. resumed Hlive Hlt. rewrite Hp. fields.
    resumed Hlive Hlt.
    rewrite !list_insert_insert_eq, app_nil_r.
    by repeat (split; [first [reflexivity | assumption] |]).
Qed.

End Properties.

(** * The claims on runs of the service *)

(** Settles a statement about a run by running it. *)
Ltac evaluated :=
  vm_compute;
  repeat (split; [first [reflexivity | discriminate] |]);
  first [reflexivity | discriminate].

(** C1. The join of the opposite coroutine does not order a connect, a
    disconnect and a second connect that overlap.  In the run
    [overlapping] the first connection coroutine clears
    [disconnectionJob] after the disconnect has set it, so the second
    connection coroutine joins nothing: [stopVpn] of wireguard is under
    way, for a disconnect whose coroutine has not completed, while
    [startVpn] of openvpn is under way. *)
Theorem stop_overlaps_start :
  let s := run exampleJSON overlapping fresh in
  uncaught s = None
  ∧ coroutines s !! 1%nat = Some (DisconnectionJob (DStopping Wireguard))
  ∧ coroutines s !! 2%nat
    = Some (ConnectionJob openvpnConfig (CStarting OpenVpn))
  ∧ midStop s Wireguard = true
  ∧ midStart s OpenVpn = true
  ∧ List.filter isProtocolCall (effects s)
    = [Initialize Wireguard; StartVpn Wireguard; StopVpn Wireguard;
       Initialize OpenVpn; StartVpn OpenVpn].
Proof. evaluated. Qed.

(** When the disconnect comes before the coroutine of the connect has
    run at all, each coroutine joins the other: neither runs again, and
    neither [startVpn] nor [stopVpn] is ever called. *)
Lemma hasty_disconnect_blocks_both :
  let s := run exampleJSON hasty fresh in
  coroutines s = [ConnectionJob wireguardConfig (CJoining 1);
                  DisconnectionJob (DJoining 0)]
  ∧ List.filter isProtocolCall (effects s) = []
  ∧ exec exampleJSON (Resume 0 None) s = s
  ∧ exec exampleJSON (Resume 1 None) s = s.
Proof. evaluated. Qed.

Lemma connect_is_idempotent_witness :
  let s := run exampleJSON
             [HandleMessage 1%nat (CONNECT (Some "wireguard.json"))] fresh in
  (protocolState s = CONNECTED ∨ protocolState s = CONNECTING)
  ∧ effects (connect exampleJSON (Some "openvpn.json") s).2 = effects s.
Proof.
  intros s.
  assert (H : protocolState s = CONNECTED ∨ protocolState s = CONNECTING)
    by (right; vm_compute; reflexivity).
  split; [exact H |].
  apply (connect_is_idempotent exampleJSON (Some "openvpn.json") s H).
Defined.

Lemma disconnect_timeout_escalates_once_witness :
  let s := run exampleJSON timedOut fresh in
  uncaught s = None
  ∧ coroutines s !! 1%nat = Some (DisconnectionJob (DAwait 5000))
  ∧ protocolState s = DISCONNECTING
  ∧ clock s = 5000
  ∧ effects (exec exampleJSON (Resume 1 None) s)
    = effects s ++ [KillProcessAt (clock s + STOP_SERVICE_TIMEOUT); StopSelf].
Proof.
  intros s.
  assert (Hlive : uncaught s = None) by (vm_compute; reflexivity).
  assert (Hj : coroutines s !! 1%nat = Some (DisconnectionJob (DAwait 5000)))
    by (vm_compute; reflexivity).
  assert (Hstate : protocolState s = DISCONNECTING)
    by (vm_compute; reflexivity).
  assert (Hclock : clock s = 5000) by (vm_compute; reflexivity).
  split; [exact Hlive |]. split; [exact Hj |]. split; [exact Hstate |].
  split; [exact Hclock |].
  destruct (disconnect_timeout_escalates_once exampleJSON s 1 None Hlive)
    as [_ H].
  destruct (H 5000 Hj) as [_ Hescalate]; [by rewrite Hstate |].
  apply Hescalate. rewrite Hclock. lia.
Defined.

Lemma unsupported_protocol_fails_connect_witness :
  let s := run exampleJSON
             [HandleMessage 1%nat (REGISTER_CLIENT (Some "Activity"));
              HandleMessage 1%nat (CONNECT (Some "unknown.json"));
              Resume 0 None; Resume 0 None] fresh in
  let s' := exec exampleJSON (Resume 0 None) s in
  reachable exampleJSON s
  ∧ uncaught s = None
  ∧ coroutines s !! 0%nat = Some (ConnectionJob unknownConfig CResolve)
  ∧ unknownConfig !! "protocol" = Some (JString "unknown")
  ∧ ¬ supported "unknown"
  ∧ protocolState s' = DISCONNECTED
  ∧ protocol s' = None
  ∧ uncaught s' = None.
Proof.
  intros s s'.
  assert (Hs : reachable exampleJSON s) by (by eexists _, _, _).
  assert (Hlive : uncaught s = None) by (vm_compute; reflexivity).
  assert (Hj : coroutines s !! 0%nat
               = Some (ConnectionJob unknownConfig CResolve))
    by (vm_compute; reflexivity).
  assert (Hv : unknownConfig !! "protocol" = Some (JString "unknown"))
    by (vm_compute; reflexivity).
  assert (Hname : ¬ supported (JSON_toString (JString "unknown")))
    by (intros [H | [H | [H | H]]]; discriminate H).
  split; [exact Hs |]. split; [exact Hlive |]. split; [exact Hj |].
  split; [exact Hv |]. split; [exact Hname |].
  destruct (unsupported_protocol_fails_connect exampleJSON s 0 unknownConfig
              (JString "unknown") None Hs Hlive Hj Hv Hname)
    as (H1 & H2 & H3 & _).
  split; [exact H1 |]. split; [exact H2 | exact H3].
Defined.

(** C5 as stated fails: a client is registered, [startVpn] throws an
    exception of a class the handler has no message for, and the
    exception ends the process without any ERROR having been sent. *)
Lemma unclassified_failure_sends_no_error :
  let s := run exampleJSON
             (HandleMessage 1%nat (REGISTER_CLIENT (Some "Activity"))
              :: starting) fresh in
  let s' := exec exampleJSON (Resume 0 (Some unexpected)) s in
  coroutines s !! 0%nat
  = Some (ConnectionJob wireguardConfig (CStarting Wireguard))
  ∧ clientMessengers s' !! 1%nat = Some {| name := Some "Activity" |}
  ∧ deadChannels s' = ∅
  ∧ classified (class unexpected) = false
  ∧ protocolState s' = DISCONNECTED
  ∧ uncaught s' = Some unexpected
  ∧ List.filter isError (effects s') = [].
Proof. evaluated. Qed.

Lemma failure_of_connection_task_witness :
  let s := run exampleJSON
             (HandleMessage 1%nat (REGISTER_CLIENT (Some "Activity"))
              :: starting) fresh in
  let c := ConnectionJob wireguardConfig (CStarting Wireguard) in
  let s' := exec exampleJSON (Resume 0 (Some unexpected)) s in
  reachable exampleJSON s
  ∧ uncaught s = None
  ∧ coroutines s !! 0%nat = Some c
  ∧ (statement c (Some unexpected) s).1 = Throw unexpected
  ∧ protocolState s' = DISCONNECTED
  ∧ protocol s' = None
  ∧ coroutines s' = <[0%nat := Completed]> (coroutines s).
Proof.
  intros s c s'.
  assert (Hs : reachable exampleJSON s) by (by eexists _, _, _).
  assert (Hlive : uncaught s = None) by (vm_compute; reflexivity).
  assert (Hj : coroutines s !! 0%nat = Some c) by (vm_compute; reflexivity).
  assert (Hfail : (statement c (Some unexpected) s).1 = Throw unexpected)
    by (apply failed_call_is_raised; left; by eexists _, _).
  split; [exact Hs |]. split; [exact Hlive |]. split; [exact Hj |].
  split; [exact Hfail |].
  destruct (failure_of_connection_task exampleJSON s 0 c (Some unexpected)
              unexpected Hs Hlive Hj Hfail) as (H1 & H2 & H3 & _).
  split; [exact H1 |]. split; [exact H2 | exact H3].
Defined.

(** C6 as stated fails: the description and the index of the last
    configuration are stored, the next connect comes with a blank
    configuration, and the stored fields are gone. *)
Lemma failed_parse_overwrites_descriptive_fields :
  let s := run exampleJSON
             [HandleMessage 1%nat (CONNECT (Some "wireguard.json"));
              StateReported DISCONNECTED] fresh in
  let s' := (connectToVpn exampleJSON " " s).2 in
  prefs s !! PREFS_SERVER_NAME = Some (PString "Home")
  ∧ prefs s !! PREFS_SERVER_INDEX = Some (PInt 2)
  ∧ (parseConfigToJson exampleJSON " " s).1 = Ok None
  ∧ prefs s' !! PREFS_SERVER_NAME = None
  ∧ prefs s' !! PREFS_SERVER_INDEX = Some (PInt (-1)).
Proof. evaluated. Qed.

Lemma descriptive_fields_persisted_witness :
  let s' := (connectToVpn exampleJSON "wireguard.json" fresh).2 in
  reachable exampleJSON fresh
  ∧ prefs s' !! PREFS_SERVER_NAME = Some (PString "Home")
  ∧ prefs s' !! PREFS_SERVER_INDEX = Some (PInt 2).
Proof.
  intros s'.
  assert (Hs : reachable exampleJSON fresh) by (by exists ∅, true, []).
  split; [exact Hs |].
  destruct (descriptive_fields_persisted exampleJSON "wireguard.json" fresh Hs)
    as (_ & _ & H).
  assert (H1 : protocolState fresh ≠ CONNECTED)
    by (vm_compute; discriminate).
  assert (H2 : protocolState fresh ≠ CONNECTING)
    by (vm_compute; discriminate).
  apply (H H1 H2 wireguardConfig); vm_compute; reflexivity.
Defined.

(** C7 as stated fails: the foreground observer registers while the
    state is Connected; no sending loop is started, and a minute later
    still nothing but the state changes has been sent. *)
Lemma registering_observer_starts_no_loop :
  let s := run exampleJSON connecting fresh in
  let s' := run exampleJSON
              [HandleMessage 1%nat
                 (REGISTER_CLIENT (Some ACTIVITY_MESSENGER_NAME));
               Elapsed 60000] s in
  protocolState s = CONNECTED
  ∧ clientMessengers s' !! 1%nat
    = Some {| name := Some ACTIVITY_MESSENGER_NAME |}
  ∧ statisticsSendingJob s' = None
  ∧ coroutines s' = [Completed]
  ∧ List.filter isStatistics (effects s') = []
  ∧ effects s' = effects s.
Proof. evaluated. Qed.

Lemma register_observer_arms_nothing_witness :
  let s := run exampleJSON connecting fresh in
  let s' := exec exampleJSON
              (HandleMessage 1%nat
                 (REGISTER_CLIENT (Some ACTIVITY_MESSENGER_NAME))) s in
  reachable exampleJSON s
  ∧ uncaught s = None
  ∧ protocolState s = CONNECTED
  ∧ statisticsSendingJob s' = None
  ∧ coroutines s' = coroutines s
  ∧ effects s' = effects s.
Proof.
  intros s s'.
  assert (Hs : reachable exampleJSON s) by (by eexists _, _, _).
  assert (Hlive : uncaught s = None) by (vm_compute; reflexivity).
  assert (Hstate : protocolState s = CONNECTED) by (vm_compute; reflexivity).
  split; [exact Hs |]. split; [exact Hlive |]. split; [exact Hstate |].
  destruct (register_observer_arms_nothing exampleJSON 1%nat s Hs Hlive Hstate)
    as (_ & H1 & H2 & H3 & _).
  split; [exact H1 |]. split; [exact H2 | exact H3].
Defined.

Lemma network_change_reconnects_witness :
  let s := run exampleJSON connecting fresh in
  let s1 := exec exampleJSON NetworkChanged s in
  reachable exampleJSON s
  ∧ uncaught s = None
  ∧ protocolState s = CONNECTED
  ∧ protocol s = Some Wireguard
  ∧ protocolState s1 = RECONNECTING
  ∧ coroutines s1 = coroutines s ++ [ReconnectionJob RCall].
Proof.
  intros s s1.
  assert (Hs : reachable exampleJSON s) by (by eexists _, _, _).
  assert (Hlive : uncaught s = None) by (vm_compute; reflexivity).
  assert (Hstate : protocolState s = CONNECTED) by (vm_compute; reflexivity).
  assert (Hp : protocol s = Some Wireguard) by (vm_compute; reflexivity).
  split; [exact Hs |]. split; [exact Hlive |]. split; [exact Hstate |].
  split; [exact Hp |].
  destruct (network_change_reconnects exampleJSON s Hs Hlive) as [_ H].
  destruct (H Hstate Wireguard Hp) as (H1 & _ & H2 & _).
  split; [exact H1 | exact H2].
Defined.

(** C9 as stated fails: the service is connected, the network changes,
    and in state Reconnecting the observer is still bound. *)
Lemma observer_bound_while_reconnecting :
  let s := run exampleJSON (connecting ++ [NetworkChanged]) fresh in
  protocolState s = RECONNECTING
  ∧ protocolState s ≠ CONNECTED
  ∧ networkListener s = true.
Proof. evaluated. Qed.

Lemma listener_follows_state_witness :
  let s := run exampleJSON connecting fresh in
  reachable exampleJSON s
  ∧ protocolState s = CONNECTED
  ∧ networkListener s = true.
Proof.
  intros s.
  assert (Hs : reachable exampleJSON s) by (by eexists _, _, _).
  assert (Hstate : protocolState s = CONNECTED) by (vm_compute; reflexivity).
  split; [exact Hs |]. split; [exact Hstate |].
  destruct (listener_follows_state exampleJSON s Hs) as [H _].
  exact (H Hstate).
Defined.

Lemma connect_without_permission_witness :
  let s := created ∅ false in
  let r := connectToVpn exampleJSON "wireguard.json" s in
  reachable exampleJSON s
  ∧ protocolState s ≠ CONNECTED
  ∧ protocolState s ≠ CONNECTING
  ∧ isBlank "wireguard.json" = false
  ∧ exampleJSON "wireguard.json" = inr wireguardConfig
  ∧ descriptive wireguardConfig = true
  ∧ vpnPermission s = false
  ∧ protocolState r.2 = DISCONNECTED
  ∧ coroutines r.2 = coroutines s.
Proof.
  intros s r.
  assert (Hs : reachable exampleJSON s) by (by exists ∅, false, []).
  assert (H1 : protocolState s ≠ CONNECTED) by (vm_compute; discriminate).
  assert (H2 : protocolState s ≠ CONNECTING) by (vm_compute; discriminate).
  assert (H3 : isBlank "wireguard.json" = false) by (vm_compute; reflexivity).
  assert (H4 : exampleJSON "wireguard.json" = inr wireguardConfig)
    by (vm_compute; reflexivity).
  assert (H5 : descriptive wireguardConfig = true)
    by (vm_compute; reflexivity).
  assert (H6 : vpnPermission s = false) by (vm_compute; reflexivity).
  destruct (connect_without_permission exampleJSON "wireguard.json"
              wireguardConfig s Hs H1 H2 H3 H4 H5 H6)
    as (_ & E1 & E2 & _).
  repeat (split; [assumption |]). exact E2.
Defined.

(** * The further properties on runs of the service *)

Lemma disconnect_launches_one_coroutine_witness :
  let s := run exampleJSON connecting fresh in
  reachable exampleJSON s
  ∧ protocolState s = CONNECTED
  ∧ protocolState (disconnect s).2 = DISCONNECTING
  ∧ disconnectionJob (disconnect s).2 = Some 1%nat.
Proof.
  intros s.
  assert (Hs : reachable exampleJSON s) by (by eexists _, _, _).
  assert (Hstate : protocolState s = CONNECTED) by (vm_compute; reflexivity).
  split; [exact Hs |]. split; [exact Hstate |].
  destruct (disconnect_launches_one_coroutine exampleJSON s Hs)
    as (_ & _ & H).
  destruct (H (or_intror (or_introl Hstate))) as (H1 & _ & _ & H2 & _).
  split; [exact H1 |]. rewrite H2. vm_compute. reflexivity.
Defined.

Lemma state_change_reaches_every_client_witness :
  let s := run exampleJSON
             [HandleMessage 1%nat (REGISTER_CLIENT (Some "Activity"));
              HandleMessage 2%nat (REGISTER_CLIENT None)] fresh in
  reachable exampleJSON s
  ∧ protocolState s ≠ CONNECTING
  ∧ protocolState (setProtocolState CONNECTING s).2 = CONNECTING.
Proof.
  intros s.
  assert (Hs : reachable exampleJSON s) by (by eexists _, _, _).
  assert (Hstate : protocolState s ≠ CONNECTING)
    by (vm_compute; discriminate).
  split; [exact Hs |]. split; [exact Hstate |].
  destruct (state_change_reaches_every_client exampleJSON CONNECTING s Hs)
    as (_ & _ & H).
  destruct (H Hstate) as (H1 & _). exact H1.
Defined.

Lemma unbound_idle_service_stops_witness :
  let s := run exampleJSON [OnBind false] fresh in
  let s1 := exec exampleJSON (OnUnbind false) s in
  reachable exampleJSON s
  ∧ uncaught s = None
  ∧ clientMessengers s = ∅
  ∧ protocolState s = UNKNOWN
  ∧ isServiceBound s1 = false
  ∧ effects s1
    = effects s ++ [KillProcessAt (clock s + STOP_SERVICE_TIMEOUT); StopSelf].
Proof.
  intros s s1.
  assert (Hs : reachable exampleJSON s) by (by eexists _, _, _).
  assert (Hlive : uncaught s = None) by (vm_compute; reflexivity).
  assert (Hnone : clientMessengers s = ∅) by (vm_compute; reflexivity).
  assert (Hstate : protocolState s = UNKNOWN) by (vm_compute; reflexivity).
  split; [exact Hs |]. split; [exact Hlive |]. split; [exact Hnone |].
  split; [exact Hstate |].
  destruct (unbound_idle_service_stops exampleJSON s Hs Hlive) as (_ & H).
  destruct (H Hnone) as (H1 & H2 & _).
  split; [exact H1 | exact (H2 (or_introl Hstate))].
Defined.

Lemma register_then_unregister_witness :
  let s := run exampleJSON
             [HandleMessage 7%nat (REGISTER_CLIENT (Some "Watcher"))] fresh in
  let pair := [HandleMessage 7%nat (REGISTER_CLIENT (Some "Activity"));
               HandleMessage 7%nat UNREGISTER_CLIENT] in
  reachable exampleJSON s
  ∧ uncaught s = None
  ∧ clientMessengers s !! 7%nat = Some {| name := Some "Watcher" |}
  ∧ run exampleJSON pair s
    = set_clientMessengers (delete 7%nat (clientMessengers s)) s.
Proof.
  intros s pair.
  assert (Hs : reachable exampleJSON s) by (by eexists _, _, _).
  assert (Hlive : uncaught s = None) by (vm_compute; reflexivity).
  assert (Hold : clientMessengers s !! 7%nat
                 = Some {| name := Some "Watcher" |})
    by (vm_compute; reflexivity).
  split; [exact Hs |]. split; [exact Hlive |]. split; [exact Hold |].
  destruct (register_then_unregister exampleJSON s 7%nat (Some "Activity")
              Hs Hlive) as (H & _).
  exact H.
Defined.

Lemma unusable_config_is_rejected_witness :
  let s := run exampleJSON
             [HandleMessage 1%nat (REGISTER_CLIENT (Some "Activity"))] fresh in
  let errors :=
    broadcast s (ERROR ("Invalid VPN config json format: "
                        +:+ "Value cannot be converted to JSONObject")) in
  reachable exampleJSON s
  ∧ protocolState s ≠ CONNECTED
  ∧ protocolState s ≠ CONNECTING
  ∧ isBlank "garbage" = false
  ∧ exampleJSON "garbage" = inl "Value cannot be converted to JSONObject"
  ∧ isBlank noBreakSpaces = true
  ∧ protocolState (connectToVpn exampleJSON "garbage" s).2 = DISCONNECTED
  ∧ coroutines (connectToVpn exampleJSON "garbage" s).2 = coroutines s
  ∧ protocolState (connectToVpn exampleJSON noBreakSpaces s).2 = DISCONNECTED
  ∧ coroutines (connectToVpn exampleJSON noBreakSpaces s).2 = coroutines s.
Proof.
  intros s errors.
  assert (Hs : reachable exampleJSON s) by (by eexists _, _, _).
  assert (Hc1 : protocolState s ≠ CONNECTED) by (vm_compute; discriminate).
  assert (Hc2 : protocolState s ≠ CONNECTING) by (vm_compute; discriminate).
  assert (Hfull : isBlank "garbage" = false) by (vm_compute; reflexivity).
  assert (Hparse : exampleJSON "garbage"
                   = inl "Value cannot be converted to JSONObject")
    by (vm_compute; reflexivity).
  assert (Hblank : isBlank noBreakSpaces = true) by (vm_compute; reflexivity).
  split; [exact Hs |]. split; [exact Hc1 |]. split; [exact Hc2 |].
  split; [exact Hfull |]. split; [exact Hparse |]. split; [exact Hblank |].
  destruct (unusable_config_is_rejected exampleJSON "garbage" s Hs Hc1 Hc2
              errors
              (or_intror (conj Hfull
                            (ex_intro _ _ (conj Hparse eq_refl)))))
    as (_ & H1 & H2 & _).
  destruct (unusable_config_is_rejected exampleJSON noBreakSpaces s Hs Hc1 Hc2
              [] (or_introl (conj Hblank eq_refl)))
    as (_ & H3 & H4 & _).
  split; [exact H1 |]. split; [exact H2 |]. split; [exact H3 | exact H4].
Defined.

Lemma only_three_keys_are_written_witness :
  let ev := HandleMessage 1%nat (CONNECT (Some "wireguard.json")) in
  "LAST_PROTOCOL" ≠ PREFS_SERVER_NAME
  ∧ "LAST_PROTOCOL" ≠ PREFS_SERVER_INDEX
  ∧ prefs (exec exampleJSON ev fresh) !! "LAST_PROTOCOL"
    = prefs fresh !! "LAST_PROTOCOL".
Proof.
  intros ev.
  assert (Hname : "LAST_PROTOCOL" ≠ PREFS_SERVER_NAME) by discriminate.
  assert (Hindex : "LAST_PROTOCOL" ≠ PREFS_SERVER_INDEX) by discriminate.
  assert (Hconfig : "LAST_PROTOCOL" = PREFS_CONFIG_KEY → configOf ev = None)
    by discriminate.
  split; [exact Hname |]. split; [exact Hindex |].
  exact (only_three_keys_are_written exampleJSON ev fresh "LAST_PROTOCOL"
           Hname Hindex Hconfig).
Defined.

Lemma last_config_is_replayed_witness :
  let evs := [HandleMessage 1%nat (CONNECT (Some "wireguard.json"));
              Resume 0 None;
              HandleMessage 1%nat DISCONNECT;
              HandleMessage 1%nat (CONNECT None)] in
  let s' := run exampleJSON evs fresh in
  uncaught s' = None
  ∧ lastConfig evs = Some "wireguard.json"
  ∧ connect exampleJSON None s' = connectToVpn exampleJSON "wireguard.json" s'.
Proof.
  intros evs s'.
  assert (Hlive : uncaught (run exampleJSON evs fresh) = None)
    by (vm_compute; reflexivity).
  assert (Hlast : lastConfig evs = Some "wireguard.json")
    by (vm_compute; reflexivity).
  split; [exact Hlive |]. split; [exact Hlast |].
  exact (last_config_is_replayed exampleJSON evs fresh "wireguard.json"
           Hlive Hlast).
Defined.


Lemma registry_holds_the_active_protocol_witness :
  let s := run exampleJSON starting fresh in
  reachable exampleJSON s
  ∧ protocol s = Some Wireguard
  ∧ protocolCache s !! nameOf Wireguard = Some Wireguard.
Proof.
  intros s.
  assert (Hs : reachable exampleJSON s) by (by eexists _, _, _).
  assert (Hp : protocol s = Some Wireguard) by (vm_compute; reflexivity).
  split; [exact Hs |]. split; [exact Hp |].
  destruct (registry_holds_the_active_protocol exampleJSON s Hs) as (_ & H).
  exact (H Wireguard Hp).
Defined.

Lemma config_without_protocol_fails_connect_witness :
  let s := run moreJSON
             [HandleMessage 1%nat (CONNECT (Some "nameless.json"));
              Resume 0 None; Resume 0 None] fresh in
  let s' := exec moreJSON (Resume 0 None) s in
  reachable moreJSON s
  ∧ uncaught s = None
  ∧ coroutines s !! 0%nat = Some (ConnectionJob namelessConfig CResolve)
  ∧ namelessConfig !! "protocol" = None
  ∧ protocolState s' = DISCONNECTED
  ∧ protocol s' = None
  ∧ uncaught s' = None.
Proof.
  intros s s'.
  assert (Hs : reachable moreJSON s) by (by eexists _, _, _).
  assert (Hlive : uncaught s = None) by (vm_compute; reflexivity).
  assert (Hj : coroutines s !! 0%nat
               = Some (ConnectionJob namelessConfig CResolve))
    by (vm_compute; reflexivity).
  assert (Hv : namelessConfig !! "protocol" = None)
    by (vm_compute; reflexivity).
  split; [exact Hs |]. split; [exact Hlive |]. split; [exact Hj |].
  split; [exact Hv |].
  destruct (config_without_protocol_fails_connect moreJSON s 0 namelessConfig
              None Hs Hlive Hj Hv) as (H1 & H2 & H3 & _).
  split; [exact H1 |]. split; [exact H2 | exact H3].
Defined.

Lemma connection_coroutine_starts_the_protocol_witness :
  let s := run exampleJSON
             [HandleMessage 1%nat (CONNECT (Some "wireguard.json"));
              Resume 0 None; Resume 0 None] fresh in
  let s' := run exampleJSON [Resume 0 None; Resume 0 None; Resume 0 None] s in
  reachable exampleJSON s
  ∧ uncaught s = None
  ∧ coroutines s !! 0%nat = Some (ConnectionJob wireguardConfig CResolve)
  ∧ wireguardConfig !! "protocol" = Some (JString "wireguard")
  ∧ supported "wireguard"
  ∧ ∃ p, nameOf p = "wireguard" ∧ protocol s' = Some p.
Proof.
  intros s s'.
  assert (Hs : reachable exampleJSON s) by (by eexists _, _, _).
  assert (Hlive : uncaught s = None) by (vm_compute; reflexivity).
  assert (Hj : coroutines s !! 0%nat
               = Some (ConnectionJob wireguardConfig CResolve))
    by (vm_compute; reflexivity).
  assert (Hv : wireguardConfig !! "protocol" = Some (JString "wireguard"))
    by (vm_compute; reflexivity).
  assert (Hname : supported (JSON_toString (JString "wireguard")))
    by (left; reflexivity).
  split; [exact Hs |]. split; [exact Hlive |]. split; [exact Hj |].
  split; [exact Hv |]. split; [exact Hname |].
  destruct (connection_coroutine_starts_the_protocol exampleJSON s 0
              wireguardConfig (JString "wireguard") None None
              Hs Hlive Hj Hv Hname) as (p & H1 & H2 & _).
  exists p. split; [exact H1 | exact H2].
Defined.

Lemma mutual_join_never_ends_witness :
  let s := run exampleJSON hasty fresh in
  let s' := run exampleJSON
              [Resume 0 None; Resume 1 None; Elapsed 10000;
               StateReported DISCONNECTED; Resume 0 None] s in
  reachable exampleJSON s
  ∧ coroutines s !! 0%nat = Some (ConnectionJob wireguardConfig (CJoining 1))
  ∧ coroutines s !! 1%nat = Some (DisconnectionJob (DJoining 0))
  ∧ coroutines s' !! 0%nat = Some (ConnectionJob wireguardConfig (CJoining 1))
  ∧ coroutines s' !! 1%nat = Some (DisconnectionJob (DJoining 0)).
Proof.
  intros s s'.
  assert (Hs : reachable exampleJSON s) by (by eexists _, _, _).
  assert (Ha : coroutines s !! 0%nat
               = Some (ConnectionJob wireguardConfig (CJoining 1)))
    by (vm_compute; reflexivity).
  assert (Hb : coroutines s !! 1%nat = Some (DisconnectionJob (DJoining 0)))
    by (vm_compute; reflexivity).
  split; [exact Hs |]. split; [exact Ha |]. split; [exact Hb |].
  exact (mutual_join_never_ends exampleJSON s 0 1 wireguardConfig
           [Resume 0 None; Resume 1 None; Elapsed 10000;
            StateReported DISCONNECTED; Resume 0 None] Hs Ha Hb).
Defined.

Lemma connect_launches_one_coroutine_witness :
  let r := connectToVpn exampleJSON "wireguard.json" fresh in
  reachable exampleJSON fresh
  ∧ protocolState fresh ≠ CONNECTED
  ∧ protocolState fresh ≠ CONNECTING
  ∧ isBlank "wireguard.json" = false
  ∧ exampleJSON "wireguard.json" = inr wireguardConfig
  ∧ descriptive wireguardConfig = true
  ∧ vpnPermission fresh = true
  ∧ protocolState r.2 = CONNECTING
  ∧ coroutines r.2 = coroutines fresh ++ [ConnectionJob wireguardConfig CJoin].
Proof.
  intros r.
  assert (Hs : reachable exampleJSON fresh) by (by exists ∅, true, []).
  assert (Hc1 : protocolState fresh ≠ CONNECTED) by (vm_compute; discriminate).
  assert (Hc2 : protocolState fresh ≠ CONNECTING)
    by (vm_compute; discriminate).
  assert (Hblank : isBlank "wireguard.json" = false)
    by (vm_compute; reflexivity).
  assert (Hparse : exampleJSON "wireguard.json" = inr wireguardConfig)
    by (vm_compute; reflexivity).
  assert (Hdesc : descriptive wireguardConfig = true)
    by (vm_compute; reflexivity).
  assert (Hgranted : vpnPermission fresh = true) by (vm_compute; reflexivity).
  split; [exact Hs |]. split; [exact Hc1 |]. split; [exact Hc2 |].
  split; [exact Hblank |]. split; [exact Hparse |]. split; [exact Hdesc |].
  split; [exact Hgranted |].
  destruct (connect_launches_one_coroutine exampleJSON "wireguard.json"
              wireguardConfig fresh Hs Hc1 Hc2 Hblank Hparse Hdesc Hgranted)
    as (_ & H1 & H2 & _).
  split; [exact H1 | exact H2].
Defined.

Lemma hasty_disconnect_joins_both_ways_witness :
  let c := length (coroutines fresh) in
  let d := S c in
  let s' := run exampleJSON
              (HandleMessage 1%nat (CONNECT (Some "wireguard.json"))
               :: HandleMessage 1%nat DISCONNECT
               :: [Resume d None; Resume c None]) fresh in
  reachable exampleJSON fresh
  ∧ uncaught fresh = None
  ∧ protocolState fresh ≠ CONNECTED
  ∧ protocolState fresh ≠ CONNECTING
  ∧ isBlank "wireguard.json" = false
  ∧ exampleJSON "wireguard.json" = inr wireguardConfig
  ∧ descriptive wireguardConfig = true
  ∧ vpnPermission fresh = true
  ∧ coroutines s' !! c = Some (ConnectionJob wireguardConfig (CJoining d))
  ∧ coroutines s' !! d = Some (DisconnectionJob (DJoining c)).
Proof.
  intros c d s'.
  assert (Hs : reachable exampleJSON fresh) by (by exists ∅, true, []).
  assert (Hlive : uncaught fresh = None) by (vm_compute; reflexivity).
  assert (Hc1 : protocolState fresh ≠ CONNECTED) by (vm_compute; discriminate).
  assert (Hc2 : protocolState fresh ≠ CONNECTING)
    by (vm_compute; discriminate).
  assert (Hblank : isBlank "wireguard.json" = false)
    by (vm_compute; reflexivity).
  assert (Hparse : exampleJSON "wireguard.json" = inr wireguardConfig)
    by (vm_compute; reflexivity).
  assert (Hdesc : descriptive wireguardConfig = true)
    by (vm_compute; reflexivity).
  assert (Hgranted : vpnPermission fresh = true) by (vm_compute; reflexivity).
  split; [exact Hs |]. split; [exact Hlive |]. split; [exact Hc1 |].
  split; [exact Hc2 |]. split; [exact Hblank |]. split; [exact Hparse |].
  split; [exact Hdesc |]. split; [exact Hgranted |].
  destruct (hasty_disconnect_joins_both_ways exampleJSON "wireguard.json"
              wireguardConfig fresh 1%nat None None
              Hs Hlive Hc1 Hc2 Hblank Hparse Hdesc Hgranted
              [Resume d None; Resume c None] (or_intror eq_refl))
    as (H1 & H2 & _).
  split; [exact H1 | exact H2].
Defined.

Lemma mistyped_server_data_ends_the_process_witness :
  let s' := exec moreJSON
              (HandleMessage 1%nat (CONNECT (Some "mistyped.json"))) fresh in
  reachable moreJSON fresh
  ∧ uncaught fresh = None
  ∧ protocolState fresh ≠ CONNECTED
  ∧ protocolState fresh ≠ CONNECTING
  ∧ isBlank "mistyped.json" = false
  ∧ moreJSON "mistyped.json" = inr mistypedConfig
  ∧ descriptive mistypedConfig = false
  ∧ uncaught s' = Some classCast
  ∧ protocolState s' = CONNECTING.
Proof.
  intros s'.
  assert (Hs : reachable moreJSON fresh) by (by exists ∅, true, []).
  assert (Hlive : uncaught fresh = None) by (vm_compute; reflexivity).
  assert (Hc1 : protocolState fresh ≠ CONNECTED) by (vm_compute; discriminate).
  assert (Hc2 : protocolState fresh ≠ CONNECTING)
    by (vm_compute; discriminate).
  assert (Hblank : isBlank "mistyped.json" = false)
    by (vm_compute; reflexivity).
  assert (Hparse : moreJSON "mistyped.json" = inr mistypedConfig)
    by (vm_compute; reflexivity).
  assert (Hdesc : descriptive mistypedConfig = false)
    by (vm_compute; reflexivity).
  split; [exact Hs |]. split; [exact Hlive |]. split; [exact Hc1 |].
  split; [exact Hc2 |]. split; [exact Hblank |]. split; [exact Hparse |].
  split; [exact Hdesc |].
  destruct (mistyped_server_data_ends_the_process moreJSON "mistyped.json"
              mistypedConfig fresh 1%nat
              Hs Hlive Hc1 Hc2 Hblank Hparse Hdesc)
    as (H1 & H2 & _).
  split; [exact H1 | exact H2].
Defined.

Lemma stored_state_follows_state_witness :
  let s := run exampleJSON connecting fresh in
  reachable exampleJSON s
  ∧ match lastStored (effects s) with
    | Some state => state = protocolState s
    | None => protocolState s = UNKNOWN
    end.
Proof.
  intros s.
  assert (Hs : reachable exampleJSON s) by (by eexists _, _, _).
  split; [exact Hs |].
  exact (stored_state_follows_state exampleJSON s Hs).
Defined.

Lemma disconnection_coroutine_stops_the_protocol_witness :
  let s := run exampleJSON
             (connecting ++ [HandleMessage 1%nat DISCONNECT;
                             Resume 1 None; Resume 1 None]) fresh in
  let s' := match protocol s with
            | Some _ => run exampleJSON
                          [Resume 1 None; Resume 1 None; Resume 1 None;
                           Resume 1 None] s
            | None => run exampleJSON
                        [Resume 1 None; Resume 1 None; Resume 1 None] s
            end in
  uncaught s = None
  ∧ coroutines s !! 1%nat = Some (DisconnectionJob DClear)
  ∧ connectionJob s' = None
  ∧ protocol s' = None.
Proof.
  intros s s'.
  assert (Hlive : uncaught s = None) by (vm_compute; reflexivity).
  assert (Hj : coroutines s !! 1%nat = Some (DisconnectionJob DClear))
    by (vm_compute; reflexivity).
  split; [exact Hlive |]. split; [exact Hj |].
  destruct (disconnection_coroutine_stops_the_protocol exampleJSON s 1
              None None None Hlive Hj) as (H1 & H2 & _).
  split; [exact H1 | exact H2].
Defined.

Lemma connect_then_disconnect_in_order_witness :
  let before := [Resume 0 None; Resume 0 None] in
  let after := [Resume 1 None; Resume 0 None; Resume 1 None] in
  let s := run exampleJSON
             (HandleMessage 1%nat (CONNECT (Some "wireguard.json")) :: before
              ++ HandleMessage 1%nat DISCONNECT :: after)
             (created ∅ true) in
  Forall (λ ev, isBackground ev = true) before
  ∧ Forall (λ ev, isBackground ev = true) after
  ∧ ¬ (midStart s Wireguard = true ∧ midStop s Wireguard = true).
Proof.
  intros before after s.
  assert (Hbefore : Forall (λ ev, isBackground ev = true) before)
    by (repeat constructor).
  assert (Hafter : Forall (λ ev, isBackground ev = true) after)
    by (repeat constructor).
  split; [exact Hbefore |]. split; [exact Hafter |].
  exact (connect_then_disconnect_in_order exampleJSON ∅ true 1%nat
           (Some "wireguard.json") before after Wireguard Wireguard
           Hbefore Hafter).
Defined.
